(** * skill-mill: extraction and normalisation engine

    A shallow embedding of the parts of

      - [scripts/layer1_extractor.py]   (tag normaliser, document ids, section
        splitter, workflow / tag extractors, document composer, batch loop),
      - [scripts/claude_logs_parser.py] ([LogEntryParser], [Message],
        [Conversation], [ClaudeLogsParser.parse_file] and [parse_directory]),
      - [scripts/phase_c_clustering.py] ([DocCardGenerator],
        [BucketGenerator]),
      - [run_pipeline.py] ([count_input_files])

    that the specification speaks about, and of the functions around them,
    followed by the properties proved of them.

    Conventions of the embedding.

    - A Python [str] is a list of code points.  The code points modelled are
      U+0000 .. U+00FF, carried by [ascii]; the character tables below
      ([py_isspace], [py_isalnum], [py_isdecimal], [lower_char]) are those of
      CPython for that range.  Text with code points above U+00FF is outside
      the model.
    - [re] patterns are kept as syntax ([regex]) and run by a backtracking
      matcher with the priorities of CPython's engine (leftmost match, ordered
      alternation, greedy and lazy repetition, look-ahead, capture groups).
      Where a source pattern is quoted in a comment, a blank separates a
      star from a closing parenthesis that follows it.
    - Code that may raise runs in the error monad [res]; [try_except] is the
      [try: ... except Exception:] statement.
    - Library behaviour that the sources rely on but do not contain (set
      iteration order, [str()] of a value, base64 and date parsing,
      [json.loads], the comparison of timestamps) is a [Variable] of the
      section that uses it. *)

From Stdlib Require Import String Ascii List ZArith NArith QArith Lia Bool Arith.
From Stdlib Require Import Permutation Sorted.
Import ListNotations.
Local Open Scope string_scope.
Local Open Scope bool_scope.
Local Open Scope list_scope.
Local Open Scope nat_scope.

(* ================================================================= *)
(** * Python strings *)

Definition str := list ascii.

(** A string literal. *)
Definition L (s : string) : str := list_ascii_of_string s.

Definition nl : ascii := "010"%char.

Definition str_eqb (a b : str) : bool :=
  if list_eq_dec ascii_dec a b then true else false.

Definition cp (c : ascii) : N := N_of_ascii c.

Definition in_range (lo hi : N) (c : ascii) : bool :=
  N.leb lo (cp c) && N.leb (cp c) hi.

(** [str.isspace], also the class [\s] of [re]:
    U+0009-000D, U+001C-0020, U+0085, U+00A0. *)
Definition py_isspace (c : ascii) : bool :=
  in_range 9 13 c || in_range 28 32 c || N.eqb (cp c) 133 || N.eqb (cp c) 160.

(** [str.isdecimal], also the class [\d] of [re]. *)
Definition py_isdecimal (c : ascii) : bool := in_range 48 57 c.

(** Characters that [str.lower] changes: A-Z and U+00C0-00DE except U+00D7. *)
Definition py_isupper (c : ascii) : bool :=
  in_range 65 90 c || (in_range 192 222 c && negb (N.eqb (cp c) 215)).

(** [str.isalnum]: letters, digits and numeric characters of the range. *)
Definition py_isalnum (c : ascii) : bool :=
  in_range 48 57 c || in_range 65 90 c || in_range 97 122 c
  || N.eqb (cp c) 170 || in_range 178 179 c || N.eqb (cp c) 181
  || in_range 185 186 c || in_range 188 190 c
  || in_range 192 214 c || in_range 216 246 c || in_range 248 255 c.

(** The class [\w] of [re] on [str] patterns: alphanumeric or underscore. *)
Definition re_word (c : ascii) : bool := py_isalnum c || Ascii.eqb c "_"%char.

Definition is_ascii (c : ascii) : bool := N.ltb (cp c) 128.

Definition lower_char (c : ascii) : ascii :=
  if py_isupper c then ascii_of_N (cp c + 32) else c.

(** [s.lower()] *)
Definition lower (s : str) : str := map lower_char s.

(** [s.lstrip(chars)], [s.rstrip(chars)] for a set of characters *)
Fixpoint lstrip_by (f : ascii -> bool) (s : str) : str :=
  match s with
  | c :: t => if f c then lstrip_by f t else s
  | [] => []
  end.

(** The run of characters that [lstrip_by] removes. *)
Fixpoint take_while (f : ascii -> bool) (s : str) : str :=
  match s with
  | c :: t => if f c then c :: take_while f t else []
  | [] => []
  end.

Definition rstrip_by (f : ascii -> bool) (s : str) : str :=
  rev (lstrip_by f (rev s)).

(** [s.strip()] *)
Definition strip (s : str) : str := rstrip_by py_isspace (lstrip_by py_isspace s).

(** [s.split(sep)] for a one-character separator: never empty. *)
Fixpoint split_on (sep : ascii) (s : str) : list str :=
  match s with
  | [] => [[]]
  | c :: t =>
      if Ascii.eqb c sep then [] :: split_on sep t
      else match split_on sep t with
           | h :: r => (c :: h) :: r
           | [] => [[c]]
           end
  end.

(** [sep.join(parts)] *)
Fixpoint join (sep : str) (parts : list str) : str :=
  match parts with
  | [] => []
  | [p] => p
  | p :: rest => p ++ sep ++ join sep rest
  end.

(** [s.startswith(p)] *)
Fixpoint startswith (p s : str) : bool :=
  match p, s with
  | [], _ => true
  | a :: p', b :: s' => Ascii.eqb a b && startswith p' s'
  | _ :: _, [] => false
  end.

(** [sub in s] *)
Fixpoint contains (sub s : str) : bool :=
  startswith sub s ||
  match s with
  | [] => false
  | _ :: t => contains sub t
  end.

(** [s.find(sub)]; [None] is Python's -1. *)
Fixpoint find_index (sub s : str) : option nat :=
  if startswith sub s then Some 0
  else match s with
       | [] => None
       | _ :: t => option_map S (find_index sub t)
       end.

(** [s.rfind(c)] for a character *)
Fixpoint rfind_char (c : ascii) (s : str) : option nat :=
  match s with
  | [] => None
  | x :: t =>
      match rfind_char c t with
      | Some i => Some (S i)
      | None => if Ascii.eqb x c then Some 0 else None
      end
  end.

(** [s[-n:]] *)
Definition last_n (n : nat) (s : str) : str := skipn (length s - n) s.

(** [s.find(sub)] as Python returns it, and slices with integer bounds. *)
Definition py_find (sub s : str) : Z :=
  match find_index sub s with
  | Some i => Z.of_nat i
  | None => (-1)%Z
  end.

Definition slice_index (i : Z) (s : str) : nat :=
  if (i <? 0)%Z then Z.to_nat (Z.max 0 (Z.of_nat (length s) + i))
  else Nat.min (Z.to_nat i) (length s).

(** [s[lo:hi]] and [s[lo:]] *)
Definition slice (lo hi : Z) (s : str) : str :=
  firstn (slice_index hi s - slice_index lo s) (skipn (slice_index lo s) s).
Definition slice_from (lo : Z) (s : str) : str := skipn (slice_index lo s) s.

(** [s.replace(a, b)] for one-character [a] *)
Definition replace_char (a : ascii) (b : str) (s : str) : str :=
  flat_map (fun c => if Ascii.eqb c a then b else [c]) s.

(** [int(s)] on a run of decimal digits *)
Definition int_of_digits (s : str) : N :=
  fold_left (fun acc c => (10 * acc + (cp c - 48))%N) s 0%N.

(** Truth value of an [Optional[str]] *)
Definition truthy (o : option str) : bool :=
  match o with
  | Some (_ :: _) => true
  | _ => false
  end.

(** A [dict] with string keys, in insertion order. *)
Definition dict (V : Type) := list (str * V).

Fixpoint dict_get {V} (k : str) (d : dict V) : option V :=
  match d with
  | [] => None
  | (k', v) :: d' => if str_eqb k k' then Some v else dict_get k d'
  end.

(** [d[k] = v]: an existing key keeps its place. *)
Fixpoint dict_set {V} (k : str) (v : V) (d : dict V) : dict V :=
  match d with
  | [] => [(k, v)]
  | (k', v') :: d' =>
      if str_eqb k k' then (k', v) :: d' else (k', v') :: dict_set k v d'
  end.

Definition dict_has {V} (k : str) (d : dict V) : bool :=
  match dict_get k d with Some _ => true | None => false end.

Definition dict_keys {V} (d : dict V) : list str := map fst d.

(** [d.get(k, default)] *)
Definition get_or {V} (k : str) (default : V) (d : dict V) : V :=
  match dict_get k d with Some v => v | None => default end.

(* ================================================================= *)
(** * Regular expressions ([re]) *)

Module Re.

(** Pattern syntax.  Flags are resolved when a pattern is written down:
    [IGNORECASE] in the literals ([ilit]), [DOTALL] in [dot], [MULTILINE] in
    [Bol] and [Eol]. *)
Inductive regex : Type :=
| Eps
| Chr (f : ascii -> bool)          (* one character of a class *)
| Seq (r1 r2 : regex)              (* r1 r2 *)
| Alt (r1 r2 : regex)              (* r1 | r2 *)
| Star (greedy : bool) (r : regex) (* r*  and  r*? *)
| Grp (i : nat) (r : regex)        (* capture group number i *)
| Look (positive : bool) (r : regex) (* (?=r) and (?!r) *)
| Bol (multiline : bool)           (* ^ *)
| Eol (multiline : bool).          (* $ *)

(** A position in the subject: the text before it (reversed), the text after
    it, and the groups captured so far. *)
Record mstate := MState { before : str; after : str; groups : list (nat * str) }.

Definition at_bol (m : bool) (s : mstate) : bool :=
  match before s with
  | [] => true
  | c :: _ => m && Ascii.eqb c nl
  end.

Definition at_eol (m : bool) (s : mstate) : bool :=
  match after s with
  | [] => true
  | c :: t => Ascii.eqb c nl && (m || match t with [] => true | _ => false end)
  end.

(** The text between two positions of one subject. *)
Definition consumed (s0 s1 : mstate) : str :=
  firstn (length (after s0) - length (after s1)) (after s0).

Definition set_group (i : nat) (v : str) (s : mstate) : mstate :=
  MState (before s) (after s) ((i, v) :: groups s).

Definition advanced (s0 s1 : mstate) : bool :=
  Nat.ltb (length (after s1)) (length (after s0)).

(** The loop of a repetition: [m] matches the body once.  An iteration that
    consumed nothing is given up, so [S (length (after s))] iterations are
    never exceeded.  A greedy loop tries one more iteration before the
    continuation, a lazy one after it. *)
Fixpoint star_loop (g : bool)
  (m : mstate -> (mstate -> option mstate) -> option mstate)
  (k : mstate -> option mstate) (n : nat) (s : mstate) {struct n}
  : option mstate :=
  match n with
  | O => k s
  | S n' =>
      let more := fun _ : unit =>
        m s (fun s1 => if advanced s s1 then star_loop g m k n' s1 else None) in
      if g then
        match more tt with
        | Some e => Some e
        | None => k s
        end
      else
        match k s with
        | Some e => Some e
        | None => more tt
        end
  end.

(** Backtracking matcher: [bt r s k] is the first way, in the engine's order,
    of matching [r] at [s] such that the continuation [k] accepts the
    position reached. *)
Fixpoint bt (r : regex) (s : mstate) (k : mstate -> option mstate) {struct r}
  : option mstate :=
  match r with
  | Eps => k s
  | Chr f =>
      match after s with
      | c :: t => if f c then k (MState (c :: before s) t (groups s)) else None
      | [] => None
      end
  | Seq r1 r2 => bt r1 s (fun s1 => bt r2 s1 k)
  | Alt r1 r2 =>
      match bt r1 s k with
      | Some e => Some e
      | None => bt r2 s k
      end
  | Star g r1 => star_loop g (bt r1) k (S (length (after s))) s
  | Grp i r1 => bt r1 s (fun s1 => k (set_group i (consumed s s1) s1))
  | Look b r1 =>
      match bt r1 s Some with
      | Some s1 => if b then k (MState (before s) (after s) (groups s1)) else None
      | None => if b then None else k s
      end
  | Bol m => if at_bol m s then k s else None
  | Eol m => if at_eol m s then k s else None
  end.

(** Derived pattern forms *)
Definition plus (g : bool) (r : regex) : regex := Seq r (Star g r).
Definition opt (r : regex) : regex := Alt r Eps.
Fixpoint rep (n : nat) (r : regex) : regex :=
  match n with
  | O => Eps
  | S n' => Seq r (rep n' r)
  end.
Definition lit (c : ascii) : regex := Chr (Ascii.eqb c).
Definition ilit (c : ascii) : regex :=
  Chr (fun x => Ascii.eqb (lower_char x) (lower_char c)).
Fixpoint lits (s : str) : regex :=
  match s with
  | [] => Eps
  | [c] => lit c
  | c :: t => Seq (lit c) (lits t)
  end.
Fixpoint ilits (s : str) : regex :=
  match s with
  | [] => Eps
  | [c] => ilit c
  | c :: t => Seq (ilit c) (ilits t)
  end.
Definition dot (dotall : bool) : regex :=
  Chr (fun c => dotall || negb (Ascii.eqb c nl)).
(** [[abc]] and [[^abc]] *)
Definition one_of (s : str) : ascii -> bool :=
  fun c => existsb (Ascii.eqb c) s.
Definition none_of (s : str) : ascii -> bool :=
  fun c => negb (existsb (Ascii.eqb c) s).

(** [needs c r]: every match of [r] consumes the character [c] somewhere.
    A sufficient syntactic condition; a class is looked up on the 256 code
    points. *)
Definition all_chars : list ascii := map ascii_of_nat (seq 0 256).

Fixpoint needs (c : ascii) (r : regex) : bool :=
  match r with
  | Chr f => forallb (fun x => implb (f x) (Ascii.eqb x c)) all_chars
  | Seq r1 r2 => needs c r1 || needs c r2
  | Alt r1 r2 => needs c r1 && needs c r2
  | Grp _ r1 => needs c r1
  | _ => false
  end.

Declare Scope re_scope.
Delimit Scope re_scope with re.
Infix ">>" := Seq (at level 61, right associativity) : re_scope.
Infix "<|>" := Alt (at level 62, right associativity) : re_scope.
Notation "'\s'" := (Chr py_isspace) : re_scope.
Notation "'\d'" := (Chr py_isdecimal) : re_scope.
Notation "'\w'" := (Chr re_word) : re_scope.

(** One attempt at a position.  [must_advance] refuses the empty match, as
    the engine does directly after an empty match at the same place. *)
Definition match_here (r : regex) (must_advance : bool) (s : mstate)
  : option mstate :=
  bt r s (fun e => if must_advance && negb (advanced s e) then None else Some e).

(** Leftmost match at or after a position: start and end. *)
Fixpoint search_from (r : regex) (must_advance : bool) (b a : str)
  : option (mstate * mstate) :=
  let s := MState b a [] in
  match match_here r must_advance s with
  | Some e => Some (s, e)
  | None =>
      match a with
      | [] => None
      | c :: t => search_from r false (c :: b) t
      end
  end.

(** Successive non-overlapping matches, as [finditer], [findall], [sub] and
    [split] enumerate them. *)
Fixpoint finditer_from (fuel : nat) (r : regex) (must_advance : bool) (b a : str)
  : list (mstate * mstate) :=
  match fuel with
  | O => []
  | S fuel' =>
      match search_from r must_advance b a with
      | None => []
      | Some (s, e) =>
          (s, e) :: finditer_from fuel' r (negb (advanced s e)) (before e) (after e)
      end
  end.

Definition finditer (r : regex) (s : str) : list (mstate * mstate) :=
  finditer_from (2 * length s + 2) r false [] s.

(** [m.group(i)] for [i >= 1]; a group that took no part is empty here. *)
Definition group (i : nat) (e : mstate) : str :=
  match find (fun p => Nat.eqb (fst p) i) (groups e) with
  | Some p => snd p
  | None => []
  end.

(** [m.group(0)] *)
Definition group0 (m : mstate * mstate) : str := consumed (fst m) (snd m).

(** [re.search(r, s)] *)
Definition search (r : regex) (s : str) : option mstate :=
  option_map snd (search_from r false [] s).

(** [re.match(r, s)] *)
Definition match_ (r : regex) (s : str) : option mstate :=
  match_here r false (MState [] s []).

(** [re.findall(r, s)] for patterns with one and with two groups *)
Definition findall1 (r : regex) (s : str) : list str :=
  map (fun m => group 1 (snd m)) (finditer r s).
Definition findall2 (r : regex) (s : str) : list (str * str) :=
  map (fun m => (group 1 (snd m), group 2 (snd m))) (finditer r s).

(** The pieces of the subject between successive matches. *)
Fixpoint pieces (ms : list (mstate * mstate)) (rest : str) : list str * str :=
  match ms with
  | [] => ([], rest)
  | (s, e) :: ms' =>
      let p := firstn (length rest - length (after s)) rest in
      let (ps, tl) := pieces ms' (after e) in
      (p :: ps, tl)
  end.

(** The subject with every match of a list replaced. *)
Definition replaced (repl : str) (ms : list (mstate * mstate)) (s : str) : str :=
  let (ps, tl) := pieces ms s in
  flat_map (fun p => p ++ repl) ps ++ tl.

(** [re.sub(r, repl, s)] for a replacement without group references *)
Definition sub (r : regex) (repl : str) (s : str) : str :=
  replaced repl (finditer r s) s.

(** [re.split(r, s)] for a pattern without groups *)
Definition split (r : regex) (s : str) : list str :=
  let (ps, tl) := pieces (finditer r s) s in
  ps ++ [tl].

End Re.

(* ================================================================= *)
(** * [hashlib.md5] and [str.encode] *)

Module MD5.
Local Open Scope Z_scope.

(** 32-bit words are integers reduced modulo 2^32. *)
Definition w32 (x : Z) : Z := x mod 4294967296.
Definition not32 (x : Z) : Z := Z.lxor x 4294967295.
Definition rotl32 (x c : Z) : Z :=
  w32 (Z.lor (Z.shiftl x c) (Z.shiftr x (32 - c))).

Definition shifts : list Z :=
  [7; 12; 17; 22; 7; 12; 17; 22; 7; 12; 17; 22; 7; 12; 17; 22;
   5; 9; 14; 20; 5; 9; 14; 20; 5; 9; 14; 20; 5; 9; 14; 20;
   4; 11; 16; 23; 4; 11; 16; 23; 4; 11; 16; 23; 4; 11; 16; 23;
   6; 10; 15; 21; 6; 10; 15; 21; 6; 10; 15; 21; 6; 10; 15; 21].

Definition K : list Z :=
  [0xd76aa478; 0xe8c7b756; 0x242070db; 0xc1bdceee; 0xf57c0faf; 0x4787c62a;
   0xa8304613; 0xfd469501; 0x698098d8; 0x8b44f7af; 0xffff5bb1; 0x895cd7be;
   0x6b901122; 0xfd987193; 0xa679438e; 0x49b40821; 0xf61e2562; 0xc040b340;
   0x265e5a51; 0xe9b6c7aa; 0xd62f105d; 0x02441453; 0xd8a1e681; 0xe7d3fbc8;
   0x21e1cde6; 0xc33707d6; 0xf4d50d87; 0x455a14ed; 0xa9e3e905; 0xfcefa3f8;
   0x676f02d9; 0x8d2a4c8a; 0xfffa3942; 0x8771f681; 0x6d9d6122; 0xfde5380c;
   0xa4beea44; 0x4bdecfa9; 0xf6bb4b60; 0xbebfbc70; 0x289b7ec6; 0xeaa127fa;
   0xd4ef3085; 0x04881d05; 0xd9d4d039; 0xe6db99e5; 0x1fa27cf8; 0xc4ac5665;
   0xf4292244; 0x432aff97; 0xab9423a7; 0xfc93a039; 0x655b59c3; 0x8f0ccc92;
   0xffeff47d; 0x85845dd1; 0x6fa87e4f; 0xfe2ce6e0; 0xa3014314; 0x4e0811a1;
   0xf7537e82; 0xbd3af235; 0x2ad7d2bb; 0xeb86d391].

(** Little-endian bytes of a word, and back. *)
Fixpoint le_bytes (n : nat) (x : Z) : list Z :=
  match n with
  | O => []
  | S n' => (x mod 256) :: le_bytes n' (x / 256)
  end.
Fixpoint le_word (bs : list Z) : Z :=
  match bs with
  | [] => 0
  | b :: t => b + 256 * le_word t
  end.

(** The message followed by 0x80, zeros up to 56 modulo 64, and the length in
    bits on 8 bytes. *)
Definition pad (msg : list Z) : list Z :=
  let len := Z.of_nat (length msg) in
  msg ++ [128] ++ repeat 0 (Z.to_nat ((55 - len) mod 64)) ++ le_bytes 8 (8 * len).

Fixpoint chunks (n : nat) (size : nat) (l : list Z) : list (list Z) :=
  match n with
  | O => []
  | S n' => firstn size l :: chunks n' size (skipn size l)
  end.

Definition words (block : list Z) : list Z :=
  map le_word (chunks 16 4 block).

Definition state : Type := Z * Z * Z * Z.

Definition round (M : list Z) (st : state) (i : nat) : state :=
  let '(a, b, c, d) := st in
  let iz := Z.of_nat i in
  let '(f, g) :=
    if iz <? 16 then (Z.lor (Z.land b c) (Z.land (not32 b) d), iz)
    else if iz <? 32 then (Z.lor (Z.land d b) (Z.land (not32 d) c), (5 * iz + 1) mod 16)
    else if iz <? 48 then (Z.lxor (Z.lxor b c) d, (3 * iz + 5) mod 16)
    else (Z.lxor c (Z.lor b (not32 d)), (7 * iz) mod 16) in
  let f' := w32 (f + a + nth i K 0 + nth (Z.to_nat g) M 0) in
  (d, w32 (b + rotl32 f' (nth i shifts 0)), b, c).

Definition compress (st : state) (block : list Z) : state :=
  let '(a0, b0, c0, d0) := st in
  let '(a, b, c, d) := fold_left (round (words block)) (seq 0 64) st in
  (w32 (a0 + a), w32 (b0 + b), w32 (c0 + c), w32 (d0 + d)).

Definition init : state := (0x67452301, 0xefcdab89, 0x98badcfe, 0x10325476).

Definition digest (msg : list Z) : list Z :=
  let p := pad msg in
  let '(a, b, c, d) := fold_left compress (chunks (length p / 64) 64 p) init in
  le_bytes 4 a ++ le_bytes 4 b ++ le_bytes 4 c ++ le_bytes 4 d.

Definition hex_digit (x : Z) : ascii :=
  nth (Z.to_nat x) (L "0123456789abcdef") "0"%char.

(** [hashlib.md5(msg).hexdigest()] *)
Definition hexdigest (msg : list Z) : str :=
  flat_map (fun b => [hex_digit (b / 16); hex_digit (b mod 16)]) (digest msg).

End MD5.

(** [s.encode()]: UTF-8 *)
Definition encode (s : str) : list Z :=
  flat_map (fun c =>
    let n := Z.of_N (cp c) in
    if (n <? 128)%Z then [n] else [(192 + n / 64)%Z; (128 + n mod 64)%Z]) s.

(* ================================================================= *)
(** * [pathlib] (POSIX flavour) *)

Module PathLib.

(** The components of a path: empty and ["."] components are dropped. *)
Definition parts (p : str) : list str :=
  filter (fun c => negb (str_eqb c []) && negb (str_eqb c (L ".")))
         (split_on "/"%char p).

(** [Path(p).name]: the final component, empty when there is none. *)
Definition name (p : str) : str := last (parts p) [].

(** [Path(p).stem]: the name without its last suffix; a leading dot or a
    trailing dot starts no suffix. *)
Definition stem_of_name (n : str) : str :=
  match rfind_char "."%char n with
  | Some i => if (0 <? i) && (i <? length n - 1) then firstn i n else n
  | None => n
  end.

Definition stem (p : str) : str := stem_of_name (name p).

(** A directory listing: the files below a directory, each with its
    components relative to that directory and its text ([None] when the file
    cannot be opened or decoded), in the order the system lists them. *)
Definition tree := list (list str * option str).

(** [fnmatch] of one component against a pattern with [*] and [?]. *)
Fixpoint fnmatch (fuel : nat) (pat : str) (s : str) : bool :=
  match fuel with
  | O => false
  | S fuel' =>
      match pat with
      | [] => match s with [] => true | _ => false end
      | p :: pat' =>
          if Ascii.eqb p "*"%char then
            fnmatch fuel' pat' s ||
            match s with
            | [] => false
            | _ :: s' => fnmatch fuel' pat s'
            end
          else
            match s with
            | [] => false
            | c :: s' =>
                (Ascii.eqb p "?"%char || Ascii.eqb p c) && fnmatch fuel' pat' s'
            end
      end
  end.

Definition name_matches (pat : str) (n : str) : bool :=
  fnmatch (S (length pat + length n)) pat n.

(** [dir.glob(pat)] for a pattern without a separator: the entries directly
    in the directory whose name matches. *)
Definition glob (pat : str) (t : tree) : tree :=
  filter (fun f => match fst f with
                   | [n] => name_matches pat n
                   | _ => false
                   end) t.

(** [dir.glob("**/" + pat)]: the entries at any depth, the directory itself
    included, whose name matches. *)
Definition rglob (pat : str) (t : tree) : tree :=
  filter (fun f => match fst f with
                   | [] => false
                   | _ => name_matches pat (last (fst f) [])
                   end) t.

(** The root of a path: two leading slashes are kept, three or more are one. *)
Definition root (p : str) : str :=
  if startswith (L "//") p && negb (startswith (L "///") p) then L "//"
  else if startswith (L "/") p then L "/"
  else [].

Definition to_str (root : str) (parts : list str) : str :=
  match root, parts with
  | [], [] => L "."
  | _, _ => root ++ join (L "/") parts
  end.

(** [str(Path(p))] *)
Definition normalize (p : str) : str := to_str (root p) (parts p).

(** [str(Path(p) / c1 / ... / cn)] for plain components *)
Definition child (p : str) (comps : list str) : str :=
  to_str (root p) (parts p ++ comps).

End PathLib.

(* ================================================================= *)
(** * [layer1_extractor]: normalisation utilities *)

Import Re.
Local Open Scope re_scope.

(** [normalize_tag]
<<
    tag = tag.strip().lower()
    tag = re.sub(r'\s+', '-', tag)
    tag = re.sub(r'[^\w\-]', '', tag)
>> *)
Definition normalize_tag (tag : str) : str :=
  let tag := lower (strip tag) in
  let tag := Re.sub (plus true \s) (L "-") tag in
  let tag := Re.sub (Chr (fun c => negb (re_word c || Ascii.eqb c "-"%char))) [] tag in
  tag.

(** ** The normaliser of the specification

    Written after the words of the specification, to be compared with
    [normalize_tag]: the token lowercased, internal whitespace runs collapsed
    to single hyphens, and every character outside [[A-Za-z0-9_-]] removed. *)

Definition spec_allowed (c : ascii) : bool :=
  in_range 65 90 c || in_range 97 122 c || in_range 48 57 c
  || Ascii.eqb c "_"%char || Ascii.eqb c "-"%char.

(** Every whitespace run replaced by one hyphen. *)
Fixpoint collapse_ws (s : str) : str :=
  match s with
  | [] => []
  | c :: t =>
      if py_isspace c then
        match t with
        | c' :: _ => if py_isspace c' then collapse_ws t else "-"%char :: collapse_ws t
        | [] => ["-"%char]
        end
      else c :: collapse_ws t
  end.

Definition leading_ws (s : str) : str :=
  firstn (length s - length (lstrip_by py_isspace s)) s.

Definition trailing_ws (s : str) : str := rev (leading_ws (rev s)).

(** Only the runs with text on both sides are internal: the whitespace that
    starts or ends the token stays as it is. *)
Definition collapse_internal (s : str) : str :=
  match strip s with
  | [] => s
  | core => leading_ws s ++ collapse_ws core ++ trailing_ws s
  end.

Definition normalize_spec (token : str) : str :=
  filter spec_allowed (collapse_internal (lower token)).

(** The characters that [normalize_tag] keeps: [[\w\-]]. *)
Definition code_allowed (c : ascii) : bool := re_word c || Ascii.eqb c "-"%char.

(** Tokens whose alphanumeric characters are all ASCII. *)
Definition ascii_alnum_only (token : str) : bool :=
  forallb (fun c => is_ascii c || negb (py_isalnum c)) token.

(** [deduplicate_list] on a list of strings *)
Fixpoint deduplicate_from (seen : list str) (items : list str) : list str :=
  match items with
  | [] => []
  | item :: rest =>
      let normalized := strip (lower item) in
      if existsb (str_eqb normalized) seen then deduplicate_from seen rest
      else item :: deduplicate_from (normalized :: seen) rest
  end.

Definition deduplicate_list (items : list str) : list str :=
  deduplicate_from [] items.

(** [generate_doc_id]
<<
    filename = Path(source_path).stem
    content_hash = hashlib.md5(content.encode()).hexdigest()[:8]
    return f"{filename}_{content_hash}"
>> *)
Definition generate_doc_id (source_path content : str) : str :=
  let filename := PathLib.stem source_path in
  let content_hash := firstn 8 (MD5.hexdigest (encode content)) in
  filename ++ L "_" ++ content_hash.

(* ================================================================= *)
(** * [layer1_extractor]: section detection and parsing *)

Inductive format : Type := Full | Quick | Legacy.

Definition format_str (f : format) : str :=
  match f with
  | Full => L "full"
  | Quick => L "quick"
  | Legacy => L "legacy"
  end.

Module SectionParser.

(** [Section\s*X[:.]?], under [re.IGNORECASE] *)
Definition section_letter (x : ascii) : regex :=
  ilits (L "Section") >> Star true \s >> ilit x >> opt (Chr (one_of (L ":."))).

(** [^##\s*] *)
Definition h2 : regex := Bol false >> lits (L "##") >> Star true \s.

(** [FULL_SECTION_PATTERNS], in the order of the dictionary; every pattern is
    used with [re.IGNORECASE]. *)
Definition FULL_SECTION_PATTERNS : list (str * regex) :=
  [ (* ^#\s*(?:Section\s*A[:.]?|SR-PTD|Task Doc).*?(?:Header|Skill Trigger) *)
    (L "header",
     Bol false >> lit "#" >> Star true \s
     >> (section_letter "A" <|> ilits (L "SR-PTD") <|> ilits (L "Task Doc"))
     >> Star false (dot false)
     >> (ilits (L "Header") <|> ilits (L "Skill Trigger")));
    (* ^(?:##\s*(?:Section\s*B[:.]?|Context|Inputs)|##\s*Problem Statement) *)
    (L "context",
     Bol false
     >> ((lits (L "##") >> Star true \s
          >> (section_letter "B" <|> ilits (L "Context") <|> ilits (L "Inputs")))
         <|> (lits (L "##") >> Star true \s >> ilits (L "Problem Statement"))));
    (* ^##\s*(?:Section\s*C[:.]?|Workflow|Work Performed) *)
    (L "workflow",
     h2 >> (section_letter "C" <|> ilits (L "Workflow") <|> ilits (L "Work Performed")));
    (* ^##\s*(?:Section\s*D[:.]?|Knowledge|Knowledge Used|Knowledge Accessed) *)
    (L "knowledge",
     h2 >> (section_letter "D" <|> ilits (L "Knowledge") <|> ilits (L "Knowledge Used")
            <|> ilits (L "Knowledge Accessed")));
    (* ^##\s*(?:Section\s*E[:.]?|Code|Code Written) *)
    (L "code",
     h2 >> (section_letter "E" <|> ilits (L "Code") <|> ilits (L "Code Written")));
    (* ^##\s*(?:Section\s*F[:.]?|Output|Artifacts|Files) *)
    (L "outputs",
     h2 >> (section_letter "F" <|> ilits (L "Output") <|> ilits (L "Artifacts")
            <|> ilits (L "Files")));
    (* ^##\s*(?:Section\s*G[:.]?|Issue|Issues|Problems) *)
    (L "issues",
     h2 >> (section_letter "G" <|> ilits (L "Issue") <|> ilits (L "Issues")
            <|> ilits (L "Problems")));
    (* ^##\s*(?:Section\s*H[:.]?|Verification|Validation|Test) *)
    (L "verification",
     h2 >> (section_letter "H" <|> ilits (L "Verification") <|> ilits (L "Validation")
            <|> ilits (L "Test")));
    (* ^##\s*(?:Section\s*I[:.]?|Skill.*Assessment|Reusability) *)
    (L "skill_assessment",
     h2 >> (section_letter "I"
            <|> (ilits (L "Skill") >> Star true (dot false) >> ilits (L "Assessment"))
            <|> ilits (L "Reusability")));
    (* ^##\s*(?:Section\s*J[:.]?|Tags) *)
    (L "tags",
     h2 >> (section_letter "J" <|> ilits (L "Tags"))) ].

(** [QUICK_SECTION_PATTERNS]: [^##\s*Trigger] and so on *)
Definition QUICK_SECTION_PATTERNS : list (str * regex) :=
  [ (L "trigger", h2 >> ilits (L "Trigger"));
    (L "workflow", h2 >> ilits (L "Workflow"));
    (L "decisions", h2 >> ilits (L "Key Decisions"));
    (L "knowledge", h2 >> ilits (L "Knowledge"));
    (L "code", h2 >> ilits (L "Code"));
    (L "outputs", h2 >> ilits (L "Output"));
    (L "issues", h2 >> ilits (L "Issues"));
    (L "skill_potential", h2 >> ilits (L "Skill Potential"));
    (L "tags", h2 >> ilits (L "Tags")) ].

(** [self.lines = content.split('\n')] *)
Definition lines (content : str) : list str := split_on nl content.

(** [_detect_format] *)
Definition _detect_format (content : str) : format :=
  let content_lower := lower content in
  if contains (L "section a") content_lower
     || contains (L "skill trigger profile") content_lower
  then Full
  else if (contains (L "| **type**:") content_lower
           || contains (L "**date**:") (firstn 500 content))
          && (contains (L "## trigger") content_lower
              && contains (L "## workflow") content_lower)
  then Quick
  else if contains (L "task doc") content_lower
          || contains (L "- **date**:") (firstn 200 content)
  then Legacy
  else Quick.

(** [_match_section_header]: the first pattern of the dialect's table that
    matches at the start of the line. *)
Fixpoint first_match (patterns : list (str * regex)) (line : str) : option str :=
  match patterns with
  | [] => None
  | (section_name, pattern) :: rest =>
      match Re.match_ pattern line with
      | Some _ => Some section_name
      | None => first_match rest line
      end
  end.

Definition _match_section_header (fmt : format) (line : str) : option str :=
  let patterns := match fmt with
                  | Full => FULL_SECTION_PATTERNS
                  | _ => QUICK_SECTION_PATTERNS
                  end in
  first_match patterns line.

(** The state of the loop of [extract_sections]. *)
Record split_state := SplitState {
  sections : dict str;
  current_section : str;
  current_content : list str }.

(** [sections[current_section] = '\n'.join(current_content).strip()], done
    only [if current_content]. *)
Definition save (st : split_state) : dict str :=
  match current_content st with
  | [] => sections st
  | _ => dict_set (current_section st) (strip (join [nl] (current_content st)))
                  (sections st)
  end.

Definition step (fmt : format) (st : split_state) (line : str) : split_state :=
  match _match_section_header fmt line with
  | Some section_match => SplitState (save st) section_match [line]
  | None => SplitState (sections st) (current_section st) (current_content st ++ [line])
  end.

(** [extract_sections] *)
Definition extract_sections_as (fmt : format) (content : str) : dict str :=
  save (fold_left (step fmt) (lines content) (SplitState [] (L "header") [])).

Definition extract_sections (content : str) : dict str :=
  extract_sections_as (_detect_format content) content.

(** The two conditions of the specification's property on full documents: a
    full-dialect section marker is found by the marker scan, and some line is
    a [##] heading of the full dialect. *)
Definition full_marker (content : str) : bool :=
  contains (L "section a") (lower content)
  || contains (L "skill trigger profile") (lower content).

Definition other_heading (line : str) : bool :=
  match _match_section_header Full line with
  | Some section_name => negb (str_eqb section_name (L "header"))
  | None => false
  end.

Definition subsection_marker (content : str) : bool :=
  existsb other_heading (lines content).

(** Two full-dialect documents.  The second starts with the heading of its
    context section. *)
Definition full_document : str :=
  L "# Section A: Header and Skill Trigger Profile" ++ [nl]
  ++ L "**Date**: 2024-01-01" ++ [nl]
  ++ L "## Section C: Workflow" ++ [nl]
  ++ L "1. Read file" ++ [nl]
  ++ L "## Section J: Tags" ++ [nl]
  ++ L "Languages: Python".

Definition headless_document : str :=
  L "## Section B: Context" ++ [nl]
  ++ L "### Background" ++ [nl]
  ++ L "Continues the work described in Section A of the previous report.".

End SectionParser.

(* ================================================================= *)
(** * [layer1_extractor]: content extractors

    The records keep the fields that the warning list, the batch results and
    the document cards read. *)

Record Metadata := {
  date : option str;
  task_type : option str;
  domain : option str;
  complexity : option str;
  time_spent : option str;
  repo_branch : option str }.

Record Trigger := { what_triggered : option str }.

Record ContextInputs := { objective : option str; requirements : option str }.

(** [high_level_steps] and [detailed_step_log] are the two projections of
    [steps]: the texts, and the numbers with the texts. *)
Record Workflow := {
  workflow_type : option str;
  steps : list (N * str) }.

Definition high_level_steps (wf : Workflow) : list str := map snd (steps wf).

Record CodeBlock := {
  language : option str;
  code : str;
  heading : option str;
  reuse_flag : bool }.

Record Tags := {
  languages : list str;
  frameworks : list str;
  tools : list str;
  domains : list str;
  patterns : list str;
  services : list str }.

(** [sorted(xs, key=lambda x: x[0])]: a stable sort on the first component. *)
Fixpoint insert_by_key (x : N * str) (l : list (N * str)) : list (N * str) :=
  match l with
  | [] => [x]
  | y :: t => if (fst x <=? fst y)%N then x :: l else y :: insert_by_key x t
  end.

Definition sorted_by_key (l : list (N * str)) : list (N * str) :=
  fold_right insert_by_key [] l.


Definition step_eq_dec (a b : N * str) : {a = b} + {a <> b}.
Proof. decide equality; [apply (list_eq_dec ascii_dec) | apply N.eq_dec]. Defined.

(** [m.group(1)] of [re.search(r, s)], if there is a match *)
Definition search1 (r : regex) (s : str) : option str :=
  option_map (group 1) (Re.search r s).

(** [x if x is set else y] on optional fields *)
Definition or_else {A} (x y : option A) : option A :=
  match x with Some _ => x | None => y end.

Module ContentExtractor.

(** [\s*(\d{4}-\d{2}-\d{2})] *)
Definition iso_date : regex :=
  Star true \s >> Grp 1 (rep 4 \d >> lit "-" >> rep 2 \d >> lit "-" >> rep 2 \d).

(** [\s*([^\n]+)] *)
Definition rest_of_line : regex :=
  Star true \s >> Grp 1 (plus true (Chr (none_of [nl]))).

(** [\s*([^|*\n]+)] *)
Definition cell : regex :=
  Star true \s >> Grp 1 (plus true (Chr (none_of (L "|*" ++ [nl])))).

(** [extract_metadata_from_header] *)
Definition extract_metadata_from_header (content : str) : Metadata :=
  (* \*\*Date\*\*:\s*(\d{4}-\d{2}-\d{2}) *)
  let inline := search1 (lits (L "**Date**:") >> iso_date) content in
  (* -\s*\*\*Date\*\*:\s*(\d{4}-\d{2}-\d{2}), used when the date is unset *)
  let bullet := search1 (lit "-" >> Star true \s >> lits (L "**Date**:") >> iso_date)
                        content in
  {| date := if truthy inline then inline else or_else bullet inline;
     (* \*\*Type\*\*:\s*([^|*\n]+) *)
     task_type := option_map strip (search1 (lits (L "**Type**:") >> cell) content);
     (* \*\*Domain(?:/Module)?\*\*:\s*([^|*\n]+) *)
     domain := option_map strip
       (search1 (lits (L "**Domain") >> opt (lits (L "/Module")) >> lits (L "**:") >> cell)
                content);
     (* \*\*Complexity\*\*:\s*(\w+) *)
     complexity := option_map strip
       (search1 (lits (L "**Complexity**:") >> Star true \s >> Grp 1 (plus true \w))
                content);
     (* \*\*Time Spent\*\*:\s*([^\n]+) *)
     time_spent := option_map strip
       (search1 (lits (L "**Time Spent**:") >> rest_of_line) content);
     (* \*\*Repo/Branch(?:/PR/Commits)?\*\*:\s*([^\n]+) *)
     repo_branch := option_map strip
       (search1 (lits (L "**Repo/Branch") >> opt (lits (L "/PR/Commits"))
                 >> lits (L "**:") >> rest_of_line) content) |}.

(** [>\s*(.+?)(?=\n(?!>)|$)] with [re.DOTALL] *)
Definition quote_pattern : regex :=
  lit ">" >> Star true \s >> Grp 1 (plus false (dot true))
  >> Look true ((lit nl >> Look false (lit ">")) <|> Eol false).

(** [\*\*What triggered[^*]*\*\*[:\s]*\n?>?\s*(.+?)(?=\n\n|\n\*\*|$)] with
    [re.IGNORECASE | re.DOTALL] *)
Definition triggered_pattern : regex :=
  lits (L "**") >> ilits (L "What triggered") >> Star true (Chr (none_of (L "*")))
  >> lits (L "**") >> Star true (Chr (fun c => Ascii.eqb c ":" || py_isspace c))
  >> opt (lit nl) >> opt (lit ">") >> Star true \s
  >> Grp 1 (plus false (dot true))
  >> Look true (lits [nl; nl] <|> (lit nl >> lits (L "**")) <|> Eol false).

(** [extract_trigger], the field [what_triggered] *)
Definition extract_trigger (content : str) : Trigger :=
  let quotes := Re.findall1 quote_pattern content in
  let quoted := match quotes with
                | [] => None
                | _ => Some (join (L " ") (map strip quotes))
                end in
  {| what_triggered :=
       match search1 triggered_pattern content with
       | Some g => Some (lstrip_by (one_of (L "> ")) (strip g))
       | None => quoted
       end |}.

(** [extract_context], the fields [objective] and [requirements] *)
Definition extract_context (content : str) : ContextInputs :=
  {| (* \*\*Objective\*\*:\s*([^\n]+) *)
     objective := option_map strip
       (search1 (lits (L "**Objective**:") >> rest_of_line) content);
     (* \*\*Requirements?(?:/Problem)?\*\*:\s*([^\n]+) *)
     requirements := option_map strip
       (search1 (lits (L "**Requirement") >> opt (lit "s") >> opt (lits (L "/Problem"))
                 >> lits (L "**:") >> rest_of_line) content) |}.

(** [```(\w* )\n(.*?)```] with [re.DOTALL] *)
Definition code_pattern : regex :=
  lits (L "```") >> Grp 1 (Star true \w) >> lit nl
  >> Grp 2 (Star false (dot true)) >> lits (L "```").

(** [\[x\]\s*(?:Definitely|Likely)\s*reusable|reusable|should.*become.*skill.*\[x\]]
    with [re.IGNORECASE] *)
Definition reuse_pattern : regex :=
  (lit "[" >> ilit "x" >> lit "]" >> Star true \s
   >> (ilits (L "Definitely") <|> ilits (L "Likely")) >> Star true \s
   >> ilits (L "reusable"))
  <|> ilits (L "reusable")
  <|> (ilits (L "should") >> Star true (dot false) >> ilits (L "become")
       >> Star true (dot false) >> ilits (L "skill") >> Star true (dot false)
       >> lit "[" >> ilit "x" >> lit "]").

Record blocks_state := BlocksState {
  current_heading : option str;
  matches : list (str * str);
  blocks : list CodeBlock }.

Fixpoint remove_first (m : str * str) (l : list (str * str)) : list (str * str) :=
  match l with
  | [] => []
  | x :: t =>
      if str_eqb (fst x) (fst m) && str_eqb (snd x) (snd m) then t
      else x :: remove_first m t
  end.

(** One line of the loop of [extract_code_blocks]. *)
Definition blocks_step (content : str) (st : blocks_state) (line : str)
  : blocks_state :=
  if startswith (L "###") line then
    BlocksState (Some (strip (lstrip_by (Ascii.eqb "#") line))) (matches st) (blocks st)
  else if startswith (L "```") line then
    let at_line := py_find line content in
    match find (fun m : str * str => contains (strip (snd m)) (slice_from at_line content))
               (matches st) with
    | Some (lang, code) =>
        let context_start := Z.max 0 (at_line - 500) in
        let context :=
          slice context_start (at_line + Z.of_nat (length code) + 500) content in
        let block :=
          {| language := match lang with [] => None | _ => Some lang end;
             code := strip code;
             heading := current_heading st;
             reuse_flag := match Re.search reuse_pattern context with
                           | Some _ => true
                           | None => false
                           end |} in
        BlocksState (current_heading st) (remove_first (lang, code) (matches st))
                    (blocks st ++ [block])
    | None => st
    end
  else st.

(** [extract_code_blocks] *)
Definition extract_code_blocks (content : str) : list CodeBlock :=
  blocks (fold_left (blocks_step content) (split_on nl content)
                    (BlocksState None (Re.findall2 code_pattern content) [])).

(** [(?:\*\* )?] *)
Definition bold : regex := opt (lits (L "**")).

(** [(?:\*\* )?:\s*([^|\n]+)]: the end of every tag pattern *)
Definition tag_value : regex :=
  bold >> lit ":" >> Star true \s >> Grp 1 (plus true (Chr (none_of (L "|" ++ [nl])))).

(** [(?:\*\* )?Languages?(?:\*\* )?:\s*([^|\n]+)] and the five others, all
    with [re.IGNORECASE] *)
Definition lang_pattern : regex :=
  bold >> ilits (L "Language") >> opt (ilit "s") >> tag_value.
Definition fw_pattern : regex :=
  bold >> ilits (L "Framework") >> opt (ilit "s")
  >> opt (lit "/" >> ilits (L "Lib") >> opt (ilit "s")) >> tag_value.
Definition domain_pattern : regex :=
  bold >> ilits (L "Domain") >> opt (ilit "s") >> tag_value.
Definition services_pattern : regex :=
  bold >> opt (ilits (L "External") >> Star true \s)
  >> ilits (L "Service") >> opt (ilit "s") >> tag_value.
Definition pattern_pattern : regex :=
  bold >> ilits (L "Pattern") >> opt (ilit "s") >> tag_value.
Definition tools_pattern : regex :=
  bold >> ((ilits (L "Tool") >> opt (ilit "s")) <|> ilits (L "Operational")) >> tag_value.

(** [[normalize_tag(t) for t in re.split(r'[,;]', m.group(1)) if keep(t)]],
    the empty list when the pattern has no match *)
Definition tag_list (keep : str -> bool) (pattern : regex) (content : str) : list str :=
  match search1 pattern content with
  | Some g => map normalize_tag (filter keep (Re.split (Chr (one_of (L ",;"))) g))
  | None => []
  end.

Definition nonblank (t : str) : bool :=
  match strip t with [] => false | _ => true end.

(** [extract_tags] *)
Definition extract_tags (content : str) : Tags :=
  {| languages := deduplicate_list (tag_list nonblank lang_pattern content);
     frameworks := deduplicate_list (tag_list nonblank fw_pattern content);
     domains := deduplicate_list (tag_list nonblank domain_pattern content);
     services := deduplicate_list
       (tag_list (fun t => nonblank t && negb (str_eqb (lower (strip t)) (L "none")))
                 services_pattern content);
     patterns := deduplicate_list (tag_list nonblank pattern_pattern content);
     tools := deduplicate_list (tag_list nonblank tools_pattern content) |}.

Section Workflow.

(** The order in which a [set] of (number, text) pairs built from a list is
    iterated.  It lists every distinct element once (hypothesis of the
    results that need it); the order itself is the interpreter's. *)
Variable set_iter : list (N * str) -> list (N * str).

(** [^\s*(\d+)\.\s+(.+?)(?=\n\s*\d+\.|$)] with [re.MULTILINE | re.DOTALL] *)
Definition pattern1 : regex :=
  Bol true >> Star true \s >> Grp 1 (plus true \d) >> lit "." >> plus true \s
  >> Grp 2 (plus false (dot true))
  >> Look true ((lit nl >> Star true \s >> plus true \d >> lit ".") <|> Eol true).

(** [^(\d+)\.\s*(.+)$] with [re.MULTILINE] *)
Definition pattern2 : regex :=
  Bol true >> Grp 1 (plus true \d) >> lit "." >> Star true \s
  >> Grp 2 (plus true (dot false)) >> Eol true.

(** The steps kept from the first pattern: the first line of the text,
    stripped, unless it is empty or starts a sub-bullet. *)
Definition strict_steps (content : str) : list (N * str) :=
  flat_map (fun m : str * str =>
    let (num, text) := m in
    let clean_text := strip (hd [] (split_on nl text)) in
    match clean_text with
    | [] => []
    | _ => if startswith (L "-") clean_text then []
           else [(int_of_digits num, clean_text)]
    end) (Re.findall2 pattern1 content).

Definition loose_steps (content : str) : list (N * str) :=
  map (fun m : str * str => (int_of_digits (fst m), strip (snd m)))
      (Re.findall2 pattern2 content).

(** [extract_workflow], the workflow type and the steps *)
Definition extract_workflow (content : str) : Workflow :=
  let steps := strict_steps content in
  let steps := match steps with
               | [] => loose_steps content
               | _ => steps
               end in
  let steps := sorted_by_key (set_iter steps) in
  {| (* \*\*Workflow Type\*\*:\s*(\w+) with re.IGNORECASE *)
     workflow_type :=
       search1 (lits (L "**") >> ilits (L "Workflow Type") >> lits (L "**:")
                >> Star true \s >> Grp 1 (plus true \w)) content;
     steps := filter (fun st => match snd st with [] => false | _ => true end) steps |}.

End Workflow.


(** A numbered item that is a sub-bullet: the strict pattern matches it and
    its text is then dropped. *)
Definition sub_bullet_workflow : str := L "1. - install the dependencies".

End ContentExtractor.

(* ================================================================= *)
(** * [layer1_extractor]: the document composer and the batch loop *)

Record SRPTDExtraction := {
  doc_id : str;
  source_path : str;
  format_detected : format;
  metadata : Metadata;
  trigger : Trigger;
  context_inputs : ContextInputs;
  workflow : Workflow;
  code_written : list CodeBlock;
  tags : Tags;
  raw_sections : dict str;
  parse_warnings : list str }.

Module SRPTDExtractor.

(** [_generate_warnings], on the fields it reads *)
Definition _generate_warnings
  (metadata : Metadata) (trigger : Trigger) (workflow : Workflow)
  (blocks : list CodeBlock) (tags : Tags) : list str :=
  (if truthy (date metadata) then [] else [L "Missing: metadata.date"])
  ++ (if truthy (what_triggered trigger) then []
      else [L "Missing: trigger.what_triggered"])
  ++ (match high_level_steps workflow with
      | [] => [L "Missing: workflow.high_level_steps"]
      | _ => []
      end)
  ++ (match blocks with
      | [] => [L "Empty: code_written.blocks"]
      | _ => []
      end)
  ++ (match languages tags with
      | [] => [L "Missing: tags.languages"]
      | _ => []
      end)
  ++ (match domains tags with
      | [] => [L "Missing: tags.domains"]
      | _ => []
      end).

(** Merge of the blocks of the code section and of the whole document: a
    block whose code has an MD5 digest seen before is dropped. *)
Fixpoint merge_blocks (seen_codes : list str) (bs : list CodeBlock) : list CodeBlock :=
  match bs with
  | [] => []
  | block :: rest =>
      let code_hash := MD5.hexdigest (encode (code block)) in
      if existsb (str_eqb code_hash) seen_codes then merge_blocks seen_codes rest
      else block :: merge_blocks (code_hash :: seen_codes) rest
  end.

(** The text given to [extract_tags]: the tags section, a newline, and the
    last 1000 characters of the document. *)
Definition tags_content (sections : dict str) (content : str) : str :=
  get_or (L "tags") [] sections ++ [nl] ++ last_n 1000 content.

(** The text given to [extract_workflow]. *)
Definition workflow_content (fmt : format) (sections : dict str) : str :=
  let workflow_content := get_or (L "workflow") [] sections in
  let workflow_content :=
    match workflow_content with
    | [] =>
        match find (fun kv : str * str =>
                      contains (L "work") (lower (fst kv))
                      || contains (L "step") (lower (fst kv))) sections with
        | Some kv => snd kv
        | None => []
        end
    | _ => workflow_content
    end in
  match workflow_content, fmt with
  | [], Legacy =>
      let header_raw := get_or (L "header") [] sections in
      if contains (L "1. ") header_raw then header_raw else []
  | _, _ => workflow_content
  end.

(** No tag label in a text: none of the six patterns of [extract_tags] has
    a match. *)
Definition no_tag_label (text : str) : bool :=
  forallb (fun p => match Re.search p text with
                    | None => true
                    | Some _ => false
                    end)
          [ ContentExtractor.lang_pattern; ContentExtractor.fw_pattern;
            ContentExtractor.domain_pattern; ContentExtractor.services_pattern;
            ContentExtractor.pattern_pattern; ContentExtractor.tools_pattern ].

(** A tags section is empty when the document has none or when it consists
    of its heading line alone. *)
Definition empty_tags_section (content : str) : bool :=
  match dict_get (L "tags") (SectionParser.extract_sections content) with
  | None => true
  | Some text => negb (contains [nl] text)
  end.

Definition all_tags_empty (t : Tags) : Prop :=
  languages t = [] /\ frameworks t = [] /\ tools t = [] /\
  domains t = [] /\ patterns t = [] /\ services t = [].

Section Extract.

Variable set_iter : list (N * str) -> list (N * str).

(** [extract], for a document that was loaded *)
Definition extract (path : str) (content : str) : SRPTDExtraction :=
  let source := PathLib.normalize path in
  let fmt := SectionParser._detect_format content in
  let sections := SectionParser.extract_sections content in
  let header := get_or (L "header") [] sections in
  let metadata :=
    ContentExtractor.extract_metadata_from_header
      (header ++ [nl] ++ firstn 1000 content) in
  let context_inputs :=
    ContentExtractor.extract_context (get_or (L "context") header sections) in
  let trigger :=
    ContentExtractor.extract_trigger (get_or (L "trigger") header sections) in
  let what := what_triggered trigger in
  let what :=
    if truthy what then what
    else match search1 ContentExtractor.quote_pattern (firstn 2000 content) with
         | Some g => Some (strip g)
         | None => what
         end in
  let what :=
    if negb (truthy what) && truthy (objective context_inputs)
    then objective context_inputs else what in
  let what :=
    if negb (truthy what) && truthy (requirements context_inputs)
    then requirements context_inputs else what in
  let trigger := {| what_triggered := what |} in
  let workflow :=
    ContentExtractor.extract_workflow set_iter (workflow_content fmt sections) in
  let code_blocks :=
    ContentExtractor.extract_code_blocks (get_or (L "code") [] sections) in
  let all_code_blocks := ContentExtractor.extract_code_blocks content in
  let merged_blocks := merge_blocks [] (code_blocks ++ all_code_blocks) in
  let tags := ContentExtractor.extract_tags (tags_content sections content) in
  {| doc_id := generate_doc_id source content;
     source_path := source;
     format_detected := fmt;
     metadata := metadata;
     trigger := trigger;
     context_inputs := context_inputs;
     workflow := workflow;
     code_written := merged_blocks;
     tags := tags;
     raw_sections := sections;
     parse_warnings :=
       _generate_warnings metadata trigger workflow merged_blocks tags |}.

End Extract.

(** Two documents whose tags section is its heading alone.  The second has
    tag labels in its text, outside the tags section. *)
Definition untagged_document : str :=
  L "# Notes" ++ [nl]
  ++ L "Moved the parser into its own module." ++ [nl]
  ++ L "## Tags".

Definition inline_tags_document : str :=
  L "Languages: Python" ++ [nl]
  ++ L "Domain: web" ++ [nl]
  ++ L "## Tags".

End SRPTDExtractor.

(** An entry of [results["processed"]] and of [results["failed"]]. *)
Record processed_entry := {
  p_source : str;
  p_output : str;
  p_doc_id : str;
  p_format : format;
  p_warnings : list str }.

Record failed_entry := { f_source : str; f_error : str }.

Record results := {
  processed : list processed_entry;
  failed : list failed_entry;
  total : nat }.

Section Batch.

Variable set_iter : list (N * str) -> list (N * str).

(** Writing the JSON output: the text of the exception when [open] or
    [json.dump] raises for that output path, [None] when the file is written. *)
Variable write_error : str -> option str.

(** The body of the loop of [process_directory] for one file. *)
Definition process_file (input_dir output_dir : str) (r : results)
  (file : list str * option str) : results :=
  let file_path := PathLib.child input_dir (fst file) in
  match snd file with
  | Some content =>
      let extraction := SRPTDExtractor.extract set_iter file_path content in
      let output_file :=
        PathLib.child output_dir [doc_id extraction ++ L ".json"] in
      match write_error output_file with
      | None =>
          {| processed := processed r ++
               [ {| p_source := file_path;
                    p_output := output_file;
                    p_doc_id := doc_id extraction;
                    p_format := format_detected extraction;
                    p_warnings := parse_warnings extraction |} ];
             failed := failed r;
             total := total r |}
      | Some e =>
          {| processed := processed r;
             failed := failed r ++ [ {| f_source := file_path; f_error := e |} ];
             total := total r |}
      end
  | None =>
      {| processed := processed r;
         failed := failed r ++
           [ {| f_source := file_path; f_error := L "Failed to load file" |} ];
         total := total r |}
  end.

(** [process_directory]: [listing] is what lies below [input_dir].
<<
    files = list(input_path.glob(pattern))
    files.extend(input_path.glob(f"**/{pattern}"))
    srptd_files = [f for f in files if f.name.startswith(('SR-PTD', 'task_doc'))]
    results["total"] = len(srptd_files)
    for file_path in srptd_files: ...
>> *)
Definition srptd_files (pattern : str) (listing : PathLib.tree) : PathLib.tree :=
  let files := PathLib.glob pattern listing ++ PathLib.rglob pattern listing in
  filter (fun f => let name := last (fst f) [] in
                   startswith (L "SR-PTD") name || startswith (L "task_doc") name)
         files.

Definition process_directory (listing : PathLib.tree)
  (input_dir output_dir pattern : str) : results :=
  let files := srptd_files pattern listing in
  fold_left (process_file input_dir output_dir) files
            {| processed := []; failed := []; total := length files |}.

End Batch.

(** A file of a listing that can be loaded. *)
Definition readable (file : list str * option str) : bool :=
  match snd file with
  | Some _ => true
  | None => false
  end.

(** Ten SR-PTD documents directly in the input directory; the third and the
    seventh cannot be read. *)
Definition ten_documents : PathLib.tree :=
  [ ([L "SR-PTD_01.md"], Some (L "# Task one"));
    ([L "SR-PTD_02.md"], Some (L "# Task two"));
    ([L "SR-PTD_03.md"], None);
    ([L "SR-PTD_04.md"], Some (L "# Task four"));
    ([L "SR-PTD_05.md"], Some (L "# Task five"));
    ([L "SR-PTD_06.md"], Some (L "# Task six"));
    ([L "SR-PTD_07.md"], None);
    ([L "SR-PTD_08.md"], Some (L "# Task eight"));
    ([L "task_doc_09.md"], Some (L "# Task nine"));
    ([L "task_doc_10.md"], Some (L "# Task ten")) ].

(** The same documents one directory down. *)
Definition ten_nested_documents : PathLib.tree :=
  map (fun file => (L "2024" :: fst file, snd file)) ten_documents.

(* ================================================================= *)
(** * Exceptions and JSON values *)

Inductive exn : Type := AttributeError | TypeError | ValueError.

Inductive res (A : Type) : Type :=
| Ok (a : A)
| Raise (e : exn).
Arguments Ok {A} a.
Arguments Raise {A} e.

Definition bind {A B} (m : res A) (k : A -> res B) : res B :=
  match m with
  | Ok a => k a
  | Raise e => Raise e
  end.

Notation "'let*' x ':=' m 'in' k" := (bind m (fun x => k))
  (at level 10, x name, m at level 100, k at level 200).

(** [try: body  except Exception as e: handler] *)
Definition try_except {A} (body : res A) (handler : exn -> res A) : res A :=
  match body with
  | Ok a => Ok a
  | Raise e => handler e
  end.

(** [for x in xs: acc = f(acc, x)] where the body may raise *)
Fixpoint for_each {A B} (f : B -> A -> res B) (xs : list A) (acc : B) : res B :=
  match xs with
  | [] => Ok acc
  | x :: rest => let* acc' := f acc x in for_each f rest acc'
  end.

(** What [json.loads] returns. *)
#[local] Unset Elimination Schemes.
Inductive json : Type :=
| JNull
| JBool (b : bool)
| JNum (q : Q)
| JStr (s : str)
| JList (l : list json)
| JDict (d : list (str * json)).
#[local] Set Elimination Schemes.

(** The truth value of a JSON value *)
Definition is_true (v : json) : bool :=
  match v with
  | JNull => false
  | JBool b => b
  | JNum q => negb (Qeq_bool q 0)
  | JStr s => match s with [] => false | _ => true end
  | JList l => match l with [] => false | _ => true end
  | JDict d => match d with [] => false | _ => true end
  end.

(** [d.get(k)]: [None] of Python is [JNull] *)
Definition jget (k : string) (d : dict json) : json := get_or (L k) JNull d.

(** [d.get(k, default)] *)
Definition jget_or (k : string) (default : json) (d : dict json) : json :=
  get_or (L k) default d.

(** [v.get(k, default)] on a value that need not be a dict *)
Definition attr_get (k : string) (default : json) (v : json) : res json :=
  match v with
  | JDict d => Ok (jget_or k default d)
  | _ => Raise AttributeError
  end.

(** [v == "text"] *)
Definition is_str (s : string) (v : json) : bool :=
  match v with
  | JStr x => str_eqb x (L s)
  | _ => false
  end.

(** The elements that [for x in v] goes through *)
Definition iterate (v : json) : res (list json) :=
  match v with
  | JList l => Ok l
  | JStr s => Ok (map (fun c => JStr [c]) s)
  | JDict d => Ok (map (fun kv => JStr (fst kv)) d)
  | _ => Raise TypeError
  end.

(** [v.lower()] *)
Definition jlower (v : json) : res str :=
  match v with
  | JStr s => Ok (lower s)
  | _ => Raise AttributeError
  end.

(* ================================================================= *)
(** * [claude_logs_parser]: [LogEntryParser] *)

Inductive MessageRole : Type := USER | ASSISTANT | SYSTEM | TOOL | TOOL_RESULT.

Record ToolUse := {
  tool_name : json;
  tool_id : json;
  parameters : json }.

Record Message (datetime : Type) := {
  role : MessageRole;
  content : json;
  timestamp : option datetime;
  tool_uses : list ToolUse;
  thinking : json;
  token_count : json;
  raw_data : dict json }.
Arguments role {datetime}.
Arguments content {datetime}.
Arguments timestamp {datetime}.
Arguments tool_uses {datetime}.
Arguments thinking {datetime}.
Arguments token_count {datetime}.
Arguments raw_data {datetime}.

Module LogEntryParser.

Section Parser.

(** [str(v)], as an f-string and [str()] render a value. *)
Variable py_str : json -> str.

(** [base64.b64decode(v).decode('utf-8')]; [None] when it raises. *)
Variable b64decode_utf8 : json -> option str.

(** [datetime.fromtimestamp] and [datetime.fromisoformat]; [None] when they
    raise. *)
Variable datetime : Type.
Variable fromtimestamp : Q -> option datetime.
Variable fromisoformat : str -> option datetime.

(** [MESSAGE_TYPES.get(role_str)] *)
Definition MESSAGE_TYPES (k : str) : option MessageRole :=
  if str_eqb k (L "user") then Some USER
  else if str_eqb k (L "assistant") then Some ASSISTANT
  else if str_eqb k (L "system") then Some SYSTEM
  else if str_eqb k (L "tool_use") then Some TOOL
  else if str_eqb k (L "tool_result") then Some TOOL_RESULT
  else None.

(** The part of a content list contributed by one item. *)
Definition content_part (parts : list json) (item : json) : res (list json) :=
  match item with
  | JStr _ => Ok (parts ++ [item])
  | JDict d =>
      if is_str "text" (jget "type" d) then
        Ok (parts ++ [jget_or "text" (JStr []) d])
      else if is_str "tool_use" (jget "type" d) then
        Ok (parts ++ [JStr (L "[Tool: " ++ py_str (jget_or "name" (JStr (L "unknown")) d)
                            ++ L "]")])
      else Ok parts
  | _ => Ok parts
  end.

(** ["\n".join(parts)]: every part has to be a string. *)
Fixpoint join_parts (parts : list json) : res (list str) :=
  match parts with
  | [] => Ok []
  | JStr s :: rest => let* r := join_parts rest in Ok (s :: r)
  | _ :: _ => Raise TypeError
  end.

(** [_extract_content] *)
Definition _extract_content (entry : dict json) : res json :=
  match jget "content" entry with
  | JStr s => Ok (JStr s)
  | JList items =>
      let* parts := for_each content_part items [] in
      let* strs := join_parts parts in
      Ok (JStr (join [nl] strs))
  | _ =>
      let decoded :=
        if is_true (jget "content_base64" entry)
        then b64decode_utf8 (jget "content_base64" entry) else None in
      match decoded with
      | Some s => Ok (JStr s)
      | None =>
          match jget "message" entry with
          | JStr s => Ok (JStr s)
          | _ => if is_true (jget "text" entry) then Ok (jget "text" entry)
                 else Ok (JStr [])
          end
      end
  end.

(** [_extract_tool_uses] *)
Definition _extract_tool_uses (entry : dict json) : res (list ToolUse) :=
  let tools :=
    match jget "content" entry with
    | JList items =>
        flat_map (fun item =>
          match item with
          | JDict d =>
              if is_str "tool_use" (jget "type" d) then
                [ {| tool_name := jget_or "name" (JStr (L "unknown")) d;
                     tool_id := jget_or "id" (JStr []) d;
                     parameters := jget_or "input" (JDict []) d |} ]
              else []
          | _ => []
          end) items
    | _ => []
    end in
  if is_true (jget "tool_uses" entry) then
    let* tus := iterate (jget "tool_uses" entry) in
    for_each (fun tools tu =>
      match tu with
      | JDict d =>
          Ok (tools ++
              [ {| tool_name := jget_or "name" (jget_or "tool_name" (JStr (L "unknown")) d) d;
                   tool_id := jget_or "id" (jget_or "tool_id" (JStr []) d) d;
                   parameters := jget_or "input" (jget_or "parameters" (JDict []) d) d |} ])
      | _ => Raise AttributeError
      end) tus tools
  else Ok tools.

(** The timestamp of [_create_message]: every failure inside leaves it unset. *)
Definition parse_timestamp (entry : dict json) : option datetime :=
  let ts := jget "timestamp" entry in
  if is_true ts then
    match ts with
    | JNum q => fromtimestamp (if Qle_bool q 1000000000000 then q else q / 1000)
    | JBool _ => fromtimestamp 1
    | JStr s => fromisoformat (replace_char "Z" (L "+00:00") s)
    | _ => None
    end
  else None.

(** [_create_message] *)
Definition _create_message (role : MessageRole) (content : json)
  (entry : dict json) (tool_uses : list ToolUse) (thinking : json)
  : res (Message datetime) :=
  let timestamp := parse_timestamp entry in
  let* token_count :=
    if is_true (jget "token_count" entry) then Ok (jget "token_count" entry)
    else attr_get "output_tokens" JNull (jget_or "usage" (JDict []) entry) in
  Ok {| role := role;
        content := content;
        timestamp := timestamp;
        tool_uses := tool_uses;
        thinking := thinking;
        token_count := token_count;
        raw_data := entry |}.

(** [_parse_typed_entry] *)
Definition _parse_typed_entry (entry : dict json) : res (option (Message datetime)) :=
  let* entry_type := jlower (jget_or "type" (JStr []) entry) in
  if str_eqb entry_type (L "human") || str_eqb entry_type (L "user") then
    let* content := _extract_content entry in
    let* m := _create_message USER content entry [] JNull in
    Ok (Some m)
  else if str_eqb entry_type (L "assistant") || str_eqb entry_type (L "ai") then
    let* content := _extract_content entry in
    let* tool_uses := _extract_tool_uses entry in
    let* m := _create_message ASSISTANT content entry tool_uses (jget "thinking" entry) in
    Ok (Some m)
  else if str_eqb entry_type (L "tool_use") then
    let tool_use :=
      {| tool_name := jget_or "name" (jget_or "tool_name" (JStr (L "unknown")) entry) entry;
         tool_id := jget_or "id" (jget_or "tool_id" (JStr []) entry) entry;
         parameters := jget_or "input" (jget_or "parameters" (JDict []) entry) entry |} in
    let* m := _create_message TOOL (JStr (L "Tool: " ++ py_str (tool_name tool_use)))
                              entry [tool_use] JNull in
    Ok (Some m)
  else if str_eqb entry_type (L "tool_result") then
    let* content := _extract_content entry in
    let* m := _create_message TOOL_RESULT content entry [] JNull in
    Ok (Some m)
  else Ok None.

(** [_parse_role_entry] *)
Definition _parse_role_entry (entry : dict json) : res (option (Message datetime)) :=
  let* role_str := jlower (jget_or "role" (JStr []) entry) in
  match MESSAGE_TYPES role_str with
  | Some role =>
      let* content := _extract_content entry in
      let* tool_uses := _extract_tool_uses entry in
      let* m := _create_message role content entry tool_uses (jget "thinking" entry) in
      Ok (Some m)
  | None => Ok None
  end.

(** [_parse_content_entry] *)
Definition _parse_content_entry (entry : dict json) : res (option (Message datetime)) :=
  let* content := _extract_content entry in
  if is_true content then
    let role :=
      if is_true (jget "isAssistant" entry)
         || contains (L "assistant")
                     (lower (py_str (jget_or "sender" (JStr []) entry)))
      then ASSISTANT else USER in
    let* m := _create_message role content entry [] JNull in
    Ok (Some m)
  else Ok None.

(** The statements inside the [try] of [parse_entry]; [nested] is the
    outcome of [_parse_nested_message], which calls [parse_entry] again on a
    nested dict.  The two log calls have no part in the result. *)
Definition dispatch (entry : dict json)
  (nested : res (option (Message datetime))) : res (option (Message datetime)) :=
  if dict_has (L "type") entry then _parse_typed_entry entry
  else if dict_has (L "role") entry then _parse_role_entry entry
  else if dict_has (L "message") entry then nested
  else if dict_has (L "content") entry then _parse_content_entry entry
  else Ok None.

(** [parse_entry] on a JSON value.  The nested loop finds the value bound to
    ["message"] and is [_parse_nested_message]. *)
Fixpoint parse_value (v : json) : res (option (Message datetime)) :=
  match v with
  | JDict entry =>
      try_except
        (dispatch entry
           ((fix _parse_nested_message (d : list (str * json)) :=
               match d with
               | [] => Ok None
               | (k, message) :: d' =>
                   if str_eqb (L "message") k then
                     match message with
                     | JDict _ => parse_value message
                     | JStr _ =>
                         let* m := _create_message USER message entry [] JNull in
                         Ok (Some m)
                     | _ => Ok None
                     end
                   else _parse_nested_message d'
               end) entry))
        (fun _ => Ok None)
  | _ => Ok None
  end.

(** [_parse_nested_message] *)
Definition _parse_nested_message (entry : dict json)
  : res (option (Message datetime)) :=
  match dict_get (L "message") entry with
  | Some (JDict m) => parse_value (JDict m)
  | Some (JStr s) =>
      let* m := _create_message USER (JStr s) entry [] JNull in
      Ok (Some m)
  | _ => Ok None
  end.

(** The body of the [try] statement of [parse_entry] *)
Definition parse_entry_body (entry : dict json) : res (option (Message datetime)) :=
  dispatch entry (_parse_nested_message entry).

(** [parse_entry] *)
Definition parse_entry (entry : dict json) : res (option (Message datetime)) :=
  parse_value (JDict entry).

End Parser.

End LogEntryParser.

(* ================================================================= *)
(** * [phase_c_clustering]: [DocCardGenerator] *)

Record CardTags := {
  card_domains : list str;
  card_patterns : list str;
  card_frameworks : list str;
  card_languages : list str;
  card_tools : list str }.

(** The fields of a document card that identify and group it.  Scores,
    trigger, workflow steps, artifacts, issues and the creation time do not
    enter the bucket key and are left out. *)
Record DocCard := {
  card_doc_id : json;
  card_format_detected : json;
  card_tags : CardTags;
  bucket_key : str }.

Module DocCardGenerator.

(** One round of the loop of [_normalize_tags]: the tags kept so far are the
    set [seen], in order. *)
Definition normalize_step (normalized : list str) (tag : json) : res (list str) :=
  if negb (is_true tag) then Ok normalized
  else
    let* lowered := jlower tag in
    let tag_lower := replace_char " " (L "-") (strip lowered) in
    if negb (existsb (str_eqb tag_lower) normalized)
       && negb (str_eqb tag_lower (L "unknown"))
    then Ok (normalized ++ [tag_lower])
    else Ok normalized.

(** [_normalize_tags] *)
Definition _normalize_tags (tags : json) : res (list str) :=
  let* items := iterate tags in
  for_each normalize_step items [].

(** [tags[...][0] if tags[...] else 'unknown'] *)
Definition primary (tags : list str) : str :=
  match tags with
  | first :: _ => first
  | [] => L "unknown"
  end.

(** [generate_card] *)
Definition generate_card (extraction : dict json) : res DocCard :=
  let doc_id := jget_or "doc_id" (JStr (L "unknown")) extraction in
  let raw_tags := jget_or "tags" (JDict []) extraction in
  let* domains := let* t := attr_get "domains" (JList []) raw_tags in _normalize_tags t in
  let* patterns := let* t := attr_get "patterns" (JList []) raw_tags in _normalize_tags t in
  let* frameworks := let* t := attr_get "frameworks" (JList []) raw_tags in _normalize_tags t in
  let* languages := let* t := attr_get "languages" (JList []) raw_tags in _normalize_tags t in
  let* tools := let* t := attr_get "tools" (JList []) raw_tags in _normalize_tags t in
  let tags := {| card_domains := domains;
                 card_patterns := patterns;
                 card_frameworks := frameworks;
                 card_languages := languages;
                 card_tools := tools |} in
  let primary_domain := primary (card_domains tags) in
  let primary_pattern := primary (card_patterns tags) in
  let bucket_key := primary_domain ++ L "__" ++ primary_pattern in
  Ok {| card_doc_id := doc_id;
        card_format_detected := jget_or "format_detected" (JStr (L "unknown")) extraction;
        card_tags := tags;
        bucket_key := bucket_key |}.

(** The tags of an extraction as [to_dict] writes them, with the given
    domains and patterns. *)
Definition extraction_with_tags (domains patterns : list str) : dict json :=
  [ (L "doc_id", JStr (L "doc"));
    (L "tags",
     JDict [ (L "languages", JList []);
             (L "frameworks", JList []);
             (L "tools", JList []);
             (L "domains", JList (map JStr domains));
             (L "patterns", JList (map JStr patterns));
             (L "services", JList []) ]) ].

(** The card of the specification's example: domains
    ["api-development"; "testing"], no pattern. *)
Definition example_card : DocCard :=
  {| card_doc_id := JStr (L "doc");
     card_format_detected := JStr (L "unknown");
     card_tags := {| card_domains := [L "api-development"; L "testing"];
                     card_patterns := [];
                     card_frameworks := [];
                     card_languages := [];
                     card_tools := [] |};
     bucket_key := L "api-development__unknown" |}.

End DocCardGenerator.
(* ================================================================= *)
(** * [run_pipeline]: [count_input_files]
<<
    if not srptd_path.exists(): return 0
    return len(list(srptd_path.glob("*.md"))) + len(list(srptd_path.glob("**/*.md")))
>>
    [listing] is what lies below the directory, [None] when there is no
    such directory. *)


(* ================================================================= *)
(** * [phase_c_clustering]: [BucketGenerator] *)

(** [s.split(sep)] for a separator of one character or more: the
    occurrences are taken from the left and do not overlap.  [skip] counts
    the characters of an occurrence that are still to be passed. *)
Fixpoint split_str_from (sep : str) (skip : nat) (s : str) : list str :=
  match s with
  | [] => [[]]
  | c :: t =>
      match skip with
      | S skip' => split_str_from sep skip' t
      | O =>
          if startswith sep s then [] :: split_str_from sep (length sep - 1) t
          else match split_str_from sep 0 t with
               | h :: r => (c :: h) :: r
               | [] => [[c]]
               end
      end
  end.

Definition split_str (sep : str) (s : str) : list str := split_str_from sep 0 s.

(** The exceptions of [create_buckets]: [KeyError] besides those of [exn]. *)
Inductive lookup_exn : Type := KeyError | Exn (e : exn).

Inductive outcome (A : Type) : Type :=
| Done (a : A)
| Fails (e : lookup_exn).
Arguments Done {A} a.
Arguments Fails {A} e.

(** A bucket.  The values of the default factory ([None], 0) are never
    seen: the round that creates a bucket sets all four fields. *)
Record Bucket := {
  doc_ids : list json;
  primary_domain : str;
  primary_pattern : str;
  doc_count : nat }.

(** The statistics of [save_buckets].  The average, a float, is left out. *)
Record Statistics := {
  total_buckets : nat;
  total_documents : nat;
  max_bucket_size : nat;
  min_bucket_size : nat;
  singleton_buckets : nat;
  unknown_bucket_docs : nat }.

Module BucketGenerator.

(** One round of the loop of [create_buckets]; a card is what [json.load]
    returned.
<<
    bucket_key = card.get('bucket_key', 'unknown__unknown')
    parts = bucket_key.split('__')
    bucket = buckets[bucket_key]
    bucket["doc_ids"].append(card["doc_id"])
    bucket["primary_domain"] = parts[0] if len(parts) > 0 else "unknown"
    bucket["primary_pattern"] = parts[1] if len(parts) > 1 else "unknown"
    bucket["doc_count"] = len(bucket["doc_ids"])
>> *)
Definition bucket_step (buckets : dict Bucket) (card : json) : outcome (dict Bucket) :=
  match card with
  | JDict c =>
      match jget_or "bucket_key" (JStr (L "unknown__unknown")) c with
      | JStr bucket_key =>
          let parts := split_str (L "__") bucket_key in
          match dict_get (L "doc_id") c with
          | Some doc_id =>
              let ids :=
                match dict_get bucket_key buckets with
                | Some bucket => doc_ids bucket
                | None => []
                end ++ [doc_id] in
              Done (dict_set bucket_key
                      {| doc_ids := ids;
                         primary_domain := nth 0 parts (L "unknown");
                         primary_pattern := nth 1 parts (L "unknown");
                         doc_count := length ids |}
                      buckets)
          | None => Fails KeyError
          end
      | _ => Fails (Exn AttributeError)
      end
  | _ => Fails (Exn AttributeError)
  end.

Fixpoint create_buckets_from (buckets : dict Bucket) (cards : list json)
  : outcome (dict Bucket) :=
  match cards with
  | [] => Done buckets
  | card :: rest =>
      match bucket_step buckets card with
      | Done buckets' => create_buckets_from buckets' rest
      | Fails e => Fails e
      end
  end.

(** [create_buckets] *)
Definition create_buckets (cards : list json) : outcome (dict Bucket) :=
  create_buckets_from [] cards.

(** [bucket_key.replace('/', '-').replace('\\', '-')]: the name of the
    bucket's file *)
Definition safe_key (bucket_key : str) : str :=
  replace_char "\"%char (L "-") (replace_char "/"%char (L "-") bucket_key).

(** The statistics of [save_buckets] *)
Definition statistics (buckets : dict Bucket) : Statistics :=
  let bucket_sizes := map (fun kv => doc_count (snd kv)) buckets in
  {| total_buckets := length buckets;
     total_documents := list_sum bucket_sizes;
     max_bucket_size := list_max bucket_sizes;
     min_bucket_size := match bucket_sizes with
                        | [] => 0
                        | s :: rest => fold_left Nat.min rest s
                        end;
     singleton_buckets := length (filter (Nat.eqb 1) bucket_sizes);
     unknown_bucket_docs := match dict_get (L "unknown__unknown") buckets with
                            | Some bucket => doc_count bucket
                            | None => 0
                            end |}.

(** Three cards in two buckets; the second card has no bucket key. *)
Definition example_cards : list json :=
  [ JDict [ (L "doc_id", JStr (L "SR-PTD_01_0a1b2c3d"));
            (L "bucket_key", JStr (L "web__crud")) ];
    JDict [ (L "doc_id", JStr (L "SR-PTD_02_4e5f6a7b")) ];
    JDict [ (L "doc_id", JStr (L "SR-PTD_03_8c9d0e1f"));
            (L "bucket_key", JStr (L "web__crud")) ] ].

Definition example_buckets : dict Bucket :=
  [ (L "web__crud",
     {| doc_ids := [JStr (L "SR-PTD_01_0a1b2c3d"); JStr (L "SR-PTD_03_8c9d0e1f")];
        primary_domain := L "web";
        primary_pattern := L "crud";
        doc_count := 2 |});
    (L "unknown__unknown",
     {| doc_ids := [JStr (L "SR-PTD_02_4e5f6a7b")];
        primary_domain := L "unknown";
        primary_pattern := L "unknown";
        doc_count := 1 |}) ].

End BucketGenerator.

(* ================================================================= *)
(** * [claude_logs_parser]: messages, conversations and [ClaudeLogsParser] *)

(** [bool(l)] of a list *)
Definition nonempty {A} (l : list A) : bool :=
  match l with
  | [] => false
  | _ :: _ => true
  end.

(** [Message.is_substantial]
<<
    if not self.content:
        return bool(self.tool_uses)
    return len(self.content.strip()) > 10 or bool(self.tool_uses)
>>
    A content that is true and not a string has no [strip]. *)
Definition is_substantial {datetime} (m : Message datetime) : res bool :=
  if negb (is_true (content m)) then Ok (nonempty (tool_uses m))
  else
    match content m with
    | JStr s => Ok (Nat.ltb 10 (length (strip s)) || nonempty (tool_uses m))
    | _ => Raise AttributeError
    end.

(** Values that can be members of a [set], and their equality there:
    numbers and booleans compare by value. *)
Definition hashable (v : json) : bool :=
  match v with
  | JList _ | JDict _ => false
  | _ => true
  end.

Definition py_eqb (a b : json) : bool :=
  let number v :=
    match v with
    | JBool b => Some (if b then 1 else 0)%Q
    | JNum q => Some q
    | _ => None
    end in
  match a, b with
  | JNull, JNull => true
  | JStr x, JStr y => str_eqb x y
  | _, _ =>
      match number a, number b with
      | Some x, Some y => Qeq_bool x y
      | _, _ => false
      end
  end.

(** The members of [set(values)], each once; [TypeError] on a value that
    cannot be hashed.  Only the number of members is used. *)
Fixpoint set_of (seen : list json) (values : list json) : res (list json) :=
  match values with
  | [] => Ok seen
  | v :: rest =>
      if hashable v then
        set_of (if existsb (py_eqb v) seen then seen else seen ++ [v]) rest
      else Raise TypeError
  end.

Inductive Complexity : Type := Low | Medium | High.

Record Conversation (datetime : Type) := {
  session_id : str;
  project_path : json;
  working_directory : json;
  start_time : option datetime;
  end_time : option datetime;
  messages : list (Message datetime);
  summary : json;
  total_tokens : Q;
  source_file : str }.
Arguments session_id {datetime}.
Arguments project_path {datetime}.
Arguments working_directory {datetime}.
Arguments start_time {datetime}.
Arguments end_time {datetime}.
Arguments messages {datetime}.
Arguments summary {datetime}.
Arguments total_tokens {datetime}.
Arguments source_file {datetime}.

(** [Conversation.user_messages], [assistant_messages], [all_tool_uses] *)
Definition user_messages {datetime} (msgs : list (Message datetime))
  : list (Message datetime) :=
  filter (fun m => match role m with USER => true | _ => false end) msgs.

Definition assistant_messages {datetime} (msgs : list (Message datetime))
  : list (Message datetime) :=
  filter (fun m => match role m with ASSISTANT => true | _ => false end) msgs.

Definition all_tool_uses {datetime} (msgs : list (Message datetime)) : list ToolUse :=
  flat_map tool_uses msgs.

(** [len(self.get_unique_tools())] *)
Definition unique_tools {datetime} (msgs : list (Message datetime)) : res nat :=
  let* names := set_of [] (map tool_name (all_tool_uses msgs)) in
  Ok (length names).

(** [Conversation.estimate_complexity], on the messages
<<
    if msg_count > 30 or tool_count > 20 or unique_tools > 5: return "High"
    elif msg_count > 15 or tool_count > 10 or unique_tools > 3: return "Medium"
    return "Low"
>> *)
Definition estimate_complexity {datetime} (msgs : list (Message datetime))
  : res Complexity :=
  let msg_count := length msgs in
  let tool_count := length (all_tool_uses msgs) in
  let* unique_tools := unique_tools msgs in
  if Nat.ltb 30 msg_count || Nat.ltb 20 tool_count || Nat.ltb 5 unique_tools
  then Ok High
  else if Nat.ltb 15 msg_count || Nat.ltb 10 tool_count || Nat.ltb 3 unique_tools
  then Ok Medium
  else Ok Low.

(** How reading a file ends: at its end, with an [IOError], or with a
    [UnicodeDecodeError] (a [ValueError]); and what a path holds: nothing,
    or the lines read until then. *)
Inductive read_end : Type := Eof | IoError | DecodeError.

Inductive log_file : Type :=
| Missing
| Lines (ls : list str) (e : read_end).

Module ClaudeLogsParser.

Section ParseFile.

Variable py_str : json -> str.
Variable b64decode_utf8 : json -> option str.
Variable datetime : Type.
Variable fromtimestamp : Q -> option datetime.
Variable fromisoformat : str -> option datetime.

(** [json.loads]; [None] when it raises [JSONDecodeError]. *)
Variable json_loads : str -> option json.

(** [a < b] on two timestamps; it raises [TypeError] between a timestamp
    with an offset and one without. *)
Variable dt_lt : datetime -> datetime -> res bool.

(** The variables of the loop of [parse_file]. *)
Record file_state := FileState {
  fs_messages : list (Message datetime);
  fs_project_path : json;
  fs_working_directory : json;
  fs_summary : json;
  fs_start_time : option datetime;
  fs_end_time : option datetime }.

(** [a or b] *)
Definition jor (a b : json) : json := if is_true a then a else b.

(** The timestamps tracked after a message was appended. *)
Definition track (st : file_state) (m : Message datetime)
  : res (option datetime * option datetime) :=
  match timestamp m with
  | None => Ok (fs_start_time st, fs_end_time st)
  | Some t =>
      let* start :=
        match fs_start_time st with
        | None => Ok (Some t)
        | Some s => let* b := dt_lt t s in Ok (Some (if b then t else s))
        end in
      let* end_ :=
        match fs_end_time st with
        | None => Ok (Some t)
        | Some e => let* b := dt_lt e t in Ok (Some (if b then t else e))
        end in
      Ok (start, end_)
  end.

(** One line of the loop of [parse_file]. *)
Definition file_step (st : file_state) (line : str) : res file_state :=
  match strip line with
  | [] => Ok st
  | line =>
      match json_loads line with
      | None => Ok st
      | Some (JDict entry) =>
          let entry_type := jget_or "type" (JStr []) entry in
          if is_str "init" entry_type then
            Ok (FileState (fs_messages st)
                  (jget "project" entry)
                  (jor (jget "cwd" entry) (jget "workingDirectory" entry))
                  (fs_summary st) (fs_start_time st) (fs_end_time st))
          else if is_str "summary" entry_type then
            Ok (FileState (fs_messages st) (fs_project_path st)
                  (fs_working_directory st)
                  (jor (jget "summary" entry) (jget "text" entry))
                  (fs_start_time st) (fs_end_time st))
          else
            let* message :=
              LogEntryParser.parse_entry py_str b64decode_utf8 datetime
                fromtimestamp fromisoformat entry in
            match message with
            | None => Ok st
            | Some m =>
                let* substantial := is_substantial m in
                if substantial then
                  let* times := track st m in
                  Ok (FileState (fs_messages st ++ [m]) (fs_project_path st)
                        (fs_working_directory st) (fs_summary st)
                        (fst times) (snd times))
                else Ok st
            end
      | Some _ => Raise AttributeError
      end
  end.

(** [m.token_count or 0], as a term of the sum *)
Definition token_value (m : Message datetime) : res Q :=
  if is_true (token_count m) then
    match token_count m with
    | JNum q => Ok q
    | JBool _ => Ok 1%Q
    | _ => Raise TypeError
    end
  else Ok 0%Q.

(** [sum(m.token_count or 0 for m in messages)], numbers being rationals
    as in [json] *)
Definition sum_tokens (msgs : list (Message datetime)) : res Q :=
  for_each (fun acc m => let* v := token_value m in Ok (acc + v)%Q) msgs 0%Q.

(** [parse_file] *)
Definition parse_file (file_path : str) (file : log_file)
  : res (option (Conversation datetime)) :=
  match file with
  | Missing => Ok None
  | Lines ls e =>
      let* st := for_each file_step ls
                   (FileState [] JNull JNull JNull None None) in
      match e with
      | DecodeError => Raise ValueError
      | IoError => Ok None
      | Eof =>
          match fs_messages st with
          | [] => Ok None
          | _ =>
              let* total := sum_tokens (fs_messages st) in
              Ok (Some {| session_id := PathLib.stem file_path;
                          project_path := fs_project_path st;
                          working_directory := fs_working_directory st;
                          start_time := fs_start_time st;
                          end_time := fs_end_time st;
                          messages := fs_messages st;
                          summary := fs_summary st;
                          total_tokens := total;
                          source_file := file_path |})
          end
      end
  end.

(** [parse_directory], on the files that [find_log_files] found; the
    limits are natural numbers.
<<
    if max_files: log_files = log_files[:max_files]
    for file_path in log_files:
        conv = self.parse_file(file_path)
        if conv and len(conv.messages) >= min_messages: conversations.append(conv)
>> *)
Definition parse_directory (log_files : list (str * log_file))
  (max_files : option nat) (min_messages : nat)
  : res (list (Conversation datetime)) :=
  let log_files :=
    match max_files with
    | Some (S n) => firstn (S n) log_files
    | _ => log_files
    end in
  for_each (fun conversations f =>
              let* conv := parse_file (fst f) (snd f) in
              match conv with
              | Some c =>
                  if Nat.leb min_messages (length (messages c))
                  then Ok (conversations ++ [c]) else Ok conversations
              | None => Ok conversations
              end)
           log_files [].

End ParseFile.

(** The values of the examples.  A log of one record, a tool use:
    [json.loads] on the texts that occur, [str] on strings, timestamps as
    integers. *)
Definition quoted (s : string) : str := [ascii_of_nat 34] ++ L s ++ [ascii_of_nat 34].

Definition tool_line : str :=
  L "{" ++ quoted "type" ++ L ": " ++ quoted "tool_use" ++ L ", "
  ++ quoted "name" ++ L ": " ++ quoted "Read" ++ L "}".

Definition tool_entry : dict json :=
  [ (L "type", JStr (L "tool_use")); (L "name", JStr (L "Read")) ].

(** A second record, with a timestamp in seconds. *)
Definition timed_line : str :=
  L "{" ++ quoted "type" ++ L ": " ++ quoted "tool_use" ++ L ", "
  ++ quoted "name" ++ L ": " ++ quoted "Edit" ++ L ", "
  ++ quoted "timestamp" ++ L ": 5}".

Definition timed_entry : dict json :=
  [ (L "type", JStr (L "tool_use")); (L "name", JStr (L "Edit"));
    (L "timestamp", JNum 5) ].

Definition example_loads (text : str) : option json :=
  if str_eqb text tool_line then Some (JDict tool_entry)
  else if str_eqb text timed_line then Some (JDict timed_entry)
  else if str_eqb text (L "[1, 2]") then Some (JList [JNum 1; JNum 2])
  else None.

Definition example_str (v : json) : str :=
  match v with
  | JStr s => s
  | _ => []
  end.

Definition tool_message : Message Z :=
  {| role := TOOL;
     content := JStr (L "Tool: Read");
     timestamp := None;
     tool_uses := [ {| tool_name := JStr (L "Read");
                       tool_id := JStr [];
                       parameters := JDict [] |} ];
     thinking := JNull;
     token_count := JNull;
     raw_data := tool_entry |}.

Definition tool_conversation : Conversation Z :=
  {| session_id := L "session";
     project_path := JNull;
     working_directory := JNull;
     start_time := None;
     end_time := None;
     messages := [tool_message];
     summary := JNull;
     total_tokens := 0;
     source_file := L "logs/session.jsonl" |}.

Definition timed_message : Message Z :=
  {| role := TOOL;
     content := JStr (L "Tool: Edit");
     timestamp := Some 5%Z;
     tool_uses := [ {| tool_name := JStr (L "Edit");
                       tool_id := JStr [];
                       parameters := JDict [] |} ];
     thinking := JNull;
     token_count := JNull;
     raw_data := timed_entry |}.

Definition timed_conversation : Conversation Z :=
  {| session_id := L "session";
     project_path := JNull;
     working_directory := JNull;
     start_time := Some 5%Z;
     end_time := Some 5%Z;
     messages := [tool_message; timed_message];
     summary := JNull;
     total_tokens := 0;
     source_file := L "logs/session.jsonl" |}.

End ClaudeLogsParser.

(* ================================================================= *)
(** * Properties *)

(** ** The library models on known values *)

Example md5_empty :
  MD5.hexdigest (encode []) = L "d41d8cd98f00b204e9800998ecf8427e".
Proof. vm_compute. reflexivity. Qed.

Example md5_abc :
  MD5.hexdigest (encode (L "abc")) = L "900150983cd24fb0d6963f7d28e17f72".
Proof. vm_compute. reflexivity. Qed.

(** Two blocks, and a character that UTF-8 writes on two bytes. *)
Example md5_two_blocks :
  MD5.hexdigest (encode (repeat "a"%char 64)) = L "014842d480b571495a4a0363793f7367".
Proof. vm_compute. reflexivity. Qed.

Example md5_e_acute :
  encode [ascii_of_nat 233] = [195%Z; 169%Z]
  /\ MD5.hexdigest (encode [ascii_of_nat 233]) = L "66ddcd97cfdeabb2f6fb8a999b4bc76f".
Proof. vm_compute. split; reflexivity. Qed.

Example stem_values :
  map PathLib.stem
      [L "a/b/x.md"; L "a/x.tar.gz"; L "a/.hidden"; L "a/b.md/."; L "a/x."; L "/"]
  = [L "x"; L "x.tar"; L ".hidden"; L "b"; L "x."; []].
Proof. vm_compute. reflexivity. Qed.

Example normalize_tag_values :
  normalize_tag (L "  Hello   World! ") = L "hello-world"
  /\ normalize_tag (L "API_dev-Tools  x") = L "api_dev-tools-x"
  /\ normalize_tag [] = []
  /\ normalize_tag [ascii_of_nat 201; "t"%char; ascii_of_nat 233; ascii_of_nat 160;
                    "x"%char]
     = [ascii_of_nat 233; "t"%char; ascii_of_nat 233; "-"%char; "x"%char].
Proof. vm_compute. repeat split; reflexivity. Qed.

Example deduplicate_list_values :
  deduplicate_list [L "a"; L " A "; L "b"; L "a"] = [L "a"; L "b"].
Proof. vm_compute. reflexivity. Qed.

(** ** Characters *)

(** A property of characters that holds of the 256 code points holds of
    every character. *)
Lemma ascii_forall (P : ascii -> bool) :
  forallb P (map ascii_of_nat (seq 0 256)) = true -> forall c, P c = true.
Proof.
  intros H c.
  rewrite forallb_forall in H. apply H.
  rewrite <- (ascii_nat_embedding c).
  apply in_map, in_seq. pose proof (nat_ascii_bounded c). lia.
Qed.

Ltac by_cases_on_char :=
  match goal with
  | |- forall c : ascii, @?P c = true =>
      apply (ascii_forall P); vm_compute; reflexivity
  end.

Lemma lower_char_idem : forall c, Ascii.eqb (lower_char (lower_char c)) (lower_char c) = true.
Proof. by_cases_on_char. Qed.

Lemma lower_char_space : forall c, Bool.eqb (py_isspace (lower_char c)) (py_isspace c) = true.
Proof. by_cases_on_char. Qed.

Lemma space_not_allowed : forall c, negb (py_isspace c && code_allowed c) = true.
Proof. by_cases_on_char. Qed.

Lemma space_not_spec_allowed : forall c, negb (py_isspace c && spec_allowed c) = true.
Proof. by_cases_on_char. Qed.

(** Outside the non-ASCII alphanumerics the two character sets agree, also
    after lowercasing. *)
Lemma allowed_agree : forall c,
  implb (is_ascii c || negb (py_isalnum c))
        (Bool.eqb (code_allowed (lower_char c)) (spec_allowed (lower_char c))
         && (is_ascii (lower_char c) || negb (py_isalnum (lower_char c)))) = true.
Proof. by_cases_on_char. Qed.

(** ** The matcher on patterns of one character class *)

Lemma lstrip_by_length f s : length (lstrip_by f s) <= length s.
Proof.
  induction s as [|c t IH]; simpl; [lia|].
  destruct (f c); simpl; lia.
Qed.

Lemma take_drop_while f s : take_while f s ++ lstrip_by f s = s.
Proof.
  induction s as [|c t IH]; simpl; [reflexivity|].
  destruct (f c); simpl; [now rewrite IH | reflexivity].
Qed.

Lemma bt_seq r1 r2 s k : bt (Seq r1 r2) s k = bt r1 s (fun s1 => bt r2 s1 k).
Proof. reflexivity. Qed.

Lemma bt_star g r s k :
  bt (Star g r) s k = star_loop g (bt r) k (S (length (after s))) s.
Proof. reflexivity. Qed.

Lemma bt_chr_nil f b g k : bt (Chr f) (MState b [] g) k = None.
Proof. reflexivity. Qed.

Lemma bt_chr_cons f b c t g k :
  bt (Chr f) (MState b (c :: t) g) k =
  if f c then k (MState (c :: b) t g) else None.
Proof. reflexivity. Qed.

Lemma advanced_cons b c t g b' g' :
  advanced (MState b (c :: t) g) (MState b' t g') = true.
Proof. unfold advanced; cbn [after length]. apply Nat.ltb_lt; lia. Qed.

(** A greedy loop over a class runs to the end of the run when the
    continuation accepts that position. *)
Lemma star_chr_greedy f k : forall n b a g e,
  length a < n ->
  k (MState (rev (take_while f a) ++ b) (lstrip_by f a) g) = Some e ->
  star_loop true (bt (Chr f)) k n (MState b a g) = Some e.
Proof.
  induction n as [|n IH]; intros b a g e Hn Hk; [lia|].
  destruct a as [|c t]; cbn [star_loop].
  - rewrite bt_chr_nil. cbn in Hk. now rewrite Hk.
  - rewrite bt_chr_cons. cbn [take_while lstrip_by] in Hk.
    destruct (f c) eqn:Hc.
    + rewrite advanced_cons.
      rewrite (IH (c :: b) t g e); [reflexivity | cbn in Hn; lia |].
      cbn [rev] in Hk. now rewrite <- app_assoc in Hk.
    + cbn in Hk. now rewrite Hk.
Qed.

(** [\s+]-like patterns: one attempt at a position. *)
Lemma match_here_plus f ma b a :
  match_here (plus true (Chr f)) ma (MState b a []) =
  match a with
  | c :: t =>
      if f c then Some (MState (rev (take_while f t) ++ c :: b) (lstrip_by f t) [])
      else None
  | [] => None
  end.
Proof.
  unfold match_here, plus. rewrite bt_seq.
  destruct a as [|c t]; [reflexivity|].
  rewrite bt_chr_cons.
  destruct (f c); [|reflexivity].
  rewrite bt_star. cbn [after].
  apply star_chr_greedy; [lia|].
  unfold advanced; cbn [after length].
  pose proof (lstrip_by_length f t) as Hl.
  replace (length (lstrip_by f t) <? S (length t)) with true
    by (symmetry; apply Nat.ltb_lt; lia).
  now rewrite andb_false_r.
Qed.

Lemma match_here_chr f ma b a :
  match_here (Chr f) ma (MState b a []) =
  match a with
  | c :: t => if f c then Some (MState (c :: b) t []) else None
  | [] => None
  end.
Proof.
  unfold match_here.
  destruct a as [|c t]; [reflexivity|].
  rewrite bt_chr_cons.
  destruct (f c); [|reflexivity].
  rewrite advanced_cons. now rewrite andb_false_r.
Qed.

(** The start of the match that a search finds lies in the text searched. *)
Lemma search_from_start r : forall a ma b s e,
  search_from r ma b a = Some (s, e) -> length (after s) <= length a.
Proof.
  induction a as [|c t IH]; intros ma b s e H; cbn [search_from] in H.
  - destruct (match_here r ma (MState b [] [])); inversion H; subst. cbn. lia.
  - destruct (match_here r ma (MState b (c :: t) [])).
    + inversion H; subst. cbn. lia.
    + apply IH in H. cbn. lia.
Qed.

Lemma replaced_nil repl s : replaced repl [] s = s.
Proof. reflexivity. Qed.

Lemma replaced_cons repl s e ms rest :
  replaced repl ((s, e) :: ms) rest =
  firstn (length rest - length (after s)) rest ++ repl ++ replaced repl ms (after e).
Proof.
  unfold replaced. cbn [pieces].
  destruct (pieces ms (after e)) as [ps tl]. cbn [flat_map].
  now rewrite <- !app_assoc.
Qed.

(** A character before the first match is copied. *)
Lemma replaced_skip repl c t ms :
  match ms with
  | [] => True
  | (s, _) :: _ => length (after s) <= length t
  end ->
  replaced repl ms (c :: t) = c :: replaced repl ms t.
Proof.
  destruct ms as [|[s e] ms]; intro H; [reflexivity|].
  rewrite !replaced_cons. cbn [length].
  replace (S (length t) - length (after s)) with (S (length t - length (after s)))
    by lia.
  reflexivity.
Qed.

Lemma finditer_from_start r fuel ma b a :
  match finditer_from fuel r ma b a with
  | [] => True
  | (s, _) :: _ => length (after s) <= length a
  end.
Proof.
  destruct fuel as [|fuel]; cbn [finditer_from]; [exact I|].
  destruct (search_from r ma b a) as [[s e]|] eqn:H; [|exact I].
  now apply search_from_start in H.
Qed.

Lemma collapse_ws_cons c t :
  collapse_ws (c :: t) =
  if py_isspace c then
    match t with
    | c' :: _ => if py_isspace c' then collapse_ws t else "-"%char :: collapse_ws t
    | [] => ["-"%char]
    end
  else c :: collapse_ws t.
Proof. reflexivity. Qed.

Lemma collapse_ws_run c t :
  py_isspace c = true ->
  collapse_ws (c :: t) = "-"%char :: collapse_ws (lstrip_by py_isspace t).
Proof.
  revert c. induction t as [|c' t IH]; intros c Hc.
  - cbn. now rewrite Hc.
  - rewrite collapse_ws_cons, Hc. cbn [lstrip_by].
    destruct (py_isspace c') eqn:Hc'.
    + now apply IH.
    + reflexivity.
Qed.

Lemma collapse_ws_other c t :
  py_isspace c = false -> collapse_ws (c :: t) = c :: collapse_ws t.
Proof. intro Hc. cbn. now rewrite Hc. Qed.

(** [re.sub(r'\s+', '-', s)] replaces every whitespace run by a hyphen. *)
Lemma sub_spaces_from : forall n a fuel ma b,
  length a <= n -> length a < fuel ->
  replaced (L "-") (finditer_from fuel (plus true \s) ma b a) a = collapse_ws a.
Proof.
  induction n as [|n IH]; intros a fuel ma b Hn Hf.
  - destruct a; [|cbn in Hn; lia].
    destruct fuel; [lia|]. reflexivity.
  - destruct fuel as [|fuel]; [lia|].
    destruct a as [|c t]; [reflexivity|].
    cbn [finditer_from search_from]. rewrite match_here_plus.
    destruct (py_isspace c) eqn:Hc.
    + rewrite replaced_cons. cbn [after before length].
      rewrite Nat.sub_diag. cbn [firstn app].
      pose proof (lstrip_by_length py_isspace t).
      rewrite IH by (cbn in Hn, Hf; lia).
      now rewrite collapse_ws_run.
    + fold (search_from (plus true \s) false (c :: b) t).
      change (match search_from (plus true \s) false (c :: b) t with
              | Some (s, e) =>
                  (s, e) :: finditer_from fuel (plus true \s) (negb (advanced s e))
                              (before e) (after e)
              | None => []
              end)
        with (finditer_from (S fuel) (plus true \s) false (c :: b) t).
      rewrite replaced_skip by apply finditer_from_start.
      rewrite IH by (cbn in Hn, Hf; lia).
      now rewrite collapse_ws_other.
Qed.

Lemma sub_spaces s : Re.sub (plus true \s) (L "-") s = collapse_ws s.
Proof.
  unfold Re.sub, finditer. apply (sub_spaces_from (length s)); lia.
Qed.

(** [re.sub] of a one-character class by the empty string removes the
    characters of the class. *)
Lemma sub_class_from f : forall n a fuel ma b,
  length a <= n -> length a < fuel ->
  replaced [] (finditer_from fuel (Chr f) ma b a) a = filter (fun c => negb (f c)) a.
Proof.
  induction n as [|n IH]; intros a fuel ma b Hn Hf.
  - destruct a; [|cbn in Hn; lia].
    destruct fuel; [lia|]. reflexivity.
  - destruct fuel as [|fuel]; [lia|].
    destruct a as [|c t]; [reflexivity|].
    cbn [finditer_from search_from]. rewrite match_here_chr.
    destruct (f c) eqn:Hc.
    + rewrite replaced_cons. cbn [after before length].
      rewrite Nat.sub_diag. cbn [firstn app filter]. rewrite Hc. cbn [negb].
      apply IH; cbn in Hn, Hf; lia.
    + change (match search_from (Chr f) false (c :: b) t with
              | Some (s, e) =>
                  (s, e) :: finditer_from fuel (Chr f) (negb (advanced s e))
                              (before e) (after e)
              | None => []
              end)
        with (finditer_from (S fuel) (Chr f) false (c :: b) t).
      rewrite replaced_skip by apply finditer_from_start.
      rewrite IH by (cbn in Hn, Hf; lia).
      cbn [filter]. now rewrite Hc.
Qed.

Lemma sub_class f s : Re.sub (Chr f) [] s = filter (fun c => negb (f c)) s.
Proof.
  unfold Re.sub, finditer. apply (sub_class_from f (length s)); lia.
Qed.

(** ** [normalize_tag] *)

Lemma lstrip_by_none f s :
  (forall c, In c s -> f c = false) -> lstrip_by f s = s.
Proof.
  destruct s as [|c t]; intro H; [reflexivity|].
  cbn. now rewrite (H c (or_introl eq_refl)).
Qed.

Lemma rstrip_by_none f s :
  (forall c, In c s -> f c = false) -> rstrip_by f s = s.
Proof.
  intro H. unfold rstrip_by.
  rewrite lstrip_by_none; [apply rev_involutive|].
  intros c Hc. apply H. now apply in_rev.
Qed.

Lemma lstrip_by_incl f s c : In c (lstrip_by f s) -> In c s.
Proof.
  induction s as [|x t IH]; cbn; [tauto|].
  destruct (f x); cbn; tauto.
Qed.

Lemma strip_incl s c : In c (strip s) -> In c s.
Proof.
  unfold strip, rstrip_by. intro H.
  apply in_rev, lstrip_by_incl, in_rev in H.
  now apply lstrip_by_incl in H.
Qed.

Lemma collapse_ws_in s c :
  In c (collapse_ws s) -> c = "-"%char \/ In c s.
Proof.
  induction s as [|x t IH]; [cbn; tauto|].
  rewrite collapse_ws_cons.
  destruct (py_isspace x).
  - destruct t as [|y t']; [cbn; intuition|].
    destruct (py_isspace y); cbn [In]; intro H.
    + apply IH in H. cbn [In] in *. tauto.
    + destruct H as [H|H]; [now left|]. apply IH in H. cbn [In] in *. tauto.
  - cbn [In]. intros [H|H]; [tauto|]. apply IH in H. tauto.
Qed.

Lemma collapse_ws_none s :
  (forall c, In c s -> py_isspace c = false) -> collapse_ws s = s.
Proof.
  induction s as [|x t IH]; intro H; [reflexivity|].
  rewrite collapse_ws_other by (apply H; now left).
  f_equal. apply IH. intros c Hc. apply H. now right.
Qed.

Lemma filter_all {A} (f : A -> bool) l :
  (forall x, In x l -> f x = true) -> filter f l = l.
Proof.
  induction l as [|x t IH]; intro H; [reflexivity|].
  cbn. rewrite (H x (or_introl eq_refl)). f_equal.
  apply IH. intros y Hy. apply H. now right.
Qed.

Lemma filter_none {A} (f : A -> bool) l :
  (forall x, In x l -> f x = false) -> filter f l = [].
Proof.
  induction l as [|x t IH]; intro H; [reflexivity|].
  cbn. rewrite (H x (or_introl eq_refl)).
  apply IH. intros y Hy. apply H. now right.
Qed.

Lemma filter_agree {A} (f g : A -> bool) l :
  (forall x, In x l -> f x = g x) -> filter f l = filter g l.
Proof.
  induction l as [|x t IH]; intro H; [reflexivity|].
  cbn. rewrite (H x (or_introl eq_refl)).
  rewrite IH; [reflexivity|]. intros y Hy. apply H. now right.
Qed.

(** The two substitutions of [normalize_tag] in closed form. *)
Lemma normalize_tag_eq t :
  normalize_tag t = filter code_allowed (collapse_ws (lower (strip t))).
Proof.
  unfold normalize_tag. rewrite sub_spaces, sub_class.
  apply filter_agree. intros c _. unfold code_allowed. apply negb_involutive.
Qed.

Lemma allowed_not_space c : code_allowed c = true -> py_isspace c = false.
Proof.
  intro H. pose proof (space_not_allowed c) as Hs. rewrite H in Hs.
  destruct (py_isspace c); [discriminate | reflexivity].
Qed.

Lemma lower_char_fixed c : lower_char (lower_char c) = lower_char c.
Proof. apply Ascii.eqb_eq, lower_char_idem. Qed.

(** A tag is made of kept characters that lowercasing leaves alone. *)
Lemma normalize_tag_chars t c :
  In c (normalize_tag t) -> code_allowed c = true /\ lower_char c = c.
Proof.
  rewrite normalize_tag_eq. intro H. apply filter_In in H as [H Hc].
  split; [exact Hc|].
  apply collapse_ws_in in H as [->|H]; [reflexivity|].
  unfold lower in H. apply in_map_iff in H as [x [<- _]].
  apply lower_char_fixed.
Qed.

(** A string of kept, lowercase characters is its own normal form. *)
Lemma normalize_tag_fixed r :
  (forall c, In c r -> code_allowed c = true /\ lower_char c = c) ->
  normalize_tag r = r.
Proof.
  intro H. rewrite normalize_tag_eq.
  assert (Hs : forall c, In c r -> py_isspace c = false)
    by (intros c Hc; apply allowed_not_space, H, Hc).
  unfold strip. rewrite (lstrip_by_none _ r Hs), (rstrip_by_none _ r Hs).
  assert (Hl : lower r = r).
  { unfold lower. rewrite <- (map_id r) at 2. apply map_ext_in.
    intros c Hc. apply H, Hc. }
  rewrite Hl, (collapse_ws_none r Hs).
  apply filter_all. intros c Hc. apply H, Hc.
Qed.

(** C7.  [normalize_tag] is total and idempotent: it is a function on all
    strings, the empty one and those with characters beyond ASCII included,
    and normalising a normalised tag changes nothing. *)
Theorem normalize_tag_idempotent :
  forall t : str, normalize_tag (normalize_tag t) = normalize_tag t.
Proof.
  intro t. apply normalize_tag_fixed. apply normalize_tag_chars.
Qed.

(** ** [normalize_tag] and the normaliser of the specification *)

Lemma isspace_lower c : py_isspace (lower_char c) = py_isspace c.
Proof. apply Bool.eqb_prop, lower_char_space. Qed.

Lemma lstrip_lower s :
  lstrip_by py_isspace (lower s) = lower (lstrip_by py_isspace s).
Proof.
  induction s as [|c t IH]; [reflexivity|].
  cbn. rewrite isspace_lower. destruct (py_isspace c); [exact IH | reflexivity].
Qed.

Lemma strip_lower s : strip (lower s) = lower (strip s).
Proof.
  unfold strip, rstrip_by. rewrite lstrip_lower.
  unfold lower at 1. rewrite <- map_rev. fold (lower (rev (lstrip_by py_isspace s))).
  rewrite lstrip_lower. unfold lower. now rewrite map_rev.
Qed.

Lemma take_while_all f s c : In c (take_while f s) -> f c = true.
Proof.
  induction s as [|x t IH]; cbn; [tauto|].
  destruct (f x) eqn:Hx; cbn; [|tauto].
  intros [<-|H]; [exact Hx | now apply IH].
Qed.

Lemma leading_ws_eq s : leading_ws s = take_while py_isspace s.
Proof.
  unfold leading_ws.
  rewrite <- (take_drop_while py_isspace s) at 1 3.
  rewrite length_app, Nat.add_sub, firstn_app, Nat.sub_diag, firstn_all.
  cbn. apply app_nil_r.
Qed.

Lemma leading_ws_spaces s c : In c (leading_ws s) -> py_isspace c = true.
Proof. rewrite leading_ws_eq. apply take_while_all. Qed.

Lemma trailing_ws_spaces s c : In c (trailing_ws s) -> py_isspace c = true.
Proof.
  unfold trailing_ws. intro H. apply in_rev in H.
  now apply leading_ws_spaces in H.
Qed.

Lemma lstrip_by_nil f s : lstrip_by f s = [] -> forall c, In c s -> f c = true.
Proof.
  induction s as [|x t IH]; cbn; [tauto|].
  destruct (f x) eqn:Hx; [|discriminate].
  intros H c [<-|Hc]; [exact Hx | now apply IH].
Qed.

Lemma lstrip_by_head f s c r : lstrip_by f s = c :: r -> f c = false.
Proof.
  induction s as [|x t IH]; cbn; [discriminate|].
  destruct (f x) eqn:Hx; [exact IH|].
  intro H. now inversion H; subst.
Qed.

(** A string that strips to nothing is whitespace. *)
Lemma strip_nil s : strip s = [] -> forall c, In c s -> py_isspace c = true.
Proof.
  unfold strip, rstrip_by. intro H.
  assert (H1 : lstrip_by py_isspace (rev (lstrip_by py_isspace s)) = []).
  { rewrite <- (rev_involutive (lstrip_by _ (rev _))), H. reflexivity. }
  destruct (lstrip_by py_isspace s) as [|x r] eqn:Hl.
  - now apply lstrip_by_nil.
  - exfalso. apply lstrip_by_head in Hl.
    pose proof (lstrip_by_nil _ _ H1 x) as Hx.
    rewrite Hx in Hl; [discriminate|]. apply in_rev. rewrite rev_involutive. now left.
Qed.

(** Whatever character set is kept, if it has no whitespace then collapsing
    the internal runs and collapsing the runs of the stripped token leave the
    same characters. *)
Lemma filter_collapse_internal keep s :
  (forall c, py_isspace c = true -> keep c = false) ->
  filter keep (collapse_internal s) = filter keep (collapse_ws (strip s)).
Proof.
  intro Hk. unfold collapse_internal.
  destruct (strip s) as [|x core] eqn:Hs.
  - cbn. apply filter_none. intros c Hc. apply Hk. now apply (strip_nil s).
  - rewrite !filter_app.
    rewrite (filter_none keep (leading_ws s)), (filter_none keep (trailing_ws s)).
    + cbn. apply app_nil_r.
    + intros c Hc. apply Hk. now apply trailing_ws_spaces in Hc.
    + intros c Hc. apply Hk. now apply leading_ws_spaces in Hc.
Qed.

Lemma spec_allowed_not_space c : py_isspace c = true -> spec_allowed c = false.
Proof.
  intro H. pose proof (space_not_spec_allowed c) as Hs. rewrite H in Hs.
  destruct (spec_allowed c); [discriminate | reflexivity].
Qed.

Lemma code_allowed_not_space c : py_isspace c = true -> code_allowed c = false.
Proof.
  intro H. pose proof (space_not_allowed c) as Hs. rewrite H in Hs.
  destruct (code_allowed c); [discriminate | reflexivity].
Qed.

(** The normaliser of the specification in closed form. *)
Lemma normalize_spec_eq t :
  normalize_spec t = filter spec_allowed (collapse_ws (lower (strip t))).
Proof.
  unfold normalize_spec.
  rewrite filter_collapse_internal by apply spec_allowed_not_space.
  now rewrite strip_lower.
Qed.

(** [normalize_tag] does what the specification says with [\w] in the place
    of [[A-Za-z0-9_]]. *)
Lemma normalize_tag_reference t :
  normalize_tag t = filter code_allowed (collapse_internal (lower t)).
Proof.
  rewrite normalize_tag_eq.
  rewrite filter_collapse_internal by apply code_allowed_not_space.
  now rewrite strip_lower.
Qed.

Lemma allowed_agree_lower c :
  is_ascii c || negb (py_isalnum c) = true ->
  code_allowed (lower_char c) = spec_allowed (lower_char c).
Proof.
  intro H. pose proof (allowed_agree c) as Ha. rewrite H in Ha. cbn in Ha.
  apply andb_prop in Ha as [Ha _]. now apply Bool.eqb_prop.
Qed.

(** C6, amended.  On every token whose alphanumeric characters are ASCII,
    [normalize_tag] equals the reference definition: the token lowercased,
    internal whitespace runs collapsed to single hyphens, every character
    outside [[A-Za-z0-9_-]] removed. *)
Theorem normalize_tag_matches_reference :
  forall token : str,
    ascii_alnum_only token = true ->
    normalize_tag token = normalize_spec token.
Proof.
  intros t Ht. rewrite normalize_tag_eq, normalize_spec_eq.
  apply filter_agree. intros c Hc.
  apply collapse_ws_in in Hc as [->|Hc]; [reflexivity|].
  unfold lower in Hc. apply in_map_iff in Hc as [x [<- Hx]].
  apply allowed_agree_lower.
  unfold ascii_alnum_only in Ht. rewrite forallb_forall in Ht.
  apply Ht. now apply strip_incl.
Qed.

Lemma normalize_tag_matches_reference_witness :
  ascii_alnum_only (L "  Hello   World! ") = true /\
  normalize_tag (L "  Hello   World! ") = normalize_spec (L "  Hello   World! ").
Proof.
  split; [reflexivity|].
  apply normalize_tag_matches_reference. reflexivity.
Defined.

(** C6 as stated fails: [\w] keeps the letters beyond ASCII, here U+00E9. *)
Lemma normalize_tag_keeps_non_ascii_letters :
  ~ (forall token : str, normalize_tag token = normalize_spec token).
Proof.
  intro H. specialize (H (L "caf" ++ [ascii_of_nat 233])).
  vm_compute in H. discriminate H.
Qed.

(** ** [generate_doc_id] *)

(** C1.  [generate_doc_id] is deterministic: two calls with the same source
    path and the same content return the same id. *)
Theorem generate_doc_id_deterministic :
  forall source_path1 content1 source_path2 content2 : str,
    source_path1 = source_path2 ->
    content1 = content2 ->
    generate_doc_id source_path1 content1 = generate_doc_id source_path2 content2.
Proof. intros p1 c1 p2 c2 -> ->. reflexivity. Qed.

Lemma generate_doc_id_deterministic_witness :
  generate_doc_id (L "docs/SR-PTD_x.md") (L "abc")
  = generate_doc_id (L "docs/SR-PTD_x.md") (L "abc")
  /\ generate_doc_id (L "docs/SR-PTD_x.md") (L "abc") = L "SR-PTD_x_90015098".
Proof.
  split.
  - apply generate_doc_id_deterministic; reflexivity.
  - vm_compute. reflexivity.
Defined.

(** The id is the stem, an underscore, and eight hexadecimal digits of the
    MD5 digest of the content. *)
Lemma generate_doc_id_shape source_path content :
  generate_doc_id source_path content
  = PathLib.stem source_path ++ L "_" ++ firstn 8 (MD5.hexdigest (encode content)).
Proof. reflexivity. Qed.

(** C10.  [generate_doc_id] depends on the path through the stem of its
    final component only: paths with equal stems and one content get the
    same id, whatever their directories are. *)
Theorem generate_doc_id_depends_on_stem_only :
  forall source_path1 source_path2 content : str,
    PathLib.stem source_path1 = PathLib.stem source_path2 ->
    generate_doc_id source_path1 content = generate_doc_id source_path2 content.
Proof.
  intros p1 p2 c H. rewrite !generate_doc_id_shape. now rewrite H.
Qed.

Lemma generate_doc_id_depends_on_stem_only_witness :
  L "docs/a/SR-PTD_x.md" <> L "archive/b/SR-PTD_x.md"
  /\ generate_doc_id (L "docs/a/SR-PTD_x.md") (L "same text")
     = generate_doc_id (L "archive/b/SR-PTD_x.md") (L "same text").
Proof.
  split.
  - discriminate.
  - apply generate_doc_id_depends_on_stem_only. vm_compute. reflexivity.
Defined.

(** Two files with one name in two directories: the stems are equal, hence
    the ids of equal contents collide. *)
Lemma split_on_nonempty sep s : split_on sep s <> [].
Proof.
  destruct s as [|c t]; cbn; [discriminate|].
  destruct (Ascii.eqb c sep); [discriminate|].
  destruct (split_on sep t); discriminate.
Qed.

Lemma split_on_app sep a b :
  split_on sep (a ++ sep :: b) = split_on sep a ++ split_on sep b.
Proof.
  induction a as [|c a IH]; cbn [app split_on].
  - now rewrite Ascii.eqb_refl.
  - destruct (Ascii.eqb c sep); [now rewrite IH|].
    rewrite IH. pose proof (split_on_nonempty sep a).
    destruct (split_on sep a); [contradiction | reflexivity].
Qed.

Lemma split_on_absent sep s :
  ~ In sep s -> split_on sep s = [s].
Proof.
  induction s as [|c t IH]; intro H; [reflexivity|].
  cbn [split_on].
  destruct (Ascii.eqb c sep) eqn:Hc.
  - apply Ascii.eqb_eq in Hc. subst. exfalso. apply H. now left.
  - rewrite IH; [reflexivity|]. intro Hin. apply H. now right.
Qed.

Lemma name_in_directory dir file_name :
  ~ In "/"%char file_name -> file_name <> [] -> file_name <> L "." ->
  PathLib.name (dir ++ L "/" ++ file_name) = file_name.
Proof.
  intros Hsep Hne Hdot. unfold PathLib.name, PathLib.parts.
  change (L "/" ++ file_name) with ("/"%char :: file_name).
  rewrite split_on_app, (split_on_absent _ _ Hsep), filter_app. cbn [filter].
  unfold str_eqb.
  destruct (list_eq_dec ascii_dec file_name []); [contradiction|].
  destruct (list_eq_dec ascii_dec file_name (L ".")); [contradiction|].
  cbn [negb andb]. apply last_last.
Qed.

Corollary same_name_same_doc_id dir1 dir2 file_name content :
  ~ In "/"%char file_name -> file_name <> [] -> file_name <> L "." ->
  generate_doc_id (dir1 ++ L "/" ++ file_name) content
  = generate_doc_id (dir2 ++ L "/" ++ file_name) content.
Proof.
  intros H1 H2 H3. rewrite !generate_doc_id_shape.
  unfold PathLib.stem. now rewrite !name_in_directory.
Qed.

(** ** [DocCardGenerator] *)

(** C9.  The bucket key of a card is its first normalised domain and its
    first normalised pattern, each replaced by ["unknown"] when the list is
    empty, joined by two underscores. *)
Theorem bucket_key_of_generated_card :
  forall (extraction : dict json) (card : DocCard),
    DocCardGenerator.generate_card extraction = Ok card ->
    bucket_key card
    = DocCardGenerator.primary (card_domains (card_tags card))
      ++ L "__" ++ DocCardGenerator.primary (card_patterns (card_tags card)).
Proof.
  intros extraction card H. unfold DocCardGenerator.generate_card in H.
  repeat match type of H with
         | bind ?m _ = Ok _ => destruct m; cbn [bind] in H; [|discriminate H]
         end.
  inversion H; subst. reflexivity.
Qed.

(** The example of the specification: domains ["api-development"; "testing"]
    and no pattern give the key ["api-development__unknown"]. *)
Lemma bucket_key_of_generated_card_witness :
  DocCardGenerator.generate_card
    (DocCardGenerator.extraction_with_tags [L "api-development"; L "testing"] [])
  = Ok DocCardGenerator.example_card
  /\ bucket_key DocCardGenerator.example_card
     = DocCardGenerator.primary [L "api-development"; L "testing"]
       ++ L "__" ++ DocCardGenerator.primary []
  /\ bucket_key DocCardGenerator.example_card = L "api-development__unknown".
Proof.
  split; [vm_compute; reflexivity|].
  split; [|reflexivity].
  apply (bucket_key_of_generated_card
           (DocCardGenerator.extraction_with_tags [L "api-development"; L "testing"] [])).
  vm_compute. reflexivity.
Defined.

(** ** [LogEntryParser.parse_entry] *)

Section ParseEntryFacts.

Variable py_str : json -> str.
Variable b64decode_utf8 : json -> option str.
Variable datetime : Type.
Variable fromtimestamp : Q -> option datetime.
Variable fromisoformat : str -> option datetime.

Abbreviation parse_value :=
  (LogEntryParser.parse_value py_str b64decode_utf8 datetime fromtimestamp fromisoformat).
Abbreviation parse_entry :=
  (LogEntryParser.parse_entry py_str b64decode_utf8 datetime fromtimestamp fromisoformat).
Abbreviation parse_entry_body :=
  (LogEntryParser.parse_entry_body py_str b64decode_utf8 datetime fromtimestamp
     fromisoformat).
Abbreviation _parse_nested_message :=
  (LogEntryParser._parse_nested_message py_str b64decode_utf8 datetime fromtimestamp
     fromisoformat).

(** [parse_entry] is its body inside [try ... except Exception: return None],
    at every level of nesting. *)
Lemma parse_entry_unfold (entry : dict json) :
  parse_entry entry = try_except (parse_entry_body entry) (fun _ => Ok None).
Proof.
  unfold LogEntryParser.parse_entry, LogEntryParser.parse_entry_body.
  cbn [LogEntryParser.parse_value]. f_equal. f_equal.
  unfold LogEntryParser._parse_nested_message.
  match goal with
  | |- ?loop entry = _ =>
      enough (Hd : forall d,
                 loop d
                 = match dict_get (L "message") d with
                   | Some (JDict m) => parse_value (JDict m)
                   | Some (JStr s) =>
                       let* m := LogEntryParser._create_message
                                   datetime fromtimestamp fromisoformat
                                   USER (JStr s) entry [] JNull in
                       Ok (Some m)
                   | _ => Ok None
                   end) by apply Hd
  end.
  induction d as [|[k message] d IH]; [reflexivity|].
  cbn [dict_get]. destruct (str_eqb (L "message") k); [|exact IH].
  destruct message; reflexivity.
Qed.


(** A record whose type is not a string is malformed: the body raises
    [AttributeError] and the record is skipped. *)
Example parse_entry_type_not_a_string :
  parse_entry_body [(L "type", JNum 5); (L "content", JStr (L "text"))]
  = Raise AttributeError
  /\ parse_entry [(L "type", JNum 5); (L "content", JStr (L "text"))] = Ok None.
Proof. split; reflexivity. Qed.

(** So is a record whose content list holds a non-text part, whose usage is
    not an object, or whose tool uses are not a list of objects. *)
Example parse_entry_malformed_fields :
  parse_entry [(L "role", JStr (L "user"));
               (L "content", JList [JDict [(L "type", JStr (L "text"));
                                            (L "text", JNum 3)]])] = Ok None
  /\ parse_entry [(L "type", JStr (L "user")); (L "usage", JNull)] = Ok None
  /\ parse_entry [(L "type", JStr (L "assistant")); (L "tool_uses", JNum 1)] = Ok None.
Proof. repeat split; reflexivity. Qed.

(** A well-formed record gives one message. *)
Example parse_entry_user_message :
  option_map (fun m => (role m, content m))
    match parse_entry [(L "type", JStr (L "User")); (L "content", JStr (L "hello"))] with
    | Ok r => r
    | Raise _ => None
    end
  = Some (USER, JStr (L "hello")).
Proof. reflexivity. Qed.

End ParseEntryFacts.

(** ** [SectionParser] *)

Lemma str_eqb_eq a b : str_eqb a b = true <-> a = b.
Proof.
  unfold str_eqb. destruct (list_eq_dec ascii_dec a b); split; intro H;
    congruence.
Qed.

Lemma str_eqb_refl a : str_eqb a a = true.
Proof. now apply str_eqb_eq. Qed.

(** The keys of a dictionary after an assignment. *)
Lemma dict_has_set {V} k k' (v : V) d :
  dict_has k (dict_set k' v d) = str_eqb k k' || dict_has k d.
Proof.
  unfold dict_has.
  induction d as [|[k0 v0] d IH]; cbn [dict_set dict_get].
  - destruct (str_eqb k k'); reflexivity.
  - destruct (str_eqb k' k0) eqn:H0; cbn [dict_get].
    + apply str_eqb_eq in H0. subst k0.
      destruct (str_eqb k k'); reflexivity.
    + destruct (str_eqb k k0); [now rewrite orb_true_r | exact IH].
Qed.

Import SectionParser.

(** Once the header section is due to be saved, it stays in the result. *)
Lemma step_keeps_header fmt st line :
  dict_has (L "header") (save st) = true ->
  dict_has (L "header") (save (step fmt st line)) = true.
Proof.
  intro H. unfold step.
  destruct (_match_section_header fmt line) as [section_match|].
  - unfold save at 1. cbn [current_content current_section sections].
    rewrite dict_has_set, H. apply orb_true_r.
  - unfold save in *. cbn [current_content current_section sections].
    destruct (current_content st) as [|l ls]; cbn [app].
    + rewrite dict_has_set, H. apply orb_true_r.
    + rewrite dict_has_set in *. exact H.
Qed.

Lemma fold_keeps_header fmt ls : forall st,
  dict_has (L "header") (save st) = true ->
  dict_has (L "header") (save (fold_left (step fmt) ls st)) = true.
Proof.
  induction ls as [|l ls IH]; intros st H; [exact H|].
  cbn [fold_left]. apply IH. now apply step_keeps_header.
Qed.

(** The leading span is stored as ["header"] when the first line does not
    open another section. *)
Lemma header_section_present fmt content :
  match _match_section_header fmt (hd [] (lines content)) with
  | Some section_name => str_eqb section_name (L "header")
  | None => true
  end = true ->
  dict_has (L "header") (extract_sections_as fmt content) = true.
Proof.
  unfold extract_sections_as, lines.
  pose proof (split_on_nonempty nl content) as Hne.
  destruct (split_on nl content) as [|l0 ls]; [contradiction|].
  cbn [hd fold_left]. intro H. apply fold_keeps_header.
  unfold step.
  destruct (_match_section_header fmt l0) as [section_name|].
  - apply str_eqb_eq in H. subst section_name. reflexivity.
  - reflexivity.
Qed.

Lemma full_marker_detected content :
  full_marker content = true -> _detect_format content = Full.
Proof.
  unfold full_marker, _detect_format. intro H. now rewrite H.
Qed.

(** C4, amended.  A document with a full-dialect section marker and a
    subsection marker is classified "full"; its sections contain ["header"]
    when its first line is not itself the heading of another section. *)
Theorem full_document_has_header_section :
  forall content : str,
    full_marker content = true ->
    subsection_marker content = true ->
    other_heading (hd [] (lines content)) = false ->
    _detect_format content = Full
    /\ dict_has (L "header") (extract_sections content) = true.
Proof.
  intros content Hm _ Hfirst.
  pose proof (full_marker_detected content Hm) as Hf.
  split; [exact Hf|].
  unfold extract_sections. rewrite Hf.
  apply header_section_present.
  unfold other_heading in Hfirst.
  destruct (_match_section_header Full (hd [] (lines content))); [|reflexivity].
  now apply negb_false_iff in Hfirst.
Qed.

Lemma full_document_has_header_section_witness :
  _detect_format full_document = Full
  /\ dict_has (L "header") (extract_sections full_document) = true.
Proof.
  apply full_document_has_header_section; vm_compute; reflexivity.
Defined.

(** C4 as stated fails: a document that starts with a section heading has
    an empty leading span, which is not stored. *)
Lemma headless_full_document :
  ~ (forall content : str,
        full_marker content = true ->
        subsection_marker content = true ->
        _detect_format content = Full
        /\ dict_has (L "header") (extract_sections content) = true).
Proof.
  intro H.
  destruct (H headless_document eq_refl eq_refl) as [_ Hh].
  vm_compute in Hh. discriminate Hh.
Qed.

Example headless_document_sections :
  dict_keys (extract_sections headless_document) = [L "context"].
Proof. vm_compute. reflexivity. Qed.

(** ** [ContentExtractor.extract_workflow] *)







Section WorkflowFacts.

Variable set_iter : list (N * str) -> list (N * str).

(** Iterating over [set(steps)] meets every distinct step once. *)
Hypothesis set_iter_spec :
  forall l, Permutation (set_iter l) (nodup step_eq_dec l).

Import ContentExtractor.





End WorkflowFacts.


Example sub_bullet_workflow_steps :
  Re.findall2 ContentExtractor.pattern1 ContentExtractor.sub_bullet_workflow
  = [(L "1", L "- install the dependencies")]
  /\ ContentExtractor.strict_steps ContentExtractor.sub_bullet_workflow = []
  /\ high_level_steps
       (ContentExtractor.extract_workflow (nodup step_eq_dec)
          ContentExtractor.sub_bullet_workflow)
     = [L "- install the dependencies"].
Proof. vm_compute. repeat split; reflexivity. Qed.


(** ** [SRPTDExtractor.extract]: tags and warnings *)

Lemma no_match_no_tags keep pattern text :
  Re.search pattern text = None ->
  ContentExtractor.tag_list keep pattern text = [].
Proof.
  intro H. unfold ContentExtractor.tag_list, search1. now rewrite H.
Qed.

(** A text without tag label has six empty tag lists. *)
Lemma no_tag_label_no_tags text :
  SRPTDExtractor.no_tag_label text = true ->
  SRPTDExtractor.all_tags_empty (ContentExtractor.extract_tags text).
Proof.
  unfold SRPTDExtractor.no_tag_label. cbn [forallb]. intro H.
  repeat match type of H with
         | _ && _ = true => apply andb_prop in H as [?H H]
         end.
  repeat match goal with
         | Hs : match Re.search ?p text with _ => _ end = true |- _ =>
             destruct (Re.search p text) eqn:?; [discriminate Hs | clear Hs]
         end.
  unfold SRPTDExtractor.all_tags_empty, ContentExtractor.extract_tags.
  cbn [languages frameworks tools domains patterns services].
  repeat split; rewrite no_match_no_tags by assumption; reflexivity.
Qed.

(** Empty language and domain lists are both reported. *)
Lemma missing_tags_reported metadata trigger workflow blocks tags :
  languages tags = [] -> domains tags = [] ->
  In (L "Missing: tags.languages")
     (SRPTDExtractor._generate_warnings metadata trigger workflow blocks tags)
  /\ In (L "Missing: tags.domains")
        (SRPTDExtractor._generate_warnings metadata trigger workflow blocks tags).
Proof.
  intros Hl Hd. unfold SRPTDExtractor._generate_warnings. rewrite Hl, Hd.
  split; rewrite !in_app_iff; do 4 right.
  - left. now left.
  - right. now left.
Qed.

(** C8, amended.  When the tags section is empty and the text scanned for
    tags, which is the tags section followed by the last 1000 characters of
    the document, holds no tag label, the six tag lists are empty and the
    warnings contain "Missing: tags.languages" and "Missing: tags.domains". *)
Theorem empty_tags_section_warnings :
  forall (set_iter : list (N * str) -> list (N * str)) (path content : str),
    SRPTDExtractor.empty_tags_section content = true ->
    SRPTDExtractor.no_tag_label
      (SRPTDExtractor.tags_content (SectionParser.extract_sections content) content)
    = true ->
    let extraction := SRPTDExtractor.extract set_iter path content in
    SRPTDExtractor.all_tags_empty (tags extraction)
    /\ In (L "Missing: tags.languages") (parse_warnings extraction)
    /\ In (L "Missing: tags.domains") (parse_warnings extraction).
Proof.
  intros set_iter path content _ Hno extraction. subst extraction.
  unfold SRPTDExtractor.extract. cbn [tags parse_warnings].
  pose proof (no_tag_label_no_tags _ Hno) as Ht.
  split; [exact Ht|].
  destruct Ht as [Hl [_ [_ [Hd _]]]].
  now apply missing_tags_reported.
Qed.

Lemma empty_tags_section_warnings_witness :
  let extraction :=
    SRPTDExtractor.extract (nodup step_eq_dec) (L "notes/SR-PTD_parser.md")
      SRPTDExtractor.untagged_document in
  SRPTDExtractor.all_tags_empty (tags extraction)
  /\ In (L "Missing: tags.languages") (parse_warnings extraction)
  /\ In (L "Missing: tags.domains") (parse_warnings extraction).
Proof.
  apply empty_tags_section_warnings; vm_compute; reflexivity.
Defined.

(** C8 as stated fails: the last 1000 characters of the document are
    scanned too, and a label there fills the lists. *)
Lemma inline_tags_fill_empty_section :
  ~ (forall (set_iter : list (N * str) -> list (N * str)) (path content : str),
        SRPTDExtractor.empty_tags_section content = true ->
        let extraction := SRPTDExtractor.extract set_iter path content in
        SRPTDExtractor.all_tags_empty (tags extraction)
        /\ In (L "Missing: tags.languages") (parse_warnings extraction)
        /\ In (L "Missing: tags.domains") (parse_warnings extraction)).
Proof.
  intro H.
  destruct (H (nodup step_eq_dec) (L "notes/SR-PTD_web.md")
              SRPTDExtractor.inline_tags_document eq_refl) as [[Hl _] _].
  vm_compute in Hl. discriminate Hl.
Qed.

Example inline_tags_document_tags :
  let extraction :=
    SRPTDExtractor.extract (nodup step_eq_dec) (L "notes/SR-PTD_web.md")
      SRPTDExtractor.inline_tags_document in
  dict_get (L "tags") (raw_sections extraction) = Some (L "## Tags")
  /\ languages (tags extraction) = [L "python"]
  /\ domains (tags extraction) = [L "web"]
  /\ parse_warnings extraction
     = [L "Missing: metadata.date"; L "Missing: trigger.what_triggered";
        L "Missing: workflow.high_level_steps"; L "Empty: code_written.blocks"].
Proof. vm_compute. repeat split; reflexivity. Qed.

(** ** Texts in which a pattern cannot match *)

Section Absent.

Variable c : ascii.

(** A continuation that refuses every position of a text without [c] is
    never satisfied from such a text. *)
Lemma star_loop_refused g m k :
  (forall s k', ~ In c (after s) ->
                (forall s1, ~ In c (after s1) -> k' s1 = None) -> m s k' = None) ->
  (forall s1, ~ In c (after s1) -> k s1 = None) ->
  forall n s, ~ In c (after s) -> star_loop g m k n s = None.
Proof.
  intros Hm Hk. induction n as [|n IH]; intros s Hs; cbn [star_loop].
  - now apply Hk.
  - rewrite (Hk s Hs).
    rewrite (Hm s _ Hs).
    + now destruct g.
    + intros s1 Hs1. destruct (advanced s s1); [now apply IH | reflexivity].
Qed.

Lemma bt_refused r : forall s k,
  ~ In c (after s) ->
  (forall s1, ~ In c (after s1) -> k s1 = None) ->
  bt r s k = None.
Proof.
  induction r as [|f|r1 IH1 r2 IH2|r1 IH1 r2 IH2|g r1 IH1|i r1 IH1|b r1 IH1|m|m];
    intros s k Hs Hk.
  - now apply Hk.
  - destruct s as [bs [|x t] gs]; [reflexivity|].
    rewrite bt_chr_cons. destruct (f x); [|reflexivity].
    apply Hk. cbn [after] in *. intro Hin. apply Hs. now right.
  - rewrite bt_seq. apply IH1; [exact Hs|].
    intros s1 Hs1. now apply IH2.
  - cbn [bt]. rewrite (IH1 s k Hs Hk). now apply IH2.
  - rewrite bt_star. apply star_loop_refused; [|exact Hk|exact Hs].
    intros s0 k' Hs0 Hk'. now apply IH1.
  - cbn [bt]. apply IH1; [exact Hs|].
    intros s1 Hs1. apply Hk. exact Hs1.
  - cbn [bt]. destruct (bt r1 s Some) as [s1|]; destruct b;
      try reflexivity; now apply Hk.
  - cbn [bt]. destruct (at_bol m s); [now apply Hk | reflexivity].
  - cbn [bt]. destruct (at_eol m s); [now apply Hk | reflexivity].
Qed.

Lemma class_needs f x :
  forallb (fun y => implb (f y) (Ascii.eqb y c)) all_chars = true ->
  f x = true -> x = c.
Proof.
  intros H Hx.
  pose proof (ascii_forall _ H x) as Hi. cbn beta in Hi.
  rewrite Hx in Hi. now apply Ascii.eqb_eq.
Qed.

(** A pattern that needs [c] does not match in a text without [c]. *)
Lemma bt_needs r : forall s k,
  needs c r = true -> ~ In c (after s) -> bt r s k = None.
Proof.
  induction r as [|f|r1 IH1 r2 IH2|r1 IH1 r2 IH2|g r1 IH1|i r1 IH1|b r1 IH1|m|m];
    intros s k Hn Hs; cbn [needs] in Hn; try discriminate Hn.
  - destruct s as [bs [|x t] gs]; [reflexivity|].
    rewrite bt_chr_cons. destruct (f x) eqn:Hx; [|reflexivity].
    exfalso. apply Hs. left. now apply (class_needs f).
  - rewrite bt_seq. apply orb_prop in Hn as [Hn|Hn].
    + now apply IH1.
    + apply bt_refused; [exact Hs|]. intros s1 Hs1. now apply IH2.
  - apply andb_prop in Hn as [Hn1 Hn2]. cbn [bt].
    rewrite (IH1 s k Hn1 Hs). now apply IH2.
  - cbn [bt]. now apply IH1.
Qed.

Lemma search_needs r : forall a ma b,
  needs c r = true -> ~ In c a -> search_from r ma b a = None.
Proof.
  induction a as [|x t IH]; intros ma b Hn Ha; cbn [search_from];
    unfold match_here; rewrite bt_needs by assumption; [reflexivity|].
  apply IH; [exact Hn|]. intro Hin. apply Ha. now right.
Qed.

End Absent.

(** Every tag label has a colon: a text without one has no tag label. *)
Lemma colon_free_no_tag_label text :
  ~ In ":"%char text -> SRPTDExtractor.no_tag_label text = true.
Proof.
  intro H. unfold SRPTDExtractor.no_tag_label. cbn [forallb].
  unfold Re.search.
  rewrite !(search_needs ":"%char) by (assumption || (vm_compute; reflexivity)).
  reflexivity.
Qed.

(** ** The characters of the sections *)

Lemma split_on_chars sep s l x :
  In l (split_on sep s) -> In x l -> In x s.
Proof.
  revert l. induction s as [|c t IH]; intros l Hl Hx; cbn [split_on] in Hl.
  - destruct Hl as [<-|[]]. destruct Hx.
  - destruct (Ascii.eqb c sep).
    + destruct Hl as [<-|Hl]; [destruct Hx|]. right. now apply (IH l).
    + pose proof (split_on_nonempty sep t) as Hne.
      destruct (split_on sep t) as [|h r]; [contradiction|].
      destruct Hl as [<-|Hl].
      * destruct Hx as [<-|Hx]; [now left|]. right. apply (IH h); [now left|exact Hx].
      * right. apply (IH l); [now right|exact Hx].
Qed.

Lemma join_chars sep ls x :
  In x (join sep ls) -> In x sep \/ exists l, In l ls /\ In x l.
Proof.
  induction ls as [|l ls IH]; cbn [join]; [intros []|].
  destruct ls as [|l' ls'].
  - intro H. right. exists l. split; [now left|exact H].
  - rewrite !in_app_iff. intros [H|[H|H]].
    + right. exists l. split; [now left|exact H].
    + now left.
    + destruct (IH H) as [Hs|[l0 [Hl0 Hx]]]; [now left|].
      right. exists l0. split; [now right|exact Hx].
Qed.

Lemma dict_get_set {V} k k' (v w : V) d :
  dict_get k (dict_set k' v d) = Some w -> w = v \/ dict_get k d = Some w.
Proof.
  induction d as [|[k0 v0] d IH]; cbn [dict_set dict_get].
  - destruct (str_eqb k k'); [|discriminate]. intro H. left. congruence.
  - destruct (str_eqb k' k0); cbn [dict_get].
    + destruct (str_eqb k k0); [intro H; left; congruence | now right].
    + destruct (str_eqb k k0); [now right | exact IH].
Qed.

Section SectionChars.

Variable content : str.

(** A text made of characters of the document and of newlines; lines made
    of characters of the document; a state of the splitting loop whose
    sections and pending lines are such. *)
Abbreviation from_content v :=
  (forall x, In x v -> x = nl \/ In x content).

Abbreviation from_lines ls :=
  (forall l x, In l ls -> In x l -> In x content).

Abbreviation state_ok st :=
  ((forall k v, dict_get k (sections st) = Some v -> from_content v)
   /\ from_lines (current_content st)).

Lemma save_from_content st k v :
  state_ok st -> dict_get k (save st) = Some v -> from_content v.
Proof.
  intros [Hs Hc]. unfold save.
  destruct (current_content st) as [|l ls] eqn:Hcc; [apply Hs|].
  intro H. apply dict_get_set in H as [->|H]; [|now apply (Hs k)].
  intros x Hx. apply strip_incl, join_chars in Hx as [Hx|[l0 [Hl0 Hx]]].
  - left. destruct Hx as [<-|[]]. reflexivity.
  - right. now apply (Hc l0).
Qed.

Lemma step_state_ok fmt st line :
  (forall x, In x line -> In x content) ->
  state_ok st -> state_ok (step fmt st line).
Proof.
  intros Hline Hst. unfold step.
  destruct (_match_section_header fmt line); split;
    cbn [sections current_content].
  - intros k v. now apply save_from_content.
  - intros l x [<-|[]]. apply Hline.
  - apply Hst.
  - intros l x Hl. apply in_app_iff in Hl as [Hl|[<-|[]]].
    + now apply (proj2 Hst).
    + apply Hline.
Qed.

Lemma fold_state_ok fmt ls : forall st,
  (forall l x, In l ls -> In x l -> In x content) ->
  state_ok st -> state_ok (fold_left (step fmt) ls st).
Proof.
  induction ls as [|l ls IH]; intros st Hls Hst; [exact Hst|].
  cbn [fold_left]. apply IH.
  - intros l0 x Hl0. apply Hls. now right.
  - apply step_state_ok; [|exact Hst]. intros x. apply Hls. now left.
Qed.

(** Every section is made of characters of the document and of newlines. *)
Lemma section_chars k v :
  dict_get k (extract_sections content) = Some v ->
  forall x, In x v -> x = nl \/ In x content.
Proof.
  unfold extract_sections, extract_sections_as. apply save_from_content.
  apply fold_state_ok.
  - intros l x. unfold lines. apply split_on_chars.
  - split; [intros k0 v0 Hd; discriminate Hd | intros l x []].
Qed.

End SectionChars.

(** A document without a colon has no tag label in the text scanned for
    tags, hence empty tag lists and both warnings. *)
Lemma colon_free_tags_content content :
  ~ In ":"%char content ->
  SRPTDExtractor.no_tag_label
    (SRPTDExtractor.tags_content (extract_sections content) content) = true.
Proof.
  intro H. apply colon_free_no_tag_label.
  unfold SRPTDExtractor.tags_content, get_or. rewrite !in_app_iff.
  intros [Hin|[Hin|Hin]].
  - match type of Hin with
    | context [match ?d with _ => _ end] => destruct d as [v|] eqn:Hv
    end; [|exact Hin].
    destruct (section_chars content _ _ Hv _ Hin) as [Hnl|Hc];
      [unfold nl in Hnl; discriminate Hnl | now apply H].
  - destruct Hin as [Hin|Hin]; [unfold nl in Hin; discriminate Hin | exact Hin].
  - apply H. unfold last_n in Hin.
    rewrite <- (firstn_skipn (length content - 1000) content).
    apply in_app_iff. now right.
Qed.

Corollary colon_free_document_warnings set_iter path content :
  ~ In ":"%char content ->
  let extraction := SRPTDExtractor.extract set_iter path content in
  SRPTDExtractor.all_tags_empty (tags extraction)
  /\ In (L "Missing: tags.languages") (parse_warnings extraction)
  /\ In (L "Missing: tags.domains") (parse_warnings extraction).
Proof.
  intros H extraction. subst extraction.
  unfold SRPTDExtractor.extract. cbn [tags parse_warnings].
  pose proof (no_tag_label_no_tags _ (colon_free_tags_content content H)) as Ht.
  split; [exact Ht|].
  destruct Ht as [Hl [_ [_ [Hd _]]]].
  now apply missing_tags_reported.
Qed.

(** ** [process_directory] *)

Section BatchFacts.

Variable set_iter : list (N * str) -> list (N * str).
Variable write_error : str -> option str.
Variables input_dir output_dir : str.

Abbreviation process_file_ :=
  (process_file set_iter write_error input_dir output_dir).

(** Every file ends in exactly one of the two lists and the loop goes
    through all of them: no failure stops the batch. *)
Lemma process_file_accounts r file :
  total (process_file_ r file) = total r
  /\ length (processed (process_file_ r file)) + length (failed (process_file_ r file))
     = S (length (processed r) + length (failed r)).
Proof.
  unfold process_file. destruct (snd file) as [content|].
  - destruct (write_error _); cbn [processed failed total];
      rewrite length_app; cbn [length]; split; lia.
  - cbn [processed failed total]. rewrite length_app. cbn [length]. split; lia.
Qed.

Lemma process_files_account files : forall r,
  let r' := fold_left process_file_ files r in
  total r' = total r
  /\ length (processed r') + length (failed r')
     = length (processed r) + length (failed r) + length files.
Proof.
  induction files as [|file files IH]; intro r; cbn [fold_left length].
  - split; lia.
  - destruct (IH (process_file_ r file)) as [Ht Hl].
    destruct (process_file_accounts r file) as [Ht' Hl'].
    cbn zeta. split; [congruence | lia].
Qed.

Lemma process_directory_accounts listing pattern :
  let r := process_directory set_iter write_error listing input_dir output_dir pattern in
  total r = length (srptd_files pattern listing)
  /\ length (processed r) + length (failed r) = total r.
Proof.
  cbn zeta. unfold process_directory.
  destruct (process_files_account (srptd_files pattern listing)
              {| processed := []; failed := [];
                 total := length (srptd_files pattern listing) |}) as [Ht Hl].
  cbn [processed failed total length] in *. split; [exact Ht | lia].
Qed.

End BatchFacts.

Section BatchCounts.

Variable set_iter : list (N * str) -> list (N * str).
Variables input_dir output_dir : str.

Abbreviation process_ok :=
  (process_file set_iter (fun _ => None) input_dir output_dir).

(** When every output can be written, the processed entries are the readable
    files and the failed entries the unreadable ones. *)
Lemma process_files_counts files : forall r,
  let r' := fold_left process_ok files r in
  length (processed r') = length (processed r) + length (filter readable files)
  /\ length (failed r')
     = length (failed r) + length (filter (fun f => negb (readable f)) files).
Proof.
  induction files as [|file files IH]; intro r; cbn [fold_left filter length].
  - cbn zeta. split; lia.
  - destruct (IH (process_ok r file)) as [Hp Hf]. cbn zeta in *.
    rewrite Hp, Hf. unfold process_file, readable.
    destruct (snd file); cbn [processed failed negb length];
      rewrite length_app; cbn [length]; split; lia.
Qed.

Lemma process_directory_counts listing pattern :
  let files := srptd_files pattern listing in
  let r := process_directory set_iter (fun _ => None) listing input_dir output_dir
             pattern in
  total r = length files
  /\ length (processed r) = length (filter readable files)
  /\ length (failed r) = length (filter (fun f => negb (readable f)) files).
Proof.
  cbn zeta. unfold process_directory.
  split.
  - apply (process_directory_accounts set_iter (fun _ => None)).
  - apply (process_files_counts (srptd_files pattern listing)).
Qed.

(** C2.  On a batch of ten documents lying directly in the input directory,
    two of them unreadable, [process_directory] lists every document twice,
    once by [glob(pattern)] and once by [glob("**/" + pattern)]: it reports
    a total of 20 with 16 processed and 4 failed entries, where the property
    expects 10, 8 and 2.  The loop itself runs to its end. *)
Theorem process_directory_counts_top_level_files_twice :
  let r := process_directory set_iter (fun _ => None) ten_documents
             input_dir output_dir (L "*.md") in
  length ten_documents = 10
  /\ length (filter readable ten_documents) = 8
  /\ total r = 20
  /\ length (processed r) = 16
  /\ length (failed r) = 4.
Proof.
  cbn zeta.
  destruct (process_directory_counts ten_documents (L "*.md")) as [Ht [Hp Hf]].
  cbn zeta in *. rewrite Ht, Hp, Hf.
  repeat split; vm_compute; reflexivity.
Qed.

(** The same batch one directory down is listed once and gives the expected
    counts. *)
Example process_directory_counts_nested_files_once :
  let r := process_directory set_iter (fun _ => None) ten_nested_documents
             input_dir output_dir (L "*.md") in
  total r = 10 /\ length (processed r) = 8 /\ length (failed r) = 2.
Proof.
  cbn zeta.
  destruct (process_directory_counts ten_nested_documents (L "*.md")) as [Ht [Hp Hf]].
  cbn zeta in *. rewrite Ht, Hp, Hf.
  repeat split; vm_compute; reflexivity.
Qed.

End BatchCounts.

(* ================================================================= *)
(** * Further properties of the extractor *)

(** ** [deduplicate_list] *)

(** The form under which [deduplicate_list] compares two items. *)
Abbreviation dedup_key x := (strip (lower x)).

Lemma existsb_str_eqb k seen : existsb (str_eqb k) seen = true <-> In k seen.
Proof.
  rewrite existsb_exists. split.
  - intros [x [Hx He]]. apply str_eqb_eq in He. now subst.
  - intro H. exists k. split; [exact H | apply str_eqb_refl].
Qed.

Lemma deduplicate_from_incl l : forall seen x,
  In x (deduplicate_from seen l) -> In x l.
Proof.
  induction l as [|item rest IH]; intros seen x; cbn [deduplicate_from]; [intros []|].
  destruct (existsb _ seen).
  - intro H. right. now apply (IH seen).
  - intros [<-|H]; [now left|]. right. exact (IH _ x H).
Qed.

Lemma deduplicate_from_fresh l : forall seen x,
  In x (deduplicate_from seen l) -> ~ In (dedup_key x) seen.
Proof.
  induction l as [|item rest IH]; intros seen x; cbn [deduplicate_from]; [intros []|].
  destruct (existsb _ seen) eqn:He.
  - apply IH.
  - intros [<-|H].
    + intro Hin. apply existsb_str_eqb in Hin. congruence.
    + intro Hin. apply (IH _ _ H). now right.
Qed.

Lemma deduplicate_from_nodup l : forall seen,
  NoDup (map (fun x => dedup_key x) (deduplicate_from seen l)).
Proof.
  induction l as [|item rest IH]; intro seen; cbn [deduplicate_from]; [constructor|].
  destruct (existsb _ seen); [apply IH|].
  cbn [map]. constructor; [|apply IH].
  intro Hin. apply in_map_iff in Hin as [y [Hy Hin]].
  apply deduplicate_from_fresh in Hin. apply Hin. left. now symmetry.
Qed.

Lemma deduplicate_from_covers l : forall seen x,
  In x l ->
  In (dedup_key x) seen
  \/ exists y, In y (deduplicate_from seen l) /\ dedup_key y = dedup_key x.
Proof.
  induction l as [|item rest IH]; intros seen x; [intros []|].
  cbn [deduplicate_from]. intros [->|Hin].
  - destruct (existsb _ seen) eqn:He.
    + left. now apply existsb_str_eqb.
    + right. exists x. split; [now left | reflexivity].
  - destruct (existsb _ seen) eqn:He.
    + now apply IH.
    + destruct (IH (dedup_key item :: seen) x Hin) as [[Hk|Hk]|[y [Hy Hk]]].
      * right. exists item. split; [now left | exact Hk].
      * now left.
      * right. exists y. split; [now right | exact Hk].
Qed.

Lemma deduplicate_from_fixed l : forall seen,
  NoDup (map (fun x => dedup_key x) l) ->
  (forall x, In x l -> ~ In (dedup_key x) seen) ->
  deduplicate_from seen l = l.
Proof.
  induction l as [|item rest IH]; intros seen Hnd Hs; [reflexivity|].
  cbn [deduplicate_from]. cbn [map] in Hnd. inversion Hnd as [|k ks Hk Hnd']; subst.
  destruct (existsb _ seen) eqn:He.
  - apply existsb_str_eqb in He. exfalso. apply (Hs item); [now left | exact He].
  - f_equal. apply IH; [exact Hnd'|].
    intros x Hx [Hin|Hin].
    + apply Hk. rewrite Hin. now apply (in_map (fun x => dedup_key x)).
    + apply (Hs x); [now right | exact Hin].
Qed.

(** The kept items are items of the input, no two of them have the same
    lowercased and stripped form, and every item of the input has its form
    among those of the kept ones. *)
Theorem deduplicate_list_distinct_and_complete (items : list str) :
  (forall x, In x (deduplicate_list items) -> In x items)
  /\ NoDup (map (fun x => strip (lower x)) (deduplicate_list items))
  /\ (forall x, In x items ->
        exists y, In y (deduplicate_list items)
                  /\ strip (lower y) = strip (lower x)).
Proof.
  unfold deduplicate_list. split; [|split].
  - intro x. apply deduplicate_from_incl.
  - apply deduplicate_from_nodup.
  - intros x Hx.
    destruct (deduplicate_from_covers items [] x Hx) as [[]|H]. exact H.
Qed.

(** Removing duplicates twice is removing them once. *)
Theorem deduplicate_list_idempotent (items : list str) :
  deduplicate_list (deduplicate_list items) = deduplicate_list items.
Proof.
  unfold deduplicate_list. apply deduplicate_from_fixed.
  - apply deduplicate_from_nodup.
  - intros x _ [].
Qed.

Lemma deduplicate_from_ext l : forall seen seen',
  (forall k, In k seen <-> In k seen') ->
  deduplicate_from seen l = deduplicate_from seen' l.
Proof.
  induction l as [|item rest IH]; intros seen seen' H; [reflexivity|].
  cbn [deduplicate_from].
  assert (He : existsb (str_eqb (dedup_key item)) seen
               = existsb (str_eqb (dedup_key item)) seen').
  { apply eq_true_iff_eq. rewrite !existsb_str_eqb. apply H. }
  rewrite He. destruct (existsb _ seen').
  - now apply IH.
  - f_equal. apply IH. intro k. cbn [In]. now rewrite H.
Qed.

Lemma deduplicate_from_filter l : forall seen k,
  deduplicate_from (k :: seen) l
  = deduplicate_from seen (filter (fun y => negb (str_eqb (dedup_key y) k)) l).
Proof.
  induction l as [|item rest IH]; intros seen k; [reflexivity|].
  cbn [deduplicate_from filter existsb].
  destruct (str_eqb (dedup_key item) k) eqn:Hk; cbn [orb negb].
  - apply IH.
  - cbn [deduplicate_from]. destruct (existsb _ seen); [apply IH|].
    f_equal. rewrite <- IH. apply deduplicate_from_ext.
    intro x. cbn [In]. tauto.
Qed.

(** The first item is always kept, and the items after it are those of the
    rest whose form differs from its form, deduplicated in turn: every form
    is represented by its first occurrence, in the order of the input. *)
Theorem deduplicate_list_keeps_first_occurrence (x : str) (items : list str) :
  deduplicate_list (x :: items)
  = x :: deduplicate_list
           (filter (fun y => negb (str_eqb (strip (lower y)) (strip (lower x)))) items).
Proof.
  unfold deduplicate_list. cbn [deduplicate_from existsb].
  f_equal. apply deduplicate_from_filter.
Qed.

(** ** [strip] *)

Lemma lstrip_by_snoc f a c :
  f c = false -> lstrip_by f (a ++ [c]) = lstrip_by f a ++ [c].
Proof.
  intro Hc. induction a as [|x a IH]; cbn [lstrip_by app].
  - now rewrite Hc.
  - destruct (f x); [exact IH | reflexivity].
Qed.

Lemma rstrip_by_cons f c t :
  f c = false -> rstrip_by f (c :: t) = c :: rstrip_by f t.
Proof.
  intro Hc. unfold rstrip_by. cbn [rev].
  rewrite (lstrip_by_snoc f _ c Hc), rev_app_distr. reflexivity.
Qed.

Lemma lstrip_by_idem f s : lstrip_by f (lstrip_by f s) = lstrip_by f s.
Proof.
  induction s as [|c t IH]; cbn [lstrip_by]; [reflexivity|].
  destruct (f c) eqn:Hc; [exact IH|]. cbn [lstrip_by]. now rewrite Hc.
Qed.

Lemma rstrip_by_idem f s : rstrip_by f (rstrip_by f s) = rstrip_by f s.
Proof. unfold rstrip_by. now rewrite rev_involutive, lstrip_by_idem. Qed.

(** A stripped text has no whitespace left to strip. *)
Lemma strip_idem s : strip (strip s) = strip s.
Proof.
  unfold strip.
  destruct (lstrip_by py_isspace s) as [|c t] eqn:Hl; [reflexivity|].
  pose proof (lstrip_by_head _ _ _ _ Hl) as Hc.
  rewrite (rstrip_by_cons _ c t Hc). cbn [lstrip_by]. rewrite Hc.
  rewrite <- (rstrip_by_cons _ c t Hc). apply rstrip_by_idem.
Qed.

Lemma join_cons sep p q rest :
  join sep (p :: q :: rest) = p ++ sep ++ join sep (q :: rest).
Proof. reflexivity. Qed.

Lemma join_split_on sep s : join [sep] (split_on sep s) = s.
Proof.
  induction s as [|c t IH]; [reflexivity|]. cbn [split_on].
  pose proof (split_on_nonempty sep t) as Hne.
  destruct (Ascii.eqb c sep) eqn:Hc.
  - apply Ascii.eqb_eq in Hc. subst c.
    destruct (split_on sep t) as [|h r]; [contradiction|].
    rewrite join_cons, IH. reflexivity.
  - destruct (split_on sep t) as [|h r]; [contradiction|].
    destruct r as [|h' r'].
    + cbn [join] in *. now rewrite IH.
    + rewrite join_cons. rewrite join_cons in IH. rewrite <- IH. reflexivity.
Qed.

(** ** The sections of a document *)

Lemma first_match_in patterns line name :
  first_match patterns line = Some name -> In name (map fst patterns).
Proof.
  induction patterns as [|[n p] rest IH]; cbn [first_match map fst]; [discriminate|].
  destruct (Re.match_ p line).
  - intro H. left. congruence.
  - intro H. right. now apply IH.
Qed.

Lemma dict_set_keys {V} k (v : V) d x :
  In x (dict_keys (dict_set k v d)) -> x = k \/ In x (dict_keys d).
Proof.
  unfold dict_keys. induction d as [|[k0 v0] d IH]; cbn [dict_set map fst In].
  - intros [<-|[]]. now left.
  - destruct (str_eqb k k0); cbn [map fst In].
    + intros [<-|H]; right; [now left | now right].
    + intros [<-|H]; [right; now left|].
      destruct (IH H) as [->|H']; [now left | right; now right].
Qed.

Lemma dict_set_nodup {V} k (v : V) d :
  NoDup (dict_keys d) -> NoDup (dict_keys (dict_set k v d)).
Proof.
  unfold dict_keys. induction d as [|[k0 v0] d IH]; cbn [dict_set map fst]; intro H.
  - constructor; [intros [] | constructor].
  - inversion H as [|x l Hx Hl]; subst.
    destruct (str_eqb k k0) eqn:Hk; cbn [map fst].
    + now constructor.
    + constructor; [|now apply IH].
      intro Hin. apply (dict_set_keys k v d k0) in Hin as [->|Hin].
      * rewrite str_eqb_refl in Hk. discriminate.
      * now apply Hx.
Qed.

Lemma dict_get_in {V} k (v : V) d : dict_get k d = Some v -> In (k, v) d.
Proof.
  induction d as [|[k0 v0] d IH]; cbn [dict_get]; [discriminate|].
  destruct (str_eqb k k0) eqn:Hk.
  - apply str_eqb_eq in Hk. intro H. left. congruence.
  - intro H. right. now apply IH.
Qed.

Lemma dict_set_values {V} (P : V -> Prop) k (v : V) d :
  P v -> (forall kv, In kv d -> P (snd kv)) ->
  forall kv, In kv (dict_set k v d) -> P (snd kv).
Proof.
  intros Hv. induction d as [|[k0 v0] d IH]; cbn [dict_set]; intros Hd kv.
  - intros [<-|[]]. exact Hv.
  - destruct (str_eqb k k0).
    + intros [<-|H]; [exact Hv | apply Hd; now right].
    + intros [<-|H]; [apply (Hd (k0, v0)); now left|].
      apply IH; [|exact H]. intros kv' Hkv'. apply Hd. now right.
Qed.

Section SectionNames.

Variable fmt : format.

(** The names that the table of the dialect can give to a section. *)
Abbreviation table_names :=
  (L "header" :: map fst match fmt with
                         | Full => FULL_SECTION_PATTERNS
                         | _ => QUICK_SECTION_PATTERNS
                         end).

(** The state of the splitting loop: the stored sections have distinct
    names of the table and stripped texts, and so has the pending one. *)
Abbreviation well_named st :=
  (NoDup (dict_keys (sections st))
   /\ (forall k, In k (dict_keys (sections st)) -> In k table_names)
   /\ (forall kv, In kv (sections st) -> strip (snd kv) = snd kv)
   /\ In (current_section st) table_names).

Lemma save_well_named st :
  well_named st ->
  NoDup (dict_keys (save st))
  /\ (forall k, In k (dict_keys (save st)) -> In k table_names)
  /\ (forall kv, In kv (save st) -> strip (snd kv) = snd kv).
Proof.
  intros [Hnd [Hk [Hv Hc]]]. unfold save.
  destruct (current_content st) as [|l ls]; [now repeat split|].
  split; [|split].
  - now apply dict_set_nodup.
  - intros k Hin. apply dict_set_keys in Hin as [->|Hin]; [exact Hc | now apply Hk].
  - apply (dict_set_values (fun v => strip v = v)); [apply strip_idem | exact Hv].
Qed.

Lemma step_well_named st line :
  well_named st -> well_named (step fmt st line).
Proof.
  intro H. unfold step, _match_section_header.
  destruct (first_match _ line) as [name|] eqn:Hm; cbn [sections current_section].
  - destruct (save_well_named st H) as [Hnd [Hk Hv]].
    repeat split; try assumption.
    right. apply first_match_in in Hm. destruct fmt; exact Hm.
  - exact H.
Qed.

Lemma fold_well_named ls : forall st,
  well_named st -> well_named (fold_left (step fmt) ls st).
Proof.
  induction ls as [|l ls IH]; intros st H; [exact H|].
  cbn [fold_left]. apply IH. now apply step_well_named.
Qed.

Lemma extract_sections_as_well_named content :
  NoDup (dict_keys (extract_sections_as fmt content))
  /\ (forall k, In k (dict_keys (extract_sections_as fmt content)) -> In k table_names)
  /\ (forall kv, In kv (extract_sections_as fmt content) -> strip (snd kv) = snd kv).
Proof.
  unfold extract_sections_as. apply save_well_named, fold_well_named.
  cbn [sections current_section dict_keys map].
  repeat split; [constructor | intros k [] | intros kv [] | now left].
Qed.

End SectionNames.

(** The names of the sections of a document are distinct, and they are
    ["header"] or names of the table of the detected dialect. *)
Theorem extract_sections_names (content : str) :
  let names := dict_keys (extract_sections content) in
  NoDup names
  /\ forall k, In k names ->
       In k match _detect_format content with
            | Full =>
                map L ["header"; "context"; "workflow"; "knowledge"; "code"; "outputs";
                       "issues"; "verification"; "skill_assessment"; "tags"]
            | _ =>
                map L ["header"; "trigger"; "workflow"; "decisions"; "knowledge";
                       "code"; "outputs"; "issues"; "skill_potential"; "tags"]
            end.
Proof.
  cbn zeta. unfold extract_sections.
  destruct (extract_sections_as_well_named (_detect_format content) content)
    as [Hnd [Hk _]].
  split; [exact Hnd|]. intros k Hin. specialize (Hk k Hin).
  destruct (_detect_format content); vm_compute in Hk |- *; tauto.
Qed.

(** The text stored for a section has no whitespace at either end. *)
Theorem extract_sections_stripped (content k v : str) :
  dict_get k (extract_sections content) = Some v -> strip v = v.
Proof.
  intro H. apply dict_get_in in H.
  destruct (extract_sections_as_well_named (_detect_format content) content)
    as [_ [_ Hv]].
  exact (Hv (k, v) H).
Qed.

Lemma extract_sections_stripped_witness :
  dict_get (L "workflow") (extract_sections full_document) = Some (L "## Section C: Workflow" ++ [nl] ++ L "1. Read file")
  /\ strip (L "## Section C: Workflow" ++ [nl] ++ L "1. Read file")
     = L "## Section C: Workflow" ++ [nl] ++ L "1. Read file".
Proof.
  split; [vm_compute; reflexivity|].
  apply (extract_sections_stripped full_document (L "workflow")).
  vm_compute. reflexivity.
Defined.

(** ** Documents without a heading *)

Lemma first_match_needs c patterns line :
  forallb (fun p => needs c (snd p)) patterns = true ->
  ~ In c line -> first_match patterns line = None.
Proof.
  intros Hp Hl. induction patterns as [|[n p] rest IH]; [reflexivity|].
  cbn [forallb snd] in Hp. apply andb_prop in Hp as [Hn Hr].
  cbn [first_match]. unfold Re.match_, match_here.
  rewrite (bt_needs c) by assumption. now apply IH.
Qed.

Lemma no_heading_no_section fmt line :
  ~ In "#"%char line -> _match_section_header fmt line = None.
Proof.
  intro H. unfold _match_section_header.
  apply (first_match_needs "#"%char); [|exact H].
  destruct fmt; vm_compute; reflexivity.
Qed.

Lemma fold_no_heading fmt ls : forall st,
  (forall l, In l ls -> ~ In "#"%char l) ->
  fold_left (step fmt) ls st
  = SplitState (sections st) (current_section st) (current_content st ++ ls).
Proof.
  induction ls as [|l ls IH]; intros st H; cbn [fold_left].
  - rewrite app_nil_r. now destruct st.
  - rewrite IH by (intros l0 Hl0; apply H; now right).
    unfold step. rewrite no_heading_no_section by (apply H; now left).
    cbn [sections current_section current_content].
    now rewrite <- app_assoc.
Qed.

(** A document without the character [#] has no heading: it is one section,
    ["header"], that holds the whole text, stripped. *)
Theorem extract_sections_without_heading (content : str) :
  ~ In "#"%char content ->
  extract_sections content = [(L "header", strip content)].
Proof.
  intro H. unfold extract_sections, extract_sections_as.
  rewrite fold_no_heading.
  - cbn [sections current_section current_content app]. unfold save.
    cbn [current_content sections current_section]. unfold lines.
    pose proof (split_on_nonempty nl content) as Hne.
    pose proof (join_split_on nl content) as Hj.
    destruct (split_on nl content) as [|l ls]; [contradiction|].
    rewrite Hj. reflexivity.
  - intros l Hl Hin. apply H. unfold lines in Hl.
    now apply (split_on_chars nl content l).
Qed.

Lemma extract_sections_without_heading_witness :
  extract_sections (L "  fixed the login form" ++ [nl] ++ L "and its tests ")
  = [(L "header", strip (L "  fixed the login form" ++ [nl] ++ L "and its tests "))].
Proof.
  apply extract_sections_without_heading.
  vm_compute. intuition discriminate.
Defined.

(** ** The tags of a document *)

Lemma tag_list_normalised keep pattern content tag :
  In tag (ContentExtractor.tag_list keep pattern content) ->
  exists t, tag = normalize_tag t.
Proof.
  unfold ContentExtractor.tag_list.
  destruct (search1 pattern content) as [g|]; [|intros []].
  intro H. apply in_map_iff in H as [t [<- _]]. now exists t.
Qed.

Lemma normalised_key t : strip (lower (normalize_tag t)) = normalize_tag t.
Proof.
  assert (Hl : lower (normalize_tag t) = normalize_tag t).
  { unfold lower. rewrite <- (map_id (normalize_tag t)) at 2. apply map_ext_in.
    intros c Hc. now apply (normalize_tag_chars t). }
  rewrite Hl. unfold strip.
  assert (Hs : forall c, In c (normalize_tag t) -> py_isspace c = false)
    by (intros c Hc; now apply allowed_not_space, (normalize_tag_chars t)).
  now rewrite (lstrip_by_none _ _ Hs), (rstrip_by_none _ _ Hs).
Qed.

Lemma deduplicated_tags keep pattern content :
  let l := deduplicate_list (ContentExtractor.tag_list keep pattern content) in
  NoDup l
  /\ forall tag, In tag l ->
       normalize_tag tag = tag
       /\ forall c, In c tag -> re_word c = true \/ c = "-"%char.
Proof.
  cbn zeta.
  assert (Hn : forall tag,
             In tag (deduplicate_list (ContentExtractor.tag_list keep pattern content)) ->
             exists t, tag = normalize_tag t).
  { intros tag H. apply deduplicate_from_incl in H.
    now apply (tag_list_normalised keep pattern content). }
  split.
  - pose proof (deduplicate_from_nodup
                  (ContentExtractor.tag_list keep pattern content) []) as Hnd.
    fold (deduplicate_list (ContentExtractor.tag_list keep pattern content)) in Hnd.
    rewrite (map_ext_in _ (fun x => x)), map_id in Hnd; [exact Hnd|].
    intros tag H. destruct (Hn tag H) as [t ->]. apply normalised_key.
  - intros tag H. destruct (Hn tag H) as [t ->]. split.
    + apply normalize_tag_fixed, normalize_tag_chars.
    + intros c Hc. apply normalize_tag_chars in Hc as [Hc _].
      unfold code_allowed in Hc. apply orb_prop in Hc as [Hc|Hc]; [now left|].
      right. now apply Ascii.eqb_eq.
Qed.

(** Each of the six tag lists of a document holds distinct tags, and every
    tag is in normal form: [normalize_tag] leaves it as it is, and it is
    made of word characters and hyphens. *)
Theorem extract_tags_normalised (content : str) :
  let t := ContentExtractor.extract_tags content in
  Forall (fun l =>
            NoDup l
            /\ forall tag, In tag l ->
                 normalize_tag tag = tag
                 /\ forall c, In c tag -> re_word c = true \/ c = "-"%char)
         [languages t; frameworks t; tools t; domains t; patterns t; services t].
Proof.
  cbn zeta. unfold ContentExtractor.extract_tags.
  cbn [languages frameworks tools domains patterns services].
  repeat (apply Forall_cons; [apply deduplicated_tags|]). apply Forall_nil.
Qed.

(** ** The code blocks of a document *)

Lemma merge_blocks_incl bs : forall seen b,
  In b (SRPTDExtractor.merge_blocks seen bs) -> In b bs.
Proof.
  induction bs as [|block rest IH]; intros seen b; cbn [SRPTDExtractor.merge_blocks];
    [intros []|].
  destruct (existsb _ seen).
  - intro H. right. exact (IH _ _ H).
  - intros [<-|H]; [now left|]. right. exact (IH _ _ H).
Qed.

Lemma merge_blocks_fresh bs : forall seen b,
  In b (SRPTDExtractor.merge_blocks seen bs) ->
  ~ In (MD5.hexdigest (encode (code b))) seen.
Proof.
  induction bs as [|block rest IH]; intros seen b; cbn [SRPTDExtractor.merge_blocks];
    [intros []|].
  destruct (existsb _ seen) eqn:He.
  - apply IH.
  - intros [<-|H].
    + intro Hin. apply existsb_str_eqb in Hin. congruence.
    + intro Hin. apply (IH _ _ H). now right.
Qed.

Lemma merge_blocks_nodup bs : forall seen,
  NoDup (map (fun b => MD5.hexdigest (encode (code b)))
             (SRPTDExtractor.merge_blocks seen bs)).
Proof.
  induction bs as [|block rest IH]; intro seen; cbn [SRPTDExtractor.merge_blocks];
    [constructor|].
  destruct (existsb _ seen); [apply IH|].
  cbn [map]. constructor; [|apply IH].
  intro Hin. apply in_map_iff in Hin as [b [Hb Hin]].
  apply merge_blocks_fresh in Hin. apply Hin. left. now symmetry.
Qed.

(** No two code blocks of an extraction hold the same code, and the first
    block found is always kept. *)
Theorem code_written_distinct set_iter (path content : str) :
  let blocks := code_written (SRPTDExtractor.extract set_iter path content) in
  NoDup (map code blocks)
  /\ hd_error blocks
     = hd_error (ContentExtractor.extract_code_blocks
                   (get_or (L "code") [] (extract_sections content))
                 ++ ContentExtractor.extract_code_blocks content).
Proof.
  cbn zeta. unfold SRPTDExtractor.extract. cbn [code_written]. split.
  - apply (NoDup_map_inv (fun c => MD5.hexdigest (encode c))).
    rewrite map_map. apply merge_blocks_nodup.
  - destruct (_ ++ _) as [|b bs]; reflexivity.
Qed.

(** ** The warnings of a document *)

Lemma in_unless (b : bool) (m x : str) :
  In x (if b then [] else [m]) <-> b = false /\ m = x.
Proof. destruct b; cbn [In]; intuition discriminate. Qed.

Lemma in_if_empty {A} (l : list A) (m x : str) :
  In x (match l with [] => [m] | _ => [] end) <-> l = [] /\ m = x.
Proof. destruct l; cbn [In]; intuition discriminate. Qed.

Lemma generate_warnings_in metadata trigger workflow blocks tags w :
  In w (SRPTDExtractor._generate_warnings metadata trigger workflow blocks tags)
  <-> (truthy (date metadata) = false /\ L "Missing: metadata.date" = w)
      \/ (truthy (what_triggered trigger) = false
          /\ L "Missing: trigger.what_triggered" = w)
      \/ (high_level_steps workflow = []
          /\ L "Missing: workflow.high_level_steps" = w)
      \/ (blocks = [] /\ L "Empty: code_written.blocks" = w)
      \/ (languages tags = [] /\ L "Missing: tags.languages" = w)
      \/ (domains tags = [] /\ L "Missing: tags.domains" = w).
Proof.
  unfold SRPTDExtractor._generate_warnings.
  rewrite !in_app_iff, !in_unless, !in_if_empty. reflexivity.
Qed.

Ltac other_warning :=
  match goal with
  | H : _ /\ L _ = L _ |- _ => destruct H as [_ H]; vm_compute in H; discriminate H
  end.

Ltac this_warning :=
  rewrite generate_warnings_in; split;
  [ intros [H|[H|[H|[H|[H|H]]]]]; first [ exact (proj1 H) | other_warning ]
  | intro H; tauto ].

(** The warnings tell exactly which of the six fields the extraction
    returned empty: the date, the trigger, the steps, the code blocks, the
    languages and the domains, as they stand in the result. *)
Theorem parse_warnings_consistent set_iter (path content : str) :
  let e := SRPTDExtractor.extract set_iter path content in
  let warned w := In (L w) (parse_warnings e) in
  (warned "Missing: metadata.date" <-> truthy (date (metadata e)) = false)
  /\ (warned "Missing: trigger.what_triggered"
      <-> truthy (what_triggered (trigger e)) = false)
  /\ (warned "Missing: workflow.high_level_steps"
      <-> high_level_steps (workflow e) = [])
  /\ (warned "Empty: code_written.blocks" <-> code_written e = [])
  /\ (warned "Missing: tags.languages" <-> languages (tags e) = [])
  /\ (warned "Missing: tags.domains" <-> domains (tags e) = [])
  /\ forall w, In w (parse_warnings e) ->
       In w (map L ["Missing: metadata.date"; "Missing: trigger.what_triggered";
                    "Missing: workflow.high_level_steps"; "Empty: code_written.blocks";
                    "Missing: tags.languages"; "Missing: tags.domains"]).
Proof.
  cbn zeta. unfold SRPTDExtractor.extract.
  cbn [parse_warnings metadata trigger workflow code_written tags].
  split; [this_warning|]. split; [this_warning|]. split; [this_warning|].
  split; [this_warning|]. split; [this_warning|]. split; [this_warning|].
  intros w H. apply generate_warnings_in in H. cbn [map In].
  destruct H as [H|[H|[H|[H|[H|H]]]]]; destruct H as [_ H]; tauto.
Qed.

(** ** The form of a document id *)

Lemma le_bytes_length n : forall x, length (MD5.le_bytes n x) = n.
Proof. induction n as [|n IH]; intro x; cbn [MD5.le_bytes length]; [|rewrite IH]; reflexivity. Qed.

Lemma digest_length msg : length (MD5.digest msg) = 16.
Proof.
  unfold MD5.digest.
  destruct (fold_left MD5.compress _ MD5.init) as [[[a b] c] d].
  now rewrite !length_app, !le_bytes_length.
Qed.

Lemma hexdigest_length msg : length (MD5.hexdigest msg) = 32.
Proof.
  unfold MD5.hexdigest.
  assert (H : forall l : list Z,
             length (flat_map (fun b => [MD5.hex_digit (b / 16); MD5.hex_digit (b mod 16)]) l)
             = 2 * length l).
  { induction l as [|b l IH]; cbn [flat_map length app]; [reflexivity | rewrite IH; lia]. }
  now rewrite H, digest_length.
Qed.

Lemma hex_digit_in x : In (MD5.hex_digit x) (L "0123456789abcdef").
Proof.
  unfold MD5.hex_digit.
  destruct (nth_in_or_default (Z.to_nat x) (L "0123456789abcdef") "0"%char) as [H| ->].
  - exact H.
  - now left.
Qed.

Lemma hexdigest_chars msg c :
  In c (MD5.hexdigest msg) -> In c (L "0123456789abcdef").
Proof.
  unfold MD5.hexdigest. intro H. apply in_flat_map in H as [b [_ [<-|[<-|[]]]]];
    apply hex_digit_in.
Qed.

(** A document id is the stem of the path, an underscore, and exactly eight
    lowercase hexadecimal digits. *)
Theorem generate_doc_id_form (source_path content : str) :
  exists h,
    generate_doc_id source_path content = PathLib.stem source_path ++ L "_" ++ h
    /\ length h = 8
    /\ forall c, In c h -> In c (L "0123456789abcdef").
Proof.
  exists (firstn 8 (MD5.hexdigest (encode content))). split; [reflexivity|]. split.
  - rewrite length_firstn, hexdigest_length. reflexivity.
  - intros c Hc. apply (hexdigest_chars (encode content)).
    rewrite <- (firstn_skipn 8 (MD5.hexdigest (encode content))).
    apply in_app_iff. now left.
Qed.

(** ** The entries of a batch *)

Section BatchSources.

Variable set_iter : list (N * str) -> list (N * str).
Variable write_error : str -> option str.
Variables input_dir output_dir : str.

Abbreviation run_file :=
  (process_file set_iter write_error input_dir output_dir).

Abbreviation sources r := (map p_source (processed r) ++ map f_source (failed r)).

Abbreviation load_failure file :=
  {| f_source := PathLib.child input_dir (fst file);
     f_error := L "Failed to load file" |}.

Lemma process_file_sources r file :
  Permutation (sources (run_file r file))
              (sources r ++ [PathLib.child input_dir (fst file)])
  /\ (forall f, In f (failed r) -> In f (failed (run_file r file)))
  /\ (snd file = None -> In (load_failure file) (failed (run_file r file))).
Proof.
  unfold process_file. destruct (snd file) as [content|].
  - destruct (write_error _); cbn [processed failed p_source f_source].
    + rewrite map_app, !app_assoc. cbn [map f_source].
      repeat split; [reflexivity | | discriminate].
      intros f Hf. apply in_app_iff. now left.
    + rewrite map_app. cbn [map p_source].
      repeat split; [|tauto | discriminate].
      rewrite <- !app_assoc. apply Permutation_app_head, Permutation_app_comm.
  - cbn [processed failed]. rewrite map_app, !app_assoc. cbn [map f_source].
    repeat split; [reflexivity | |].
    + intros f Hf. apply in_app_iff. now left.
    + intros _. apply in_app_iff. right. now left.
Qed.

Lemma process_files_sources files : forall r,
  let r' := fold_left run_file files r in
  Permutation (sources r')
              (sources r ++ map (fun file => PathLib.child input_dir (fst file)) files)
  /\ (forall f, In f (failed r) -> In f (failed r'))
  /\ (forall file, In file files -> snd file = None -> In (load_failure file) (failed r')).
Proof.
  induction files as [|file files IH]; intro r; cbn [fold_left map].
  - cbn zeta. rewrite app_nil_r. repeat split; [reflexivity | tauto | intros f []].
  - destruct (IH (run_file r file)) as [Hp [Hf Hl]].
    destruct (process_file_sources r file) as [Hp' [Hf' Hl']].
    cbn zeta in *. split; [|split].
    + rewrite Hp, Hp', <- app_assoc. reflexivity.
    + intros f H. now apply Hf, Hf'.
    + intros f [<-|Hin] Hn; [apply Hf, Hl', Hn | now apply Hl].
Qed.

(** Every listed file is accounted for exactly once: the sources of the
    processed and of the failed entries are, together, the paths of the
    listed files, whatever fails on the way; and a file that cannot be
    loaded has a failed entry that says so. *)
Theorem process_directory_accounts_for_every_file
  (listing : PathLib.tree) (pattern : str) :
  let files := srptd_files pattern listing in
  let r := process_directory set_iter write_error listing input_dir output_dir pattern in
  Permutation (map p_source (processed r) ++ map f_source (failed r))
              (map (fun file => PathLib.child input_dir (fst file)) files)
  /\ forall file, In file files -> snd file = None ->
       In {| f_source := PathLib.child input_dir (fst file);
             f_error := L "Failed to load file" |} (failed r).
Proof.
  cbn zeta. unfold process_directory.
  destruct (process_files_sources (srptd_files pattern listing)
              {| processed := []; failed := [];
                 total := length (srptd_files pattern listing) |}) as [Hp [_ Hl]].
  cbn zeta in *. cbn [processed failed map app] in Hp. split; [exact Hp | exact Hl].
Qed.

End BatchSources.

(* ================================================================= *)
(** * Properties of the pipeline's file count *)




(* ================================================================= *)
(** * Properties of the document cards and of the buckets *)

(** ** [_normalize_tags] *)

(** The form that [_normalize_tags] gives to a tag. *)
Abbreviation card_tag x := (replace_char " " (L "-") (strip (lower x))).

Lemma normalize_step_string normalized x :
  DocCardGenerator.normalize_step normalized (JStr x)
  = Ok (match x with
        | [] => normalized
        | _ => if negb (existsb (str_eqb (card_tag x)) normalized)
                  && negb (str_eqb (card_tag x) (L "unknown"))
               then normalized ++ [card_tag x] else normalized
        end).
Proof.
  unfold DocCardGenerator.normalize_step. destruct x as [|c x]; [reflexivity|].
  cbn [is_true negb jlower bind].
  now destruct (negb (existsb _ normalized) && negb (str_eqb _ (L "unknown"))).
Qed.

Lemma normalize_tags_from tags : forall normalized,
  NoDup normalized -> ~ In (L "unknown") normalized ->
  exists out,
    for_each DocCardGenerator.normalize_step (map JStr tags) normalized = Ok out
    /\ NoDup out
    /\ ~ In (L "unknown") out
    /\ forall t, In t out <->
         In t normalized
         \/ exists x, In x tags /\ x <> [] /\ t = card_tag x /\ t <> L "unknown".
Proof.
  induction tags as [|x tags IH]; intros normalized Hnd Hu.
  - exists normalized. cbn [map for_each]. repeat split; try assumption.
    + now left.
    + intros [H|[x [[] _]]]. exact H.
  - cbn [map for_each]. rewrite normalize_step_string. cbn [bind].
    destruct x as [|c x'].
    + destruct (IH normalized Hnd Hu) as [out [He [Hn [Hk Hi]]]].
      exists out. repeat split; try assumption.
      * intro H. apply Hi in H as [H|[x [Hx H]]]; [now left|].
        right. exists x. split; [now right | exact H].
      * intros [H|[x [[<-|Hx] [Hne H]]]]; apply Hi; [now left | congruence |].
        right. exists x. now split.
    + set (x := c :: x') in *.
      destruct (existsb (str_eqb (card_tag x)) normalized) eqn:Hs; cbn [negb andb].
      * apply existsb_str_eqb in Hs.
        destruct (IH normalized Hnd Hu) as [out [He [Hn [Hk Hi]]]].
        exists out. repeat split; try assumption.
        -- intro H. apply Hi in H as [H|[y [Hy H]]]; [now left|].
           right. exists y. split; [now right | exact H].
        -- intros [H|[y [[<-|Hy] [Hne [-> Hu']]]]]; apply Hi;
             [now left | now left |].
           right. exists y. now repeat split.
      * destruct (str_eqb (card_tag x) (L "unknown")) eqn:Hun; cbn [negb].
        -- apply str_eqb_eq in Hun.
           destruct (IH normalized Hnd Hu) as [out [He [Hn [Hk Hi]]]].
           exists out. repeat split; try assumption.
           ++ intro H. apply Hi in H as [H|[y [Hy H]]]; [now left|].
              right. exists y. split; [now right | exact H].
           ++ intros [H|[y [[<-|Hy] [Hne [-> Hu']]]]]; apply Hi;
                [now left | congruence |].
              right. exists y. now repeat split.
        -- assert (Hfresh : ~ In (card_tag x) normalized).
           { intro H. apply existsb_str_eqb in H. congruence. }
           assert (Hnu : card_tag x <> L "unknown").
           { intro H. apply str_eqb_eq in H. congruence. }
           destruct (IH (normalized ++ [card_tag x])) as [out [He [Hn [Hk Hi]]]].
           { apply NoDup_app; [exact Hnd | repeat constructor; intros [] |].
             intros a Ha [<-|[]]. now apply Hfresh. }
           { intro H. apply in_app_iff in H as [H|[H|[]]]; [now apply Hu | now apply Hnu]. }
           exists out. repeat split; try assumption.
           ++ intro H. apply Hi in H as [H|[y [Hy H]]].
              ** apply in_app_iff in H as [H|[<-|[]]]; [now left|].
                 right. exists x. repeat split; [now left | discriminate | exact Hnu].
              ** right. exists y. split; [now right | exact H].
           ++ intros [H|[y [[<-|Hy] [Hne [-> Hu']]]]]; apply Hi.
              ** left. apply in_app_iff. now left.
              ** left. apply in_app_iff. right. now left.
              ** right. exists y. now repeat split.
Qed.

(** On a list of strings [_normalize_tags] does not fail; the tags it
    returns are distinct, none of them is ["unknown"], and they are the
    lowercased, stripped and hyphenated forms of the non-empty items,
    ["unknown"] left out. *)
Theorem normalize_tags_of_strings (tags : list str) :
  exists out,
    DocCardGenerator._normalize_tags (JList (map JStr tags)) = Ok out
    /\ NoDup out
    /\ ~ In (L "unknown") out
    /\ forall t, In t out <->
         exists x, In x tags /\ x <> []
                   /\ t = replace_char " " (L "-") (strip (lower x))
                   /\ t <> L "unknown".
Proof.
  destruct (normalize_tags_from tags []) as [out [He [Hn [Hk Hi]]]];
    [constructor | intros [] |].
  exists out. repeat split; try assumption.
  - intro H. apply Hi in H as [[]|H]. exact H.
  - intro H. apply Hi. now right.
Qed.

(** ** [create_buckets] *)

Lemma dict_get_set_eq {V} k k' (v : V) d :
  dict_get k (dict_set k' v d) = if str_eqb k k' then Some v else dict_get k d.
Proof.
  induction d as [|[k0 v0] d IH]; cbn [dict_set dict_get]; [reflexivity|].
  destruct (str_eqb k' k0) eqn:H0; cbn [dict_get].
  - apply str_eqb_eq in H0. subst k0. now destruct (str_eqb k k').
  - destruct (str_eqb k k0) eqn:H1; [|exact IH].
    apply str_eqb_eq in H1. subst k0.
    destruct (str_eqb k k') eqn:H2; [|reflexivity].
    apply str_eqb_eq in H2. subst k'. rewrite str_eqb_refl in H0. discriminate.
Qed.

Lemma dict_set_sum {V} (f : V -> nat) k (v : V) d :
  list_sum (map (fun kv => f (snd kv)) (dict_set k v d))
  + match dict_get k d with Some b => f b | None => 0 end
  = list_sum (map (fun kv => f (snd kv)) d) + f v.
Proof.
  induction d as [|[k0 v0] d IH]; cbn [dict_set dict_get]; [simpl; lia|].
  destruct (str_eqb k k0); simpl in *; lia.
Qed.

Lemma dict_set_length {V} k (v : V) d :
  length (dict_set k v d)
  = match dict_get k d with Some _ => length d | None => S (length d) end.
Proof.
  induction d as [|[k0 v0] d IH]; cbn [dict_set dict_get length]; [reflexivity|].
  destruct (str_eqb k k0); cbn [length]; [reflexivity|].
  rewrite IH. now destruct (dict_get k d).
Qed.

Import BucketGenerator.

(** The key under which [create_buckets] files a card, and the id it
    lists. *)
Abbreviation key_of card :=
  (match card with
   | JDict c => jget_or "bucket_key" (JStr (L "unknown__unknown")) c
   | _ => JNull
   end).

Abbreviation id_of card :=
  (match card with
   | JDict c => jget "doc_id" c
   | _ => JNull
   end).

Abbreviation keyed k :=
  (fun card : json => match key_of card with
                      | JStr x => str_eqb x k
                      | _ => false
                      end).

Abbreviation ids_at k buckets :=
  (match dict_get k buckets with
   | Some bucket => doc_ids bucket
   | None => []
   end).

Abbreviation sizes buckets := (map (fun kv : str * Bucket => doc_count (snd kv)) buckets).

(** What holds of every bucket. *)
Abbreviation bucket_ok k bucket :=
  (doc_ids bucket <> []
   /\ doc_count bucket = length (doc_ids bucket)
   /\ primary_domain bucket = nth 0 (split_str (L "__") k) (L "unknown")
   /\ primary_pattern bucket = nth 1 (split_str (L "__") k) (L "unknown")).

Lemma bucket_step_done buckets card buckets' :
  bucket_step buckets card = Done buckets' ->
  exists k, key_of card = JStr k
    /\ buckets' =
       dict_set k {| doc_ids := ids_at k buckets ++ [id_of card];
                     primary_domain := nth 0 (split_str (L "__") k) (L "unknown");
                     primary_pattern := nth 1 (split_str (L "__") k) (L "unknown");
                     doc_count := length (ids_at k buckets ++ [id_of card]) |}
                buckets.
Proof.
  unfold bucket_step. destruct card as [| | | |l|c]; try discriminate.
  destruct (jget_or "bucket_key" _ c) as [| | |k| |] eqn:Hk; try discriminate.
  unfold jget, get_or.
  destruct (dict_get (L "doc_id") c) as [id|]; [|discriminate].
  intro H. injection H as <-. exists k. split; reflexivity.
Qed.

Lemma bucket_step_keeps buckets card buckets' :
  bucket_step buckets card = Done buckets' ->
  (forall k b, dict_get k buckets = Some b -> bucket_ok k b) ->
  (forall k, ids_at k buckets' = ids_at k buckets
                                 ++ (if keyed k card then [id_of card] else []))
  /\ (forall k b, dict_get k buckets' = Some b -> bucket_ok k b)
  /\ list_sum (sizes buckets') = S (list_sum (sizes buckets))
  /\ length buckets' <= S (length buckets).
Proof.
  intros H Hok. apply bucket_step_done in H as [k0 [Hk ->]].
  split; [|split; [|split]].
  - intro k. rewrite dict_get_set_eq, Hk.
    destruct (str_eqb k k0) eqn:He.
    + apply str_eqb_eq in He. subst k0. now rewrite str_eqb_refl.
    + assert (Hr : str_eqb k0 k = false).
      { destruct (str_eqb k0 k) eqn:Hr; [|reflexivity].
        apply str_eqb_eq in Hr. subst k0. rewrite str_eqb_refl in He. discriminate. }
      rewrite Hr. now rewrite app_nil_r.
  - intros k b. rewrite dict_get_set_eq.
    destruct (str_eqb k k0) eqn:He; [|apply Hok].
    apply str_eqb_eq in He. subst k0. intro H. injection H as <-.
    cbn [doc_ids doc_count primary_domain primary_pattern].
    repeat split. intro H. now apply app_eq_nil in H as [_ H].
  - pose proof (dict_set_sum doc_count k0
                  {| doc_ids := ids_at k0 buckets ++ [id_of card];
                     primary_domain := nth 0 (split_str (L "__") k0) (L "unknown");
                     primary_pattern := nth 1 (split_str (L "__") k0) (L "unknown");
                     doc_count := length (ids_at k0 buckets ++ [id_of card]) |}
                  buckets) as Hs.
    cbn [doc_count] in Hs.
    destruct (dict_get k0 buckets) as [b|] eqn:Hg.
    + destruct (Hok k0 b Hg) as [_ [Hc _]].
      rewrite length_app in Hs |- *. cbn [length] in Hs |- *. lia.
    + cbn [app length] in Hs |- *. lia.
  - rewrite dict_set_length. destruct (dict_get k0 buckets); lia.
Qed.

Lemma create_buckets_from_keeps cards : forall buckets0 buckets,
  create_buckets_from buckets0 cards = Done buckets ->
  (forall k b, dict_get k buckets0 = Some b -> bucket_ok k b) ->
  (forall k, ids_at k buckets = ids_at k buckets0
                                ++ map (fun card => id_of card) (filter (keyed k) cards))
  /\ (forall k b, dict_get k buckets = Some b -> bucket_ok k b)
  /\ list_sum (sizes buckets) = list_sum (sizes buckets0) + length cards
  /\ length buckets <= length buckets0 + length cards.
Proof.
  induction cards as [|card cards IH]; intros buckets0 buckets H Hok;
    cbn [create_buckets_from] in H.
  - injection H as <-. cbn [filter map length].
    split; [|split; [|split]]; [intro k; now rewrite app_nil_r | exact Hok | lia | lia].
  - destruct (bucket_step buckets0 card) as [buckets1|e] eqn:Hs; [|discriminate].
    destruct (bucket_step_keeps _ _ _ Hs Hok) as [Hi [Hok1 [Hsum Hlen]]].
    destruct (IH _ _ H Hok1) as [Hi' [Hok' [Hsum' Hlen']]].
    split; [|split; [exact Hok'|split]].
    + intro k. rewrite Hi', Hi, <- app_assoc. f_equal. cbn [filter].
      now destruct (keyed k card).
    + cbn [length]. lia.
    + cbn [length]. lia.
Qed.

(** The buckets group the cards by key: a key has a bucket exactly when
    some card has that key, the bucket then lists the ids of those cards, in
    the order of the cards, and its count is their number. *)
Theorem create_buckets_groups_by_key (cards : list json) (buckets : dict Bucket) :
  create_buckets cards = Done buckets ->
  forall k,
    match dict_get k buckets with
    | Some bucket =>
        doc_ids bucket = map (fun card => id_of card) (filter (keyed k) cards)
        /\ doc_ids bucket <> []
        /\ doc_count bucket = length (doc_ids bucket)
    | None => filter (keyed k) cards = []
    end.
Proof.
  intros H k. unfold create_buckets in H.
  destruct (create_buckets_from_keeps cards [] buckets H) as [Hi [Hok _]];
    [intros k0 b Hb; discriminate Hb|].
  specialize (Hi k). cbn [dict_get app] in Hi.
  destruct (dict_get k buckets) as [b|] eqn:Hg.
  - destruct (Hok k b Hg) as [Hne [Hc _]]. now repeat split.
  - symmetry in Hi. now apply map_eq_nil in Hi.
Qed.

Lemma create_buckets_groups_by_key_witness :
  create_buckets example_cards = Done example_buckets
  /\ forall k,
       match dict_get k example_buckets with
       | Some bucket =>
           doc_ids bucket = map (fun card => id_of card) (filter (keyed k) example_cards)
           /\ doc_ids bucket <> []
           /\ doc_count bucket = length (doc_ids bucket)
       | None => filter (keyed k) example_cards = []
       end.
Proof.
  assert (H : create_buckets example_cards = Done example_buckets)
    by (vm_compute; reflexivity).
  split; [exact H|].
  exact (create_buckets_groups_by_key example_cards example_buckets H).
Defined.

(** ** The statistics of the buckets *)

Lemma bucket_step_nodup buckets card buckets' :
  bucket_step buckets card = Done buckets' ->
  NoDup (dict_keys buckets) -> NoDup (dict_keys buckets').
Proof.
  intros H Hnd. apply bucket_step_done in H as [k [_ ->]]. now apply dict_set_nodup.
Qed.

Lemma create_buckets_from_nodup cards : forall buckets0 buckets,
  create_buckets_from buckets0 cards = Done buckets ->
  NoDup (dict_keys buckets0) -> NoDup (dict_keys buckets).
Proof.
  induction cards as [|card cards IH]; intros buckets0 buckets H Hnd;
    cbn [create_buckets_from] in H.
  - now injection H as <-.
  - destruct (bucket_step buckets0 card) as [buckets1|e] eqn:Hs; [|discriminate].
    apply (IH _ _ H). now apply (bucket_step_nodup _ _ _ Hs).
Qed.

Lemma dict_in_get {V} k (v : V) d :
  NoDup (dict_keys d) -> In (k, v) d -> dict_get k d = Some v.
Proof.
  unfold dict_keys. induction d as [|[k0 v0] d IH]; cbn [map fst dict_get]; [intros _ []|].
  intros Hnd [H|H]; inversion Hnd as [|x l Hx Hl]; subst.
  - injection H as -> ->. now rewrite str_eqb_refl.
  - destruct (str_eqb k k0) eqn:He; [|now apply IH].
    apply str_eqb_eq in He. subst k0. exfalso. apply Hx.
    now apply (in_map fst) in H.
Qed.

Lemma fold_min_le l : forall a, fold_left Nat.min l a <= a.
Proof.
  induction l as [|x l IH]; intro a; cbn [fold_left]; [lia|].
  specialize (IH (Nat.min a x)). lia.
Qed.

Lemma fold_min_ge m l : forall a,
  m <= a -> (forall x, In x l -> m <= x) -> m <= fold_left Nat.min l a.
Proof.
  induction l as [|x l IH]; intros a Ha Hl; cbn [fold_left]; [exact Ha|].
  apply IH.
  - specialize (Hl x (or_introl eq_refl)). lia.
  - intros y Hy. apply Hl. now right.
Qed.

(** The statistics of the buckets made from a list of cards: the documents
    counted are the cards, no bucket is empty, and the documents of the
    bucket ["unknown__unknown"] are the cards with that key or with none. *)
Theorem statistics_of_created_buckets (cards : list json) (buckets : dict Bucket) :
  create_buckets cards = Done buckets ->
  let s := statistics buckets in
  total_documents s = length cards
  /\ total_buckets s <= length cards
  /\ unknown_bucket_docs s = length (filter (keyed (L "unknown__unknown")) cards)
  /\ singleton_buckets s <= total_buckets s
  /\ min_bucket_size s <= max_bucket_size s
  /\ (cards <> [] -> 1 <= min_bucket_size s).
Proof.
  intro H. cbn zeta. unfold create_buckets in H.
  destruct (create_buckets_from_keeps cards [] buckets H) as [Hi [Hok [Hsum Hlen]]];
    [intros k0 b Hb; discriminate Hb|].
  pose proof (create_buckets_from_nodup cards [] buckets H (NoDup_nil _)) as Hnd.
  unfold statistics.
  cbn [total_documents total_buckets unknown_bucket_docs singleton_buckets
       min_bucket_size max_bucket_size].
  cbn [map list_sum length] in Hsum, Hlen.
  split; [exact Hsum|]. split; [exact Hlen|]. split; [|split; [|split]].
  - specialize (Hi (L "unknown__unknown")). cbn [dict_get app] in Hi.
    destruct (dict_get (L "unknown__unknown") buckets) as [b|] eqn:Hg.
    + destruct (Hok _ b Hg) as [_ [Hc _]]. now rewrite Hc, Hi, length_map.
    + symmetry in Hi. apply map_eq_nil in Hi. now rewrite Hi.
  - rewrite <- (length_map (fun kv : str * Bucket => doc_count (snd kv)) buckets).
    apply filter_length_le.
  - destruct (sizes buckets) as [|x rest]; [cbn; lia|].
    pose proof (fold_min_le rest x). cbn [list_max fold_right]. lia.
  - intro Hne.
    assert (Hall : forall x, In x (sizes buckets) -> 1 <= x).
    { intros x Hx. apply in_map_iff in Hx as [[k b] [<- Hin]]. cbn [snd].
      destruct (Hok k b (dict_in_get _ _ _ Hnd Hin)) as [Hd [Hc _]].
      rewrite Hc. destruct (doc_ids b); [contradiction | cbn [length]; lia]. }
    destruct (sizes buckets) as [|x rest] eqn:Hsz.
    + cbn [list_sum] in Hsum. destruct cards; [contradiction | cbn [length] in Hsum; lia].
    + apply fold_min_ge; [apply Hall; now left|].
      intros y Hy. apply Hall. now right.
Qed.

Lemma statistics_of_created_buckets_witness :
  create_buckets example_cards = Done example_buckets
  /\ total_documents (statistics example_buckets) = 3
  /\ total_buckets (statistics example_buckets) <= 3
  /\ unknown_bucket_docs (statistics example_buckets)
     = length (filter (keyed (L "unknown__unknown")) example_cards)
  /\ singleton_buckets (statistics example_buckets)
     <= total_buckets (statistics example_buckets)
  /\ min_bucket_size (statistics example_buckets)
     <= max_bucket_size (statistics example_buckets)
  /\ (example_cards <> [] -> 1 <= min_bucket_size (statistics example_buckets)).
Proof.
  assert (H : create_buckets example_cards = Done example_buckets)
    by (vm_compute; reflexivity).
  split; [exact H|].
  exact (statistics_of_created_buckets example_cards example_buckets H).
Defined.

(** ** The primary tags of a bucket *)

Lemma split_dunder_absent s :
  contains (L "__") s = false -> split_str (L "__") s = [s].
Proof.
  unfold split_str. induction s as [|c t IH]; [reflexivity|].
  intro H. cbn [contains] in H. apply orb_false_elim in H as [Hs Ht].
  cbn [split_str_from]. rewrite Hs, (IH Ht). reflexivity.
Qed.

Lemma split_dunder_first d p :
  contains (L "__") d = false -> last d " "%char <> "_"%char ->
  split_str (L "__") (d ++ L "__" ++ p) = d :: split_str (L "__") p.
Proof.
  unfold split_str. induction d as [|c d IH]; intros Hc Hl.
  - reflexivity.
  - cbn [contains] in Hc. apply orb_false_elim in Hc as [Hs Hd].
    change ((c :: d) ++ L "__" ++ p) with (c :: (d ++ L "__" ++ p)).
    cbn [split_str_from].
    assert (Hn : startswith (L "__") (c :: d ++ L "__" ++ p) = false).
    { destruct d as [|c' d'].
      - cbn [last] in Hl. change (L "__") with ["_"%char; "_"%char].
        cbn [startswith app]. destruct (Ascii.eqb "_" c) eqn:He; [|reflexivity].
        apply Ascii.eqb_eq in He. congruence.
      - exact Hs. }
    rewrite Hn, IH; [reflexivity | exact Hd |].
    destruct d as [|c' d']; [cbn; discriminate | exact Hl].
Qed.

(** The primary domain and pattern of a bucket are read back from its key.
    They are the two tags the key was made of when the domain has no double
    underscore and does not end with an underscore, and the pattern has no
    double underscore. *)
Theorem bucket_primaries_round_trip
  (cards : list json) (buckets : dict Bucket) (d p : str) (bucket : Bucket) :
  create_buckets cards = Done buckets ->
  dict_get (d ++ L "__" ++ p) buckets = Some bucket ->
  contains (L "__") d = false ->
  last d " "%char <> "_"%char ->
  primary_domain bucket = d
  /\ (contains (L "__") p = false -> primary_pattern bucket = p).
Proof.
  intros H Hg Hd Hl. unfold create_buckets in H.
  destruct (create_buckets_from_keeps cards [] buckets H) as [_ [Hok _]];
    [intros k0 b Hb; discriminate Hb|].
  destruct (Hok _ _ Hg) as [_ [_ [Hpd Hpp]]].
  rewrite (split_dunder_first d p Hd Hl) in Hpd, Hpp. cbn [nth] in Hpd, Hpp.
  split; [exact Hpd|].
  intro Hp. rewrite (split_dunder_absent p Hp) in Hpp. exact Hpp.
Qed.

Lemma bucket_primaries_round_trip_witness :
  primary_domain {| doc_ids := [JStr (L "SR-PTD_01_0a1b2c3d"); JStr (L "SR-PTD_03_8c9d0e1f")];
                    primary_domain := L "web";
                    primary_pattern := L "crud";
                    doc_count := 2 |} = L "web"
  /\ (contains (L "__") (L "crud") = false ->
      primary_pattern {| doc_ids := [JStr (L "SR-PTD_01_0a1b2c3d");
                                     JStr (L "SR-PTD_03_8c9d0e1f")];
                         primary_domain := L "web";
                         primary_pattern := L "crud";
                         doc_count := 2 |} = L "crud").
Proof.
  apply (bucket_primaries_round_trip example_cards example_buckets (L "web") (L "crud")).
  - vm_compute. reflexivity.
  - vm_compute. reflexivity.
  - vm_compute. reflexivity.
  - vm_compute. discriminate.
Defined.

(** A domain tag with a double underscore is not read back: the bucket of
    the key made of the domain ["data__eng"] and the pattern ["etl"] has the
    primary domain ["data"] and the primary pattern ["eng"]. *)
Example bucket_primaries_lost :
  create_buckets [JDict [ (L "doc_id", JStr (L "doc"));
                          (L "bucket_key", JStr (L "data__eng" ++ L "__" ++ L "etl")) ]]
  = Done [ (L "data__eng__etl",
            {| doc_ids := [JStr (L "doc")];
               primary_domain := L "data";
               primary_pattern := L "eng";
               doc_count := 1 |}) ].
Proof. vm_compute. reflexivity. Qed.

(* ================================================================= *)
(** * Properties of the log parser *)

Lemma for_each_app {A B} (f : B -> A -> res B) l1 l2 acc :
  for_each f (l1 ++ l2) acc
  = let* acc' := for_each f l1 acc in for_each f l2 acc'.
Proof.
  revert acc. induction l1 as [|x l1 IH]; intro acc; cbn [app for_each bind]; [reflexivity|].
  destruct (f acc x) as [acc'|e]; cbn [bind]; [apply IH | reflexivity].
Qed.

Section LogFileFacts.

Variable py_str : json -> str.
Variable b64decode_utf8 : json -> option str.
Variable datetime : Type.
Variable fromtimestamp : Q -> option datetime.
Variable fromisoformat : str -> option datetime.
Variable json_loads : str -> option json.
Variable dt_lt : datetime -> datetime -> res bool.

Abbreviation parse_entry_ :=
  (LogEntryParser.parse_entry py_str b64decode_utf8 datetime fromtimestamp fromisoformat).
Abbreviation file_step_ :=
  (ClaudeLogsParser.file_step py_str b64decode_utf8 datetime fromtimestamp fromisoformat
     json_loads dt_lt).
Abbreviation parse_file_ :=
  (ClaudeLogsParser.parse_file py_str b64decode_utf8 datetime fromtimestamp fromisoformat
     json_loads dt_lt).
Abbreviation first_state :=
  (ClaudeLogsParser.FileState datetime [] JNull JNull JNull None None).

(** ** Tool uses *)

(** A record of type ["tool_use"] (in any case) that is parsed gives a
    message of role [TOOL] with exactly one tool use, and that message is
    substantial: [parse_file] never drops it for being short. *)
Theorem tool_use_entry_is_substantial
  (entry : dict json) (t : str) (m : Message datetime) :
  dict_get (L "type") entry = Some (JStr t) ->
  lower t = L "tool_use" ->
  parse_entry_ entry = Ok (Some m) ->
  role m = TOOL
  /\ length (tool_uses m) = 1
  /\ is_substantial m = Ok true.
Proof.
  intros Ht Hl. rewrite parse_entry_unfold.
  unfold LogEntryParser.parse_entry_body, LogEntryParser.dispatch, dict_has.
  rewrite Ht. unfold LogEntryParser._parse_typed_entry, jget_or, get_or.
  rewrite Ht. cbn [jlower bind]. rewrite Hl.
  change (str_eqb (L "tool_use") (L "human")) with false.
  change (str_eqb (L "tool_use") (L "user")) with false.
  change (str_eqb (L "tool_use") (L "assistant")) with false.
  change (str_eqb (L "tool_use") (L "ai")) with false.
  change (str_eqb (L "tool_use") (L "tool_use")) with true.
  cbn [orb]. unfold LogEntryParser._create_message.
  destruct (if is_true (jget "token_count" entry) then _ else _) as [tc|e];
    cbn [bind try_except]; [|discriminate].
  intro H. injection H as <-. cbn [role tool_uses length].
  repeat split. unfold is_substantial. cbn [content tool_uses nonempty].
  cbn [is_true L list_ascii_of_string app negb]. now rewrite orb_true_r.
Qed.

(** ** The messages of a file *)

Lemma file_step_messages st line st' :
  file_step_ st line = Ok st' ->
  ClaudeLogsParser.fs_messages _ st' = ClaudeLogsParser.fs_messages _ st
  \/ exists m, ClaudeLogsParser.fs_messages _ st' = ClaudeLogsParser.fs_messages _ st ++ [m]
               /\ is_substantial m = Ok true.
Proof.
  unfold ClaudeLogsParser.file_step.
  destruct (strip line) as [|c l]; [intro H; injection H as <-; now left|].
  destruct (json_loads (c :: l)) as [[| | | | |entry]|]; try discriminate;
    [|intro H; injection H as <-; now left].
  destruct (is_str "init" _); [intro H; injection H as <-; now left|].
  destruct (is_str "summary" _); [intro H; injection H as <-; now left|].
  destruct (LogEntryParser.parse_entry _ _ _ _ _ entry) as [[m|]|e]; cbn [bind];
    [|intro H; injection H as <-; now left|discriminate].
  destruct (is_substantial m) as [[|]|e] eqn:Hs; cbn [bind];
    [|intro H; injection H as <-; now left|discriminate].
  destruct (ClaudeLogsParser.track _ _ st m) as [times|e]; cbn [bind]; [|discriminate].
  intro H. injection H as <-. right. exists m. now split.
Qed.

Lemma for_each_file_step_messages ls : forall st st',
  for_each file_step_ ls st = Ok st' ->
  Forall (fun m => is_substantial m = Ok true) (ClaudeLogsParser.fs_messages _ st) ->
  Forall (fun m => is_substantial m = Ok true) (ClaudeLogsParser.fs_messages _ st').
Proof.
  induction ls as [|line ls IH]; intros st st' H Hst; cbn [for_each] in H.
  - now injection H as <-.
  - destruct (file_step_ st line) as [st1|e] eqn:Hs; cbn [bind] in H; [|discriminate].
    apply (IH _ _ H).
    destruct (file_step_messages _ _ _ Hs) as [->|[m [-> Hm]]]; [exact Hst|].
    apply Forall_app. split; [exact Hst | now constructor].
Qed.

(** A conversation that [parse_file] returns has at least one message,
    all its messages are substantial, and it is named after the file. *)
Theorem parse_file_keeps_substantial_messages
  (file_path : str) (file : log_file) (conv : Conversation datetime) :
  parse_file_ file_path file = Ok (Some conv) ->
  messages conv <> []
  /\ Forall (fun m => is_substantial m = Ok true) (messages conv)
  /\ session_id conv = PathLib.stem file_path
  /\ source_file conv = file_path.
Proof.
  unfold ClaudeLogsParser.parse_file. destruct file as [|ls e]; [discriminate|].
  destruct (for_each _ ls _) as [st|e0] eqn:Hf; cbn [bind]; [|discriminate].
  destruct e; try discriminate.
  pose proof (for_each_file_step_messages ls _ st Hf (Forall_nil _)) as Hall.
  destruct (ClaudeLogsParser.fs_messages _ st) as [|m ms] eqn:Hm; [discriminate|].
  destruct (ClaudeLogsParser.sum_tokens _ _) as [total|e]; cbn [bind]; [|discriminate].
  intro H. injection H as <-. cbn [messages session_id source_file].
  repeat split; [discriminate | exact Hall].
Qed.

(** ** Lines that are skipped, and lines that stop the parse *)

Lemma file_step_skips st line :
  strip line = [] \/ json_loads (strip line) = None ->
  file_step_ st line = Ok st.
Proof.
  unfold ClaudeLogsParser.file_step. intros [H|H].
  - now rewrite H.
  - destruct (strip line) as [|c l]; [reflexivity | now rewrite H].
Qed.

(** A blank line and a line that is not JSON change nothing: the file is
    parsed as if the line were not there. *)
Theorem parse_file_skips_blank_and_invalid_lines
  (file_path : str) (before_ after_ : list str) (line : str) (e : read_end) :
  strip line = [] \/ json_loads (strip line) = None ->
  parse_file_ file_path (Lines (before_ ++ line :: after_) e)
  = parse_file_ file_path (Lines (before_ ++ after_) e).
Proof.
  intro H. unfold ClaudeLogsParser.parse_file. rewrite !for_each_app.
  destruct (for_each _ before_ _) as [st|e0]; cbn [bind]; [|reflexivity].
  cbn [for_each]. now rewrite (file_step_skips st line H).
Qed.

(** A line that holds JSON other than an object stops the parse with an
    exception, wherever it is in the file: [parse_file] returns nothing. *)
Theorem parse_file_raises_on_non_object_line
  (file_path : str) (before_ after_ : list str) (line : str) (v : json) (e : read_end) :
  json_loads (strip line) = Some v ->
  strip line <> [] ->
  (forall entry, v <> JDict entry) ->
  exists exc,
    parse_file_ file_path (Lines (before_ ++ line :: after_) e) = Raise exc.
Proof.
  intros Hv Hne Hd. unfold ClaudeLogsParser.parse_file. rewrite for_each_app.
  destruct (for_each _ before_ _) as [st|e0]; cbn [bind]; [|now exists e0].
  exists AttributeError. cbn [for_each].
  assert (Hs : file_step_ st line = Raise AttributeError).
  { unfold ClaudeLogsParser.file_step.
    destruct (strip line) as [|c l]; [contradiction|]. rewrite Hv.
    destruct v; try reflexivity. exfalso. now apply (Hd d). }
  now rewrite Hs.
Qed.

End LogFileFacts.

Lemma tool_use_entry_is_substantial_witness :
  role ClaudeLogsParser.tool_message = TOOL
  /\ length (tool_uses ClaudeLogsParser.tool_message) = 1
  /\ is_substantial ClaudeLogsParser.tool_message = Ok true.
Proof.
  apply (tool_use_entry_is_substantial ClaudeLogsParser.example_str (fun _ => None) Z
           (fun _ => None) (fun _ => None)
           ClaudeLogsParser.tool_entry (L "tool_use") ClaudeLogsParser.tool_message);
    vm_compute; reflexivity.
Defined.

Lemma parse_file_keeps_substantial_messages_witness :
  messages ClaudeLogsParser.tool_conversation <> []
  /\ Forall (fun m => is_substantial m = Ok true)
            (messages ClaudeLogsParser.tool_conversation)
  /\ session_id ClaudeLogsParser.tool_conversation = PathLib.stem (L "logs/session.jsonl")
  /\ source_file ClaudeLogsParser.tool_conversation = L "logs/session.jsonl".
Proof.
  apply (parse_file_keeps_substantial_messages ClaudeLogsParser.example_str
           (fun _ => None) Z (fun _ => None) (fun _ => None)
           ClaudeLogsParser.example_loads (fun a b => Ok (Z.ltb a b))
           (L "logs/session.jsonl")
           (Lines [ClaudeLogsParser.tool_line ++ [nl]; L "  " ++ [nl]; L "not json"] Eof)).
  vm_compute. reflexivity.
Defined.

Lemma parse_file_skips_blank_and_invalid_lines_witness :
  ClaudeLogsParser.parse_file ClaudeLogsParser.example_str (fun _ => None) Z
    (fun _ => None) (fun _ => None) ClaudeLogsParser.example_loads
    (fun a b => Ok (Z.ltb a b)) (L "logs/session.jsonl")
    (Lines ([ClaudeLogsParser.tool_line ++ [nl]] ++ L "not json" :: []) Eof)
  = ClaudeLogsParser.parse_file ClaudeLogsParser.example_str (fun _ => None) Z
      (fun _ => None) (fun _ => None) ClaudeLogsParser.example_loads
      (fun a b => Ok (Z.ltb a b)) (L "logs/session.jsonl")
      (Lines ([ClaudeLogsParser.tool_line ++ [nl]] ++ []) Eof).
Proof.
  apply parse_file_skips_blank_and_invalid_lines.
  right. vm_compute. reflexivity.
Defined.

Lemma parse_file_raises_on_non_object_line_witness :
  exists exc,
    ClaudeLogsParser.parse_file ClaudeLogsParser.example_str (fun _ => None) Z
      (fun _ => None) (fun _ => None) ClaudeLogsParser.example_loads
      (fun a b => Ok (Z.ltb a b)) (L "logs/session.jsonl")
      (Lines ([ClaudeLogsParser.tool_line ++ [nl]] ++ (L "[1, 2]" ++ [nl]) :: []) Eof)
    = Raise exc.
Proof.
  apply (parse_file_raises_on_non_object_line ClaudeLogsParser.example_str
           (fun _ => None) Z (fun _ => None) (fun _ => None)
           ClaudeLogsParser.example_loads (fun a b => Ok (Z.ltb a b))
           (L "logs/session.jsonl") [ClaudeLogsParser.tool_line ++ [nl]] []
           (L "[1, 2]" ++ [nl]) (JList [JNum 1; JNum 2]) Eof).
  - vm_compute. reflexivity.
  - vm_compute. discriminate.
  - intros entry H. discriminate H.
Defined.

(** ** The time span of a conversation *)

Section LogTimeFacts.

Variable py_str : json -> str.
Variable b64decode_utf8 : json -> option str.
Variable datetime : Type.
Variable fromtimestamp : Q -> option datetime.
Variable fromisoformat : str -> option datetime.
Variable json_loads : str -> option json.
Variable dt_lt : datetime -> datetime -> res bool.

(** The timestamps of the file can all be compared, by a strict order. *)
Variable ltb : datetime -> datetime -> bool.
Hypothesis dt_lt_ltb : forall a b, dt_lt a b = Ok (ltb a b).
Hypothesis ltb_irrefl : forall a, ltb a a = false.
Hypothesis ltb_trans : forall a b c, ltb a b = true -> ltb b c = true -> ltb a c = true.

Abbreviation timed_step :=
  (ClaudeLogsParser.file_step py_str b64decode_utf8 datetime fromtimestamp fromisoformat
     json_loads dt_lt).

(** The span holds every timestamp and is made of timestamps of messages. *)
Abbreviation spans start end_ msgs :=
  (Forall (fun m : Message datetime =>
             match timestamp m with
             | Some t => exists s e, start = Some s /\ end_ = Some e
                                     /\ ltb t s = false /\ ltb e t = false
             | None => True
             end) msgs
   /\ (forall s, start = Some s -> exists m, In m msgs /\ timestamp m = Some s)
   /\ (forall e, end_ = Some e -> exists m, In m msgs /\ timestamp m = Some e)).

Abbreviation state_spans st :=
  (spans (ClaudeLogsParser.fs_start_time _ st) (ClaudeLogsParser.fs_end_time _ st)
         (ClaudeLogsParser.fs_messages _ st)).

Lemma ltb_false_trans a b c :
  ltb a b = false -> ltb c b = true -> ltb a c = false.
Proof.
  intros Hab Hcb. destruct (ltb a c) eqn:Hac; [|reflexivity].
  rewrite (ltb_trans a c b Hac Hcb) in Hab. discriminate.
Qed.

Lemma ltb_false_trans' a b c :
  ltb b a = false -> ltb b c = true -> ltb c a = false.
Proof.
  intros Hba Hbc. destruct (ltb c a) eqn:Hca; [|reflexivity].
  rewrite (ltb_trans b c a Hbc Hca) in Hba. discriminate.
Qed.

Lemma track_spans st m times :
  ClaudeLogsParser.track _ dt_lt st m = Ok times ->
  state_spans st ->
  spans (fst times) (snd times) (ClaudeLogsParser.fs_messages _ st ++ [m]).
Proof.
  unfold ClaudeLogsParser.track. intros H [Hall [Hs He]].
  destruct (timestamp m) as [t|] eqn:Ht.
  - destruct (ClaudeLogsParser.fs_start_time _ st) as [s|] eqn:Hstart;
      destruct (ClaudeLogsParser.fs_end_time _ st) as [e|] eqn:Hend;
      rewrite ?dt_lt_ltb in H; cbn [bind] in H; injection H as <-; cbn [fst snd].
    + split; [|split].
      * apply Forall_app. split.
        -- eapply Forall_impl; [|exact Hall]. intros m0 Hm0. cbn beta in Hm0 |- *.
           destruct (timestamp m0) as [t0|]; [|exact I].
           destruct Hm0 as [s0 [e0 [Hs0 [He0 [Hl0 Hg0]]]]].
           injection Hs0 as <-. injection He0 as <-.
           exists (if ltb t s then t else s), (if ltb e t then t else e).
           repeat split.
           ++ destruct (ltb t s) eqn:Hts; [|exact Hl0].
              now apply (ltb_false_trans t0 s t).
           ++ destruct (ltb e t) eqn:Het; [|exact Hg0].
              now apply (ltb_false_trans' t0 e t).
        -- constructor; [|constructor]. rewrite Ht.
           exists (if ltb t s then t else s), (if ltb e t then t else e).
           repeat split.
           ++ destruct (ltb t s) eqn:Hts; [apply ltb_irrefl | exact Hts].
           ++ destruct (ltb e t) eqn:Het; [apply ltb_irrefl | exact Het].
      * intros s0 H0. injection H0 as <-. destruct (ltb t s).
        -- exists m. split; [apply in_app_iff; right; now left | exact Ht].
        -- destruct (Hs s eq_refl) as [m0 [Hin Hm0]].
           exists m0. split; [apply in_app_iff; now left | exact Hm0].
      * intros e0 H0. injection H0 as <-. destruct (ltb e t).
        -- exists m. split; [apply in_app_iff; right; now left | exact Ht].
        -- destruct (He e eq_refl) as [m0 [Hin Hm0]].
           exists m0. split; [apply in_app_iff; now left | exact Hm0].
    + destruct (Hs s eq_refl) as [m0 [Hin Hm0]].
      rewrite Forall_forall in Hall. specialize (Hall m0 Hin). rewrite Hm0 in Hall.
      destruct Hall as [s0 [e0 [_ [He0 _]]]]. discriminate He0.
    + destruct (He e eq_refl) as [m0 [Hin Hm0]].
      rewrite Forall_forall in Hall. specialize (Hall m0 Hin). rewrite Hm0 in Hall.
      destruct Hall as [s0 [e0 [Hs0 _]]]. discriminate Hs0.
    + split; [|split].
      * apply Forall_app. split.
        -- eapply Forall_impl; [|exact Hall]. intros m0 Hm0. cbn beta in Hm0 |- *.
           destruct (timestamp m0) as [t0|]; [|exact I].
           destruct Hm0 as [s0 [e0 [Hs0 _]]]. discriminate Hs0.
        -- constructor; [|constructor]. rewrite Ht.
           exists t, t. repeat split; apply ltb_irrefl.
      * intros s0 H0. injection H0 as <-.
        exists m. split; [apply in_app_iff; right; now left | exact Ht].
      * intros e0 H0. injection H0 as <-.
        exists m. split; [apply in_app_iff; right; now left | exact Ht].
  - injection H as <-. cbn [fst snd]. split; [|split].
    + apply Forall_app. split; [exact Hall|].
      constructor; [|constructor]. now rewrite Ht.
    + intros s H0. destruct (Hs s H0) as [m0 [Hin Hm0]].
      exists m0. split; [apply in_app_iff; now left | exact Hm0].
    + intros e H0. destruct (He e H0) as [m0 [Hin Hm0]].
      exists m0. split; [apply in_app_iff; now left | exact Hm0].
Qed.

Lemma file_step_spans st line st' :
  timed_step st line = Ok st' -> state_spans st -> state_spans st'.
Proof.
  unfold ClaudeLogsParser.file_step. intros H Hst.
  destruct (strip line) as [|c l]; [now injection H as <-|].
  destruct (json_loads (c :: l)) as [[| | | | |entry]|]; try discriminate;
    [|now injection H as <-].
  destruct (is_str "init" _); [now injection H as <-|].
  destruct (is_str "summary" _); [now injection H as <-|].
  destruct (LogEntryParser.parse_entry _ _ _ _ _ entry) as [[m|]|e]; cbn [bind] in H;
    [|now injection H as <-|discriminate].
  destruct (is_substantial m) as [[|]|e]; cbn [bind] in H;
    [|now injection H as <-|discriminate].
  destruct (ClaudeLogsParser.track _ dt_lt st m) as [times|e] eqn:Htr; cbn [bind] in H;
    [|discriminate].
  injection H as <-.
  cbn [ClaudeLogsParser.fs_start_time ClaudeLogsParser.fs_end_time
       ClaudeLogsParser.fs_messages].
  now apply track_spans.
Qed.

Lemma for_each_file_step_spans ls : forall st st',
  for_each timed_step ls st = Ok st' -> state_spans st -> state_spans st'.
Proof.
  induction ls as [|line ls IH]; intros st st' H Hst; cbn [for_each] in H.
  - now injection H as <-.
  - destruct (timed_step st line) as [st1|e] eqn:Hs; cbn [bind] in H; [|discriminate].
    apply (IH _ _ H). now apply (file_step_spans _ _ _ Hs).
Qed.

(** When the timestamps of a file can be compared, the start and the end
    of the conversation are timestamps of its messages and no message is
    earlier than the start or later than the end. *)
Theorem parse_file_time_span
  (file_path : str) (file : log_file) (conv : Conversation datetime) :
  ClaudeLogsParser.parse_file py_str b64decode_utf8 datetime fromtimestamp fromisoformat
    json_loads dt_lt file_path file = Ok (Some conv) ->
  Forall (fun m => match timestamp m with
                   | Some t => exists s e, start_time conv = Some s
                                           /\ end_time conv = Some e
                                           /\ ltb t s = false /\ ltb e t = false
                   | None => True
                   end) (messages conv)
  /\ (forall s, start_time conv = Some s ->
        exists m, In m (messages conv) /\ timestamp m = Some s)
  /\ (forall e, end_time conv = Some e ->
        exists m, In m (messages conv) /\ timestamp m = Some e).
Proof.
  unfold ClaudeLogsParser.parse_file. destruct file as [|ls e]; [discriminate|].
  destruct (for_each _ ls _) as [st|e0] eqn:Hf; cbn [bind]; [|discriminate].
  destruct e; try discriminate.
  assert (Hsp : state_spans st).
  { apply (for_each_file_step_spans ls _ st Hf).
    cbn [ClaudeLogsParser.fs_start_time ClaudeLogsParser.fs_end_time
         ClaudeLogsParser.fs_messages].
    split; [constructor | split; intros x Hx; discriminate Hx]. }
  destruct (ClaudeLogsParser.fs_messages _ st) as [|m ms] eqn:Hm; [discriminate|].
  destruct (ClaudeLogsParser.sum_tokens _ _) as [total|e]; cbn [bind]; [|discriminate].
  intro H. injection H as <-. cbn [messages start_time end_time]. exact Hsp.
Qed.

End LogTimeFacts.

Lemma parse_file_time_span_witness :
  Forall (fun m => match timestamp m with
                   | Some t =>
                       exists s e, start_time ClaudeLogsParser.timed_conversation = Some s
                                   /\ end_time ClaudeLogsParser.timed_conversation = Some e
                                   /\ Z.ltb t s = false /\ Z.ltb e t = false
                   | None => True
                   end) (messages ClaudeLogsParser.timed_conversation)
  /\ (forall s, start_time ClaudeLogsParser.timed_conversation = Some s ->
        exists m, In m (messages ClaudeLogsParser.timed_conversation)
                  /\ timestamp m = Some s)
  /\ (forall e, end_time ClaudeLogsParser.timed_conversation = Some e ->
        exists m, In m (messages ClaudeLogsParser.timed_conversation)
                  /\ timestamp m = Some e).
Proof.
  apply (parse_file_time_span ClaudeLogsParser.example_str (fun _ => None) Z
           (fun q => Some (Qnum q / Z.pos (Qden q))%Z) (fun _ => None)
           ClaudeLogsParser.example_loads (fun a b => Ok (Z.ltb a b)) Z.ltb
           (fun a b => eq_refl) Z.ltb_irrefl
           (fun a b c Hab Hbc =>
              proj2 (Z.ltb_lt a c)
                    (Z.lt_trans a b c (proj1 (Z.ltb_lt a b) Hab) (proj1 (Z.ltb_lt b c) Hbc)))
           (L "logs/session.jsonl")
           (Lines [ClaudeLogsParser.tool_line ++ [nl]; ClaudeLogsParser.timed_line ++ [nl]]
                  Eof)).
  vm_compute. reflexivity.
Defined.

(** ** The complexity of a conversation *)

Lemma set_of_app l l' : forall seen,
  set_of seen (l ++ l') = let* s := set_of seen l in set_of s l'.
Proof.
  induction l as [|v l IH]; intro seen; cbn [app set_of]; [reflexivity|].
  destruct (hashable v); [apply IH | reflexivity].
Qed.

Lemma set_of_grows l : forall seen s,
  set_of seen l = Ok s -> length seen <= length s.
Proof.
  induction l as [|v l IH]; intros seen s H; cbn [set_of] in H.
  - injection H as <-. lia.
  - destruct (hashable v); [|discriminate]. apply IH in H.
    destruct (existsb (py_eqb v) seen); [exact H|].
    rewrite length_app in H. lia.
Qed.

Lemma over_mono a n n' : n <= n' -> Nat.ltb a n = true -> Nat.ltb a n' = true.
Proof. intros Hn H. apply Nat.ltb_lt in H. apply Nat.ltb_lt. lia. Qed.

Lemma over_any_mono a b c n n' t t' u u' :
  n <= n' -> t <= t' -> u <= u' ->
  Nat.ltb a n || Nat.ltb b t || Nat.ltb c u = true ->
  Nat.ltb a n' || Nat.ltb b t' || Nat.ltb c u' = true.
Proof.
  intros Hn Ht Hu H.
  apply orb_prop in H as [H|H]; [apply orb_prop in H as [H|H]|].
  - now rewrite (over_mono a n n' Hn H).
  - rewrite (over_mono b t t' Ht H). now rewrite orb_true_r.
  - rewrite (over_mono c u u' Hu H). now rewrite orb_true_r.
Qed.

(** The estimated complexity never goes down when messages are added to a
    conversation: ["High"] stays ["High"], and ["Medium"] does not fall back
    to ["Low"]. *)
Theorem estimate_complexity_monotone {datetime}
  (msgs more : list (Message datetime)) (c c' : Complexity) :
  estimate_complexity msgs = Ok c ->
  estimate_complexity (msgs ++ more) = Ok c' ->
  (c = High -> c' = High) /\ (c = Medium -> c' <> Low).
Proof.
  unfold estimate_complexity, unique_tools, all_tool_uses. cbn zeta.
  rewrite flat_map_app, map_app, set_of_app, !length_app.
  destruct (set_of [] (map tool_name (flat_map tool_uses msgs))) as [s|e] eqn:Hs;
    cbn [bind]; [|discriminate].
  destruct (set_of s (map tool_name (flat_map tool_uses more))) as [s'|e] eqn:Hs';
    cbn [bind]; [|discriminate].
  apply set_of_grows in Hs'.
  pose proof (over_any_mono 30 20 5 (length msgs) (length msgs + length more)
                (length (flat_map tool_uses msgs))
                (length (flat_map tool_uses msgs) + length (flat_map tool_uses more))
                (length s) (length s')) as Hhigh.
  pose proof (over_any_mono 15 10 3 (length msgs) (length msgs + length more)
                (length (flat_map tool_uses msgs))
                (length (flat_map tool_uses msgs) + length (flat_map tool_uses more))
                (length s) (length s')) as Hmed.
  destruct (Nat.ltb 30 (length msgs) || _ || _) eqn:H1.
  - rewrite Hhigh by (lia || reflexivity).
    intros H H'. injection H as <-. injection H' as <-. split; [reflexivity | discriminate].
  - destruct (Nat.ltb 15 (length msgs) || _ || _) eqn:H2.
    + rewrite Hmed by (lia || reflexivity).
      intro H. injection H as <-.
      match goal with
      | |- (if ?b then _ else _) = _ -> _ => destruct b
      end; intro H'; injection H' as <-; split; discriminate.
    + intros H H'. injection H as <-. split; discriminate.
Qed.

Lemma estimate_complexity_monotone_witness :
  (Medium = High -> High = High) /\ (Medium = Medium -> High <> Low).
Proof.
  apply (estimate_complexity_monotone
           (repeat ClaudeLogsParser.tool_message 16)
           (repeat ClaudeLogsParser.timed_message 15) Medium High);
    vm_compute; reflexivity.
Defined.

(** ** The conversations of a directory *)

Section LogDirectoryFacts.

Variable py_str : json -> str.
Variable b64decode_utf8 : json -> option str.
Variable datetime : Type.
Variable fromtimestamp : Q -> option datetime.
Variable fromisoformat : str -> option datetime.
Variable json_loads : str -> option json.
Variable dt_lt : datetime -> datetime -> res bool.

Abbreviation parse_file_in :=
  (ClaudeLogsParser.parse_file py_str b64decode_utf8 datetime fromtimestamp fromisoformat
     json_loads dt_lt).

Lemma parse_file_some_messages file_path file conv :
  parse_file_in file_path file = Ok (Some conv) -> 1 <= length (messages conv).
Proof.
  unfold ClaudeLogsParser.parse_file. destruct file as [|ls e]; [discriminate|].
  destruct (for_each _ ls _) as [st|e0]; cbn [bind]; [|discriminate].
  destruct e; try discriminate.
  destruct (ClaudeLogsParser.fs_messages _ st) as [|m ms] eqn:Hm; [discriminate|].
  destruct (ClaudeLogsParser.sum_tokens _ _) as [total|e]; cbn [bind]; [|discriminate].
  intro H. injection H as <-. cbn [messages length]. lia.
Qed.

Abbreviation keep_conversation min_messages :=
  (fun conversations (f : str * log_file) =>
     let* conv := parse_file_in (fst f) (snd f) in
     match conv with
     | Some c =>
         if Nat.leb min_messages (length (messages c))
         then Ok (conversations ++ [c]) else Ok conversations
     | None => Ok conversations
     end).

Lemma keep_conversations_bounds min_messages files : forall acc convs,
  for_each (keep_conversation min_messages) files acc = Ok convs ->
  Forall (fun c : Conversation datetime =>
            min_messages <= length (messages c) /\ 1 <= length (messages c)) acc ->
  Forall (fun c : Conversation datetime =>
            min_messages <= length (messages c) /\ 1 <= length (messages c)) convs
  /\ length convs <= length acc + length files.
Proof.
  induction files as [|f files IH]; intros acc convs H Hacc; cbn [for_each] in H.
  - injection H as <-. split; [exact Hacc | cbn [length]; lia].
  - destruct (parse_file_in (fst f) (snd f)) as [[c|]|e] eqn:Hp; cbn [bind] in H;
      [| |discriminate].
    + destruct (Nat.leb min_messages (length (messages c))) eqn:Hmin.
      * destruct (IH _ _ H) as [Hall Hlen].
        { apply Forall_app. split; [exact Hacc|].
          constructor; [|constructor]. split.
          - now apply Nat.leb_le.
          - now apply (parse_file_some_messages (fst f) (snd f)). }
        split; [exact Hall|]. rewrite length_app in Hlen. cbn [length] in *. lia.
      * destruct (IH _ _ H Hacc) as [Hall Hlen].
        split; [exact Hall | cbn [length]; lia].
    + destruct (IH _ _ H Hacc) as [Hall Hlen].
      split; [exact Hall | cbn [length]; lia].
Qed.

(** Every conversation that [parse_directory] returns has at least
    [min_messages] messages and at least one; there are no more
    conversations than files, nor than a positive [max_files]. *)
Theorem parse_directory_bounds
  (log_files : list (str * log_file)) (max_files : option nat) (min_messages : nat)
  (convs : list (Conversation datetime)) :
  ClaudeLogsParser.parse_directory py_str b64decode_utf8 datetime fromtimestamp
    fromisoformat json_loads dt_lt log_files max_files min_messages = Ok convs ->
  Forall (fun c => min_messages <= length (messages c) /\ 1 <= length (messages c)) convs
  /\ length convs <= length log_files
  /\ match max_files with
     | Some (S n) => length convs <= S n
     | _ => True
     end.
Proof.
  unfold ClaudeLogsParser.parse_directory. intro H.
  apply keep_conversations_bounds in H as [Hall Hlen]; [|constructor].
  split; [exact Hall|]. cbn [length] in Hlen.
  destruct max_files as [[|n]|]; try (split; [exact Hlen | exact I]).
  rewrite length_firstn in Hlen. split; lia.
Qed.

End LogDirectoryFacts.

Lemma parse_directory_bounds_witness :
  Forall (fun c : Conversation Z => 1 <= length (messages c) /\ 1 <= length (messages c))
         [ClaudeLogsParser.tool_conversation]
  /\ length [ClaudeLogsParser.tool_conversation]
     <= length [(L "logs/session.jsonl", Lines [ClaudeLogsParser.tool_line ++ [nl]] Eof);
                (L "logs/empty.jsonl", Lines [] Eof)]
  /\ length [ClaudeLogsParser.tool_conversation] <= 2.
Proof.
  apply (parse_directory_bounds ClaudeLogsParser.example_str (fun _ => None) Z
           (fun _ => None) (fun _ => None) ClaudeLogsParser.example_loads
           (fun a b => Ok (Z.ltb a b))
           [(L "logs/session.jsonl", Lines [ClaudeLogsParser.tool_line ++ [nl]] Eof);
            (L "logs/empty.jsonl", Lines [] Eof)]
           (Some 2) 1 [ClaudeLogsParser.tool_conversation]).
  vm_compute. reflexivity.
Defined.

(** ** The file of a bucket *)

Lemma replace_char_one a b s :
  replace_char a [b] s = map (fun c => if Ascii.eqb c a then b else c) s.
Proof.
  unfold replace_char. induction s as [|c s IH]; cbn [flat_map map]; [reflexivity|].
  rewrite IH. now destruct (Ascii.eqb c a).
Qed.

(** The file name of a bucket has the length of the key and holds neither
    a slash nor a backslash; a key without them is its own file name. *)
Theorem safe_key_has_no_separator (bucket_key : str) :
  length (BucketGenerator.safe_key bucket_key) = length bucket_key
  /\ ~ In "/"%char (BucketGenerator.safe_key bucket_key)
  /\ ~ In "\"%char (BucketGenerator.safe_key bucket_key)
  /\ (~ In "/"%char bucket_key -> ~ In "\"%char bucket_key ->
      BucketGenerator.safe_key bucket_key = bucket_key).
Proof.
  unfold BucketGenerator.safe_key. change (L "-") with ["-"%char].
  rewrite !replace_char_one, map_map. split; [apply length_map|].
  split; [|split].
  - intro H. apply in_map_iff in H as [c [Hc _]].
    destruct (Ascii.eqb c "/") eqn:H1; cbn in Hc; [discriminate|].
    destruct (Ascii.eqb c "\") eqn:H2; [discriminate|].
    subst c. discriminate H1.
  - intro H. apply in_map_iff in H as [c [Hc _]].
    destruct (Ascii.eqb c "/") eqn:H1; cbn in Hc; [discriminate|].
    destruct (Ascii.eqb c "\") eqn:H2; [discriminate|].
    subst c. discriminate H2.
  - intros Hs Hb. rewrite <- (map_id bucket_key) at 2. apply map_ext_in.
    intros c Hc.
    destruct (Ascii.eqb c "/") eqn:H1.
    + apply Ascii.eqb_eq in H1. subst c. contradiction.
    + destruct (Ascii.eqb c "\") eqn:H2; [|reflexivity].
      apply Ascii.eqb_eq in H2. subst c. contradiction.
Qed.

(** ** Records of an unknown type *)

Section UnknownTypeFacts.

Variable py_str : json -> str.
Variable b64decode_utf8 : json -> option str.
Variable datetime : Type.
Variable fromtimestamp : Q -> option datetime.
Variable fromisoformat : str -> option datetime.

(** A record with a ["type"] key is read by its type alone: when the type
    is not a string, or is none of the six known names in any letter case,
    the record gives no message, whatever role, message or content it
    holds. *)
Theorem unknown_type_gives_no_message (entry : dict json) (v : json) :
  dict_get (L "type") entry = Some v ->
  (forall t, v = JStr t ->
             ~ In (lower t) (map L ["human"; "user"; "assistant"; "ai"; "tool_use";
                                    "tool_result"])) ->
  LogEntryParser.parse_entry py_str b64decode_utf8 datetime fromtimestamp fromisoformat
    entry = Ok None.
Proof.
  intros Hv Hu. rewrite parse_entry_unfold.
  unfold LogEntryParser.parse_entry_body, LogEntryParser.dispatch, dict_has.
  rewrite Hv. unfold LogEntryParser._parse_typed_entry, jget_or, get_or.
  rewrite Hv. destruct v as [| | |t| |]; try reflexivity.
  cbn [jlower bind]. specialize (Hu t eq_refl). cbn [map In] in Hu.
  assert (Hne : forall name, In name (map L ["human"; "user"; "assistant"; "ai";
                                              "tool_use"; "tool_result"]) ->
                             str_eqb (lower t) name = false).
  { intros name Hin. destruct (str_eqb (lower t) name) eqn:He; [|reflexivity].
    apply str_eqb_eq in He. subst name. contradiction. }
  rewrite !Hne by (cbn [map In]; tauto). reflexivity.
Qed.

End UnknownTypeFacts.

Lemma unknown_type_gives_no_message_witness :
  LogEntryParser.parse_entry ClaudeLogsParser.example_str (fun _ => None) Z
    (fun _ => None) (fun _ => None)
    [ (L "type", JStr (L "Progress")); (L "role", JStr (L "user"));
      (L "content", JStr (L "please run the whole test suite again")) ]
  = Ok None.
Proof.
  apply (unknown_type_gives_no_message ClaudeLogsParser.example_str (fun _ => None) Z
           (fun _ => None) (fun _ => None) _ (JStr (L "Progress"))).
  - reflexivity.
  - intros t H. injection H as <-. vm_compute. intuition discriminate.
Defined.

(** ** The detection of the full dialect *)

Lemma startswith_app p s : startswith p (p ++ s) = true.
Proof.
  induction p as [|c p IH]; [reflexivity|]. cbn [app startswith].
  now rewrite Ascii.eqb_refl, IH.
Qed.

Lemma contains_app sub a b : contains sub (a ++ sub ++ b) = true.
Proof.
  induction a as [|c a IH]; cbn [app].
  - destruct (sub ++ b) as [|x r] eqn:Hs.
    + cbn [contains]. rewrite <- Hs, startswith_app. reflexivity.
    + cbn [contains]. rewrite <- Hs, startswith_app. reflexivity.
  - cbn [contains]. rewrite IH. apply orb_true_r.
Qed.

(** A document is of the full dialect as soon as the words "section a" or
    "skill trigger profile" occur in it, in any letter case and at any
    place, a sentence of the body included. *)
Theorem full_marker_anywhere (before_ marker after_ : str) :
  lower marker = L "section a" \/ lower marker = L "skill trigger profile" ->
  _detect_format (before_ ++ marker ++ after_) = Full.
Proof.
  intro H. unfold _detect_format. cbn zeta.
  unfold lower. rewrite !map_app. fold (lower before_) (lower marker) (lower after_).
  destruct H as [-> | ->]; rewrite contains_app; [reflexivity | now rewrite orb_true_r].
Qed.

Lemma full_marker_anywhere_witness :
  _detect_format (L "## Trigger" ++ [nl] ++ L "see " ++ L "SECTION A" ++ L " of the old report")
  = Full.
Proof.
  rewrite !app_assoc. rewrite <- (app_assoc _ (L "SECTION A")).
  apply full_marker_anywhere. left. vm_compute. reflexivity.
Defined.
